(** * Microsoft Style Guide analyzer: the analysis and scoring engine

    A shallow embedding of [MicrosoftStyleGuideAnalyzer]
    (src/fastmcp_style_server.py) and of the [analyze_content] tool that
    wraps it, with the properties of the analysis, the scoring and the
    review synthesis.

    Conventions of the embedding.
    - A Python [str] is a list of characters [pychar]: the code points
      0..255 (Latin-1, one [ascii] each) and the symbols that the program's
      own messages contain.  The classes [\w], [\s], [\b] and case folding
      are those of Python's Unicode tables on that repertoire.  Texts
      with other characters are outside the embedding; among them are the
      four characters that [re.IGNORECASE] takes for an ASCII letter,
      U+017F for s, U+0130 and U+0131 for i and U+212A for k.
    - A Python [int] is a [Z]; a Python [float] is the rational it denotes,
      every float operation rounding its exact result to the nearest
      binary64 value (ties to even).
    - A [dict] with a fixed set of keys is a record; a key that only some
      detectors set is an [option] field. *)

From Stdlib Require Import List String Ascii Bool Arith NArith ZArith QArith Lia.
From Stdlib Require Import Qround Qabs Qpower Qminmax DecimalString Lqa.
From Stdlib Require PrimFloat FloatOps SpecFloat Uint63.
Import ListNotations.

(** ** Characters and strings *)

Module PyStr.

(** Symbols outside Latin-1 that occur in the program's messages. *)
Inductive symbol : Type :=
  | CheckMark            (* U+2705 *)
  | WarningSign          (* U+26A0 *)
  | VariationSelector16  (* U+FE0F *)
  | CrossMark            (* U+274C *)
  | Clipboard            (* U+1F4CB *)
  | BarChart             (* U+1F4CA *)
  | Bullet               (* U+2022 *)
  | Magnifier            (* U+1F50D *)
  | Globe.               (* U+1F310 *)

Inductive pychar : Type :=
  | L1 (a : ascii)
  | Sym (s : symbol).

Definition pystr : Type := list pychar.

Definition symbol_eqb (x y : symbol) : bool :=
  match x, y with
  | CheckMark, CheckMark | WarningSign, WarningSign
  | VariationSelector16, VariationSelector16 | CrossMark, CrossMark
  | Clipboard, Clipboard | BarChart, BarChart | Bullet, Bullet
  | Magnifier, Magnifier | Globe, Globe => true
  | _, _ => false
  end.

Definition pychar_eqb (x y : pychar) : bool :=
  match x, y with
  | L1 a, L1 b => Ascii.eqb a b
  | Sym s, Sym t => symbol_eqb s t
  | _, _ => false
  end.

Fixpoint pystr_eqb (s t : pystr) : bool :=
  match s, t with
  | [], [] => true
  | x :: s', y :: t' => pychar_eqb x y && pystr_eqb s' t'
  | _, _ => false
  end.

(** A string literal of the source, all of whose characters are ASCII. *)
Definition lat (s : string) : pystr := map L1 (list_ascii_of_string s).

(** The code point of a Latin-1 character. *)
Definition code (a : ascii) : N := N_of_ascii a.

Definition between (lo hi n : N) : bool := N.leb lo n && N.leb n hi.

(** [str.isspace] / [\s]: tab, LF, VT, FF, CR, FS, GS, RS, US, space,
    NEL (0x85) and the no-break space (0xA0). *)
Definition is_space (c : pychar) : bool :=
  match c with
  | L1 a => let n := code a in
            between 9 13 n || between 28 32 n || N.eqb n 133 || N.eqb n 160
  | Sym _ => false
  end.

(** [\w] for a [str] pattern: [str.isalnum] or the underscore. *)
Definition is_word (c : pychar) : bool :=
  match c with
  | L1 a => let n := code a in
            between 48 57 n || between 65 90 n || between 97 122 n || N.eqb n 95
            || N.eqb n 170 || N.eqb n 178 || N.eqb n 179 || N.eqb n 181
            || N.eqb n 185 || N.eqb n 186 || between 188 190 n
            || between 192 214 n || between 216 246 n || between 248 255 n
  | Sym _ => false
  end.

(** [str.lower] on one character: A-Z, and the Latin-1 capitals
    U+00C0..U+00DE but for the multiplication sign U+00D7. *)
Definition lower_ascii (a : ascii) : ascii :=
  let n := code a in
  if between 65 90 n || between 192 214 n || between 216 222 n
  then ascii_of_N (n + 32) else a.

Definition lower_char (c : pychar) : pychar :=
  match c with
  | L1 a => L1 (lower_ascii a)
  | Sym s => Sym s
  end.

Definition lower (s : pystr) : pystr := map lower_char s.

(** [str.isprintable] on one character, as [repr] uses it. *)
Definition is_printable (c : pychar) : bool :=
  match c with
  | L1 a => let n := code a in
            negb (between 0 31 n || between 127 160 n || N.eqb n 173)
  | Sym _ => true
  end.

(** [s.strip()]. *)
Fixpoint lstrip (s : pystr) : pystr :=
  match s with
  | c :: s' => if is_space c then lstrip s' else s
  | [] => []
  end.

Definition rstrip (s : pystr) : pystr := rev (lstrip (rev s)).

Definition strip (s : pystr) : pystr := rstrip (lstrip s).

(** [s.split()]: the maximal runs of characters that are not white space.
    [cur] is the run being read, in reverse. *)
Fixpoint split_ws_aux (cur : pystr) (s : pystr) : list pystr :=
  match s with
  | [] => match cur with [] => [] | _ => [rev cur] end
  | c :: s' =>
      if is_space c
      then match cur with
           | [] => split_ws_aux [] s'
           | _ => rev cur :: split_ws_aux [] s'
           end
      else split_ws_aux (c :: cur) s'
  end.

Definition split_ws (s : pystr) : list pystr := split_ws_aux [] s.

(** [s.startswith(p)]. *)
Fixpoint starts_with (p s : pystr) : bool :=
  match p, s with
  | [], _ => true
  | x :: p', y :: s' => pychar_eqb x y && starts_with p' s'
  | _ :: _, [] => false
  end.

(** [p in s]. *)
Fixpoint contains (p s : pystr) : bool :=
  starts_with p s ||
  match s with
  | [] => false
  | _ :: s' => contains p s'
  end.

(** [s.find(c, start)] for a one-character needle; [-1] when absent. *)
Fixpoint find_from (c : pychar) (s : pystr) (i start : nat) : Z :=
  match s with
  | [] => (-1)%Z
  | x :: s' =>
      if (start <=? i)%nat && pychar_eqb x c then Z.of_nat i
      else find_from c s' (S i) start
  end.

Definition find (c : pychar) (s : pystr) (start : nat) : Z := find_from c s 0 start.

(** [s.rfind(c, 0, stop)] for a one-character needle; [-1] when absent. *)
Fixpoint rfind_upto (c : pychar) (s : pystr) (i stop : nat) (last : Z) : Z :=
  match s with
  | [] => last
  | x :: s' =>
      if (i <? stop)%nat
      then rfind_upto c s' (S i) stop (if pychar_eqb x c then Z.of_nat i else last)
      else last
  end.

Definition rfind (c : pychar) (s : pystr) (stop : nat) : Z :=
  rfind_upto c s 0 stop (-1)%Z.

(** [s[a:b]] for [0 <= a] and [0 <= b]. *)
Definition slice (s : pystr) (a b : nat) : pystr := firstn (b - a) (skipn a s).

(** [s.replace(old, new)] for a non-empty [old]: the occurrences are taken
    from the left and do not overlap.  [skip] counts the characters of the
    occurrence just replaced that are still to be passed. *)
Fixpoint replace_aux (old new : pystr) (s : pystr) (skip : nat) : pystr :=
  match s with
  | [] => []
  | c :: s' =>
      match skip with
      | S k => replace_aux old new s' k
      | O =>
          if starts_with old s
          then new ++ replace_aux old new s' (List.length old - 1)
          else c :: replace_aux old new s' 0
      end
  end.

Definition replace (old new s : pystr) : pystr := replace_aux old new s 0.

End PyStr.

(** ** Regular expressions

    The fragment of Python's [re] that the program's patterns use:
    literals, character classes, greedy repetition of a class, [\b],
    sequence, ordered alternation and numbered groups.  Matching is the
    backtracking search of [re]: alternatives are tried in order, a
    repetition takes as many characters as it can and gives them back one
    at a time, and the first way that lets the rest of the pattern match
    wins. *)

Module PyRe.
Import PyStr.

Inductive regex : Type :=
  | Chr (c : ascii)               (* a literal character *)
  | Cls (p : pychar -> bool)      (* one character of a class *)
  | StarC (p : pychar -> bool)    (* [class]*, greedy *)
  | WordB                         (* \b *)
  | Eps
  | Seq (r1 r2 : regex)
  | Alt (r1 r2 : regex)
  | Group (n : nat) (r : regex).

(** Where the matcher stands: whether the character before is a word
    character, the text still to read, the index of its first character,
    and the spans of the groups closed so far (latest first). *)
Record mstate : Type := MState {
  prev_word : bool;
  rest : pystr;
  pos : nat;
  caps : list (nat * (nat * nat))
}.

(** A literal against a character of the text; under [re.IGNORECASE] the
    text character is lower-cased first (the patterns' letters are lower
    case). *)
Definition chr_matches (ic : bool) (c : ascii) (x : pychar) : bool :=
  match x with
  | L1 a => if ic then Ascii.eqb (lower_ascii a) (lower_ascii c) else Ascii.eqb a c
  | Sym _ => false
  end.

Definition next_word (s : pystr) : bool :=
  match s with
  | c :: _ => is_word c
  | [] => false
  end.

Definition advance (st : mstate) (x : pychar) (s' : pystr) : mstate :=
  MState (is_word x) s' (S (pos st)) (caps st).

Section Matcher.
Context {A : Type}.
Variable ic : bool.

(** Greedy [class]*: the longest run first, then shorter ones. *)
Fixpoint mstar (p : pychar -> bool) (k : mstate -> option A)
         (pw : bool) (s : pystr) (i : nat) (cs : list (nat * (nat * nat)))
  : option A :=
  match s with
  | x :: s' =>
      if p x
      then match mstar p k (is_word x) s' (S i) cs with
           | Some a => Some a
           | None => k (MState pw s i cs)
           end
      else k (MState pw s i cs)
  | [] => k (MState pw s i cs)
  end.

Fixpoint mt (r : regex) (st : mstate) (k : mstate -> option A) : option A :=
  match r with
  | Chr c =>
      match rest st with
      | x :: s' => if chr_matches ic c x then k (advance st x s') else None
      | [] => None
      end
  | Cls p =>
      match rest st with
      | x :: s' => if p x then k (advance st x s') else None
      | [] => None
      end
  | StarC p => mstar p k (prev_word st) (rest st) (pos st) (caps st)
  | WordB =>
      if xorb (prev_word st) (next_word (rest st)) then k st else None
  | Eps => k st
  | Seq r1 r2 => mt r1 st (fun st' => mt r2 st' k)
  | Alt r1 r2 =>
      match mt r1 st k with
      | Some a => Some a
      | None => mt r2 st k
      end
  | Group n r1 =>
      mt r1 st (fun st' =>
        k (MState (prev_word st') (rest st') (pos st')
                  ((n, (pos st, pos st')) :: caps st')))
  end.
End Matcher.

(** A match object: [m.start()], [m.end()] and the spans of its groups. *)
Record rmatch : Type := RMatch {
  m_start : nat;
  m_end : nat;
  m_caps : list (nat * (nat * nat))
}.

(** The match that starts at the current position, if any.  A match must
    take at least one character: every pattern of the program does, so
    nothing is lost (see [match_here_permissive]). *)
Definition match_here (ic : bool) (r : regex) (pw : bool) (s : pystr) (i : nat)
  : option rmatch :=
  mt ic r (MState pw s i [])
     (fun st' => if (i <? pos st')%nat
                 then Some (RMatch i (pos st') (caps st')) else None).

(** [re.finditer(r, text)]: the matches from left to right, each search
    resuming where the last match ended.  [skip] counts the characters of
    the last match that are still to be passed. *)
Fixpoint scan (ic : bool) (r : regex) (pw : bool) (s : pystr) (i skip : nat)
  : list rmatch :=
  match s with
  | [] => []
  | x :: s' =>
      match skip with
      | S n => scan ic r (is_word x) s' (S i) n
      | O =>
          match match_here ic r pw s i with
          | Some m => m :: scan ic r (is_word x) s' (S i) (m_end m - i - 1)
          | None => scan ic r (is_word x) s' (S i) 0
          end
      end
  end.

Definition finditer (ic : bool) (r : regex) (text : pystr) : list rmatch :=
  scan ic r false text 0 0.

(** [len(re.findall(r, text))]: one entry per match. *)
Definition count (ic : bool) (r : regex) (text : pystr) : nat :=
  List.length (finditer ic r text).

(** [re.search(r, text)]: the first match. *)
Fixpoint search_from (ic : bool) (r : regex) (pw : bool) (s : pystr) (i : nat)
  : option rmatch :=
  match s with
  | [] => None
  | x :: s' =>
      match match_here ic r pw s i with
      | Some m => Some m
      | None => search_from ic r (is_word x) s' (S i)
      end
  end.

Definition search (ic : bool) (r : regex) (text : pystr) : option rmatch :=
  search_from ic r false text 0.

(** [m.group()] and [m.group(n)] on the text that was searched. *)
Definition group0 (text : pystr) (m : rmatch) : pystr :=
  slice text (m_start m) (m_end m).

Fixpoint lookup_cap (n : nat) (cs : list (nat * (nat * nat))) : option (nat * nat) :=
  match cs with
  | [] => None
  | (g, span) :: cs' => if Nat.eqb g n then Some span else lookup_cap n cs'
  end.

Definition group (text : pystr) (m : rmatch) (n : nat) : pystr :=
  match lookup_cap n (m_caps m) with
  | Some (a, b) => slice text a b
  | None => []
  end.

(** [re.sub(r, f, text)] with a function [f] of the match. *)
Fixpoint sub_scan (ic : bool) (r : regex) (f : rmatch -> pystr)
         (pw : bool) (s : pystr) (i skip : nat) : pystr :=
  match s with
  | [] => []
  | x :: s' =>
      match skip with
      | S n => sub_scan ic r f (is_word x) s' (S i) n
      | O =>
          match match_here ic r pw s i with
          | Some m => f m ++ sub_scan ic r f (is_word x) s' (S i) (m_end m - i - 1)
          | None => x :: sub_scan ic r f (is_word x) s' (S i) 0
          end
      end
  end.

Definition sub (ic : bool) (r : regex) (f : rmatch -> pystr) (text : pystr) : pystr :=
  sub_scan ic r f false text 0 0.

(** [re.split(r, text)] for a pattern without groups: the pieces between
    the matches, the empty ones too.  [cur] is the piece being read, in
    reverse. *)
Fixpoint split_scan (ic : bool) (r : regex) (cur : pystr)
         (pw : bool) (s : pystr) (i skip : nat) : list pystr :=
  match s with
  | [] => [rev cur]
  | x :: s' =>
      match skip with
      | S n => split_scan ic r cur (is_word x) s' (S i) n
      | O =>
          match match_here ic r pw s i with
          | Some m => rev cur :: split_scan ic r [] (is_word x) s' (S i) (m_end m - i - 1)
          | None => split_scan ic r (x :: cur) (is_word x) s' (S i) 0
          end
      end
  end.

Definition split (ic : bool) (r : regex) (text : pystr) : list pystr :=
  split_scan ic r [] false text 0 0.

(** *** Building patterns *)

Fixpoint lit_chars (l : list ascii) : regex :=
  match l with
  | [] => Eps
  | [c] => Chr c
  | c :: l' => Seq (Chr c) (lit_chars l')
  end.

(** A literal word. *)
Definition lit (s : string) : regex := lit_chars (list_ascii_of_string s).

(** [a|b|...]. *)
Fixpoint alts (l : list regex) : regex :=
  match l with
  | [] => Eps
  | [r] => r
  | r :: l' => Alt r (alts l')
  end.

Definition words (l : list string) : regex := alts (map lit l).

(** [class+]. *)
Definition plus (p : pychar -> bool) : regex := Seq (Cls p) (StarC p).

(** [class{n,}]. *)
Fixpoint at_least (n : nat) (p : pychar -> bool) : regex :=
  match n with
  | O => StarC p
  | S n' => Seq (Cls p) (at_least n' p)
  end.

Fixpoint seqs (l : list regex) : regex :=
  match l with
  | [] => Eps
  | [r] => r
  | r :: l' => Seq r (seqs l')
  end.

Definition is_char (c : string) (x : pychar) : bool :=
  existsb (fun a => pychar_eqb x (L1 a)) (list_ascii_of_string c).

(** The length of the longest prefix of [s] in the class [p], and whether
    the character before the rest is a word character. *)
Fixpoint run (p : pychar -> bool) (s : pystr) : nat :=
  match s with
  | c :: s' => if p c then S (run p s') else 0
  | [] => 0
  end.

Fixpoint last_word (p : pychar -> bool) (pw : bool) (s : pystr) : bool :=
  match s with
  | c :: s' => if p c then last_word p (is_word c) s' else pw
  | [] => pw
  end.

(** The spans of the matches of a pattern in a text. *)
Definition spans (ic : bool) (r : regex) (text : string) : list (nat * nat) :=
  map (fun m => (m_start m, m_end m)) (finditer ic r (lat text)).

(** Whether every match of a pattern takes at least one character. *)
Fixpoint consumes (r : regex) : bool :=
  match r with
  | Chr _ | Cls _ => true
  | StarC _ | WordB | Eps => false
  | Seq r1 r2 => consumes r1 || consumes r2
  | Alt r1 r2 => consumes r1 && consumes r2
  | Group _ r1 => consumes r1
  end.

(** The matcher went from [st] to [st'], strictly forward when [b]. *)
Definition moved (b : bool) (st st' : mstate) : Prop :=
  if b then (pos st < pos st')%nat else (pos st <= pos st')%nat.

End PyRe.

(** ** The analyzer's pattern library ([self.patterns]) *)

Module Patterns.
Import PyStr PyRe.

(** [[.!?]] *)
Definition is_terminator : pychar -> bool := is_char ".!?".

(** [[A-Z]] *)
Definition is_upper_az (c : pychar) : bool :=
  match c with
  | L1 a => between 65 90 (code a)
  | Sym _ => false
  end.

(** [\b(it's|you're|we're|don't|can't|won't|let's|you'll|we'll)\b] *)
Definition contractions : regex :=
  seqs [WordB;
        Group 1 (words ["it's"; "you're"; "we're"; "don't"; "can't"; "won't";
                        "let's"; "you'll"; "we'll"]%string);
        WordB].

(** [\b(is|are|was|were|been|be)\s+\w*ed\b] *)
Definition passive_voice : regex :=
  seqs [WordB;
        Group 1 (words ["is"; "are"; "was"; "were"; "been"; "be"]%string);
        plus is_space; StarC is_word; lit "ed"; WordB].

(** [[.!?]+\s*[A-Z][^.!?]{100,}[.!?]] *)
Definition long_sentences : regex :=
  seqs [plus is_terminator; StarC is_space; Cls is_upper_az;
        at_least 100 (fun c => negb (is_terminator c)); Cls is_terminator].

(** [\b(he|him|his|she|her|hers)\b] *)
Definition gendered_pronouns : regex :=
  seqs [WordB;
        Group 1 (words ["he"; "him"; "his"; "she"; "her"; "hers"]%string);
        WordB].

(** [\b(guys|mankind|blacklist|whitelist|master|slave|crazy|insane|lame)\b] *)
Definition non_inclusive_terms : regex :=
  seqs [WordB;
        Group 1 (words ["guys"; "mankind"; "blacklist"; "whitelist"; "master";
                        "slave"; "crazy"; "insane"; "lame"]%string);
        WordB].

(** [\byou\b] *)
Definition you_addressing : regex := seqs [WordB; lit "you"; WordB].

(** [\b(the user|users|one should|people should)\b] *)
Definition second_person_avoid : regex :=
  seqs [WordB;
        Group 1 (words ["the user"; "users"; "one should"; "people should"]%string);
        WordB].

(** [[.!?]+], the sentence splitter of [analyze_content]. *)
Definition sentence_break : regex := plus is_terminator.

(** [\b(it's|you're|we're|don't|can't|won't)\b], the pattern of
    [_generate_recommendations]. *)
Definition contractions_short : regex :=
  seqs [WordB;
        Group 1 (words ["it's"; "you're"; "we're"; "don't"; "can't"; "won't"]%string);
        WordB].

(** [\b(is|are|was|were|been|be)\s+(\w+ed)\b], the pattern that
    [_generate_rewrite_examples] substitutes. *)
Definition passive_rewrite : regex :=
  seqs [WordB;
        Group 1 (words ["is"; "are"; "was"; "were"; "been"; "be"]%string);
        plus is_space;
        Group 2 (Seq (plus is_word) (lit "ed"));
        WordB].

End Patterns.

(** ** Numbers

    A binary64 value is the rational it denotes.  [fl] rounds a rational
    to the nearest value with a 53-bit significand, ties to the even
    significand; the exponent range is not bounded, which no count of
    matches in a text can tell from binary64. *)

Module PyNum.

Open Scope Q_scope.

(** [floor (log2 q)] for [0 < q]. *)
Definition Qlog2 (q : Q) : Z :=
  let e0 := (Z.log2 (Qnum q) - Z.log2 (Zpos (Qden q)))%Z in
  if Qle_bool (2 ^ e0) q then e0 else (e0 - 1)%Z.

(** The nearest integer, ties to even. *)
Definition round_half_even (q : Q) : Z :=
  let f := Qfloor q in
  match Qcompare (q - inject_Z f) (1 # 2) with
  | Lt => f
  | Gt => (f + 1)%Z
  | Eq => if Z.even f then f else (f + 1)%Z
  end.

(** Rounding of a positive rational: its significand, scaled into
    [2^52, 2^53), is rounded to an integer. *)
Definition fl_pos (q : Q) : Q :=
  let u := 2 ^ (Qlog2 q - 52) in
  inject_Z (round_half_even (q / u)) * u.

Definition fl (q : Q) : Q :=
  match Qcompare q 0 with
  | Eq => 0
  | Gt => Qred (fl_pos q)
  | Lt => Qred (- fl_pos (- q))
  end.

(** A Python number: an [int] or a [float]. *)
Inductive pynum : Type :=
  | PInt (z : Z)
  | PFloat (q : Q).

(** The value of a number. *)
Definition value (x : pynum) : Q :=
  match x with
  | PInt z => inject_Z z
  | PFloat q => q
  end.

(** [float(x)], as arithmetic between an [int] and a [float] applies it. *)
Definition to_float (x : pynum) : Q :=
  match x with
  | PInt z => fl (inject_Z z)
  | PFloat q => q
  end.

Definition py_add (x y : pynum) : pynum :=
  match x, y with
  | PInt a, PInt b => PInt (a + b)
  | _, _ => PFloat (fl (to_float x + to_float y))
  end.

Definition py_sub (x y : pynum) : pynum :=
  match x, y with
  | PInt a, PInt b => PInt (a - b)
  | _, _ => PFloat (fl (to_float x - to_float y))
  end.

Definition py_mul (x y : pynum) : pynum :=
  match x, y with
  | PInt a, PInt b => PInt (a * b)
  | _, _ => PFloat (fl (to_float x * to_float y))
  end.

(** [a / b] on two [int]s with [b] positive: the quotient, rounded once. *)
Definition int_truediv (a b : Z) : pynum :=
  PFloat (fl (inject_Z a / inject_Z b)).

(** Comparisons are exact, also between an [int] and a [float]. *)
Definition py_lt (x y : pynum) : bool :=
  match Qcompare (value x) (value y) with Lt => true | _ => false end.

Definition py_le (x y : pynum) : bool :=
  match Qcompare (value x) (value y) with Gt => false | _ => true end.

Definition py_gt (x y : pynum) : bool := py_lt y x.
Definition py_ge (x y : pynum) : bool := py_le y x.

(** [min(a, b)] keeps [a] unless [b < a]; [max(a, b)] keeps [a] unless
    [b > a]. *)
Definition py_min (a b : pynum) : pynum := if py_lt b a then b else a.
Definition py_max (a b : pynum) : pynum := if py_gt b a then b else a.

(** [round(x, 1)] on a [float]: the decimal with one digit nearest to the
    value of [x], ties to the even digit, then the float nearest to it. *)
Definition round1 (x : pynum) : pynum :=
  match x with
  | PInt z => PInt z
  | PFloat q => PFloat (fl (inject_Z (round_half_even (q * 10)) / 10))
  end.

(** The float literals of the source. *)
Definition f_0_1 : pynum := PFloat (fl (1 # 10)).
Definition f_0_2 : pynum := PFloat (fl (2 # 10)).
Definition f_0_5 : pynum := PFloat (fl (5 # 10)).
Definition f_1_0 : pynum := PFloat (fl 1).
Definition f_1_5 : pynum := PFloat (fl (15 # 10)).
Definition f_2_0 : pynum := PFloat (fl 2).
Definition f_3_0 : pynum := PFloat (fl 3).
Definition f_10_0 : pynum := PFloat (fl 10).

Definition of_nat (n : nat) : pynum := PInt (Z.of_nat n).

(** For comparison with Rocq's primitive binary64 numbers. *)

(** The rational that a binary64 number denotes. *)
Definition binary64_value (f : PrimFloat.float) : option Q :=
  match FloatOps.Prim2SF f with
  | SpecFloat.S754_zero _ => Some 0
  | SpecFloat.S754_finite sign m e =>
      Some (Qred ((if sign then -1 else 1) * inject_Z (Zpos m) * 2 ^ e))
  | _ => None
  end.

(** [float(z)] as a binary64 number. *)
Definition b64 (z : Z) : PrimFloat.float :=
  PrimFloat.of_uint63 (Uint63.of_Z z).

Close Scope Q_scope.

End PyNum.

(** ** The analyzer ([class MicrosoftStyleGuideAnalyzer]) *)

Module Analyzer.
Import PyStr PyRe PyNum.

Inductive category : Type := voice_tone | grammar | terminology | accessibility.
Inductive severity : Type := info | warning | error.

Definition category_eqb (a b : category) : bool :=
  match a, b with
  | voice_tone, voice_tone | grammar, grammar
  | terminology, terminology | accessibility, accessibility => true
  | _, _ => false
  end.

Definition severity_eqb (a b : severity) : bool :=
  match a, b with
  | info, info | warning, warning | error, error => true
  | _, _ => false
  end.

(** The strings that the source stores under ["type"] and ["severity"]. *)
Definition category_name (c : category) : pystr :=
  lat match c with
      | voice_tone => "voice_tone"
      | grammar => "grammar"
      | terminology => "terminology"
      | accessibility => "accessibility"
      end.

Definition severity_name (s : severity) : pystr :=
  lat match s with
      | info => "info"
      | warning => "warning"
      | error => "error"
      end.

(** An entry of [issues].  The keys are always inserted in the order
    type, severity, position, text, message, principle, note; the optional
    ones are those that only some detectors set. *)
Record issue : Type := Issue {
  i_type : category;
  i_severity : severity;
  i_position : option nat;
  i_text : option pystr;
  i_message : pystr;
  i_principle : option pystr;
  i_note : option pystr
}.

(** An entry of [suggestions]: type, message, principle. *)
Record suggestion : Type := Suggestion {
  s_type : pystr;
  s_message : pystr;
  s_principle : pystr
}.

Record statistics : Type := Statistics {
  word_count : nat;
  sentence_count : nat;
  avg_words_per_sentence : pynum
}.

(** The dictionary that [analyze_content] returns. *)
Record analysis : Type := Analysis {
  status : pystr;
  assessment : pystr;
  stats : statistics;
  issues : list issue;
  suggestions : list suggestion;
  total_issues : nat;
  analysis_type : pystr;
  style_guide_url : pystr
}.

(** An entry of [terminology_standards]. *)
Record standard : Type := Standard {
  correct : pystr;
  avoid : list pystr;
  note : pystr
}.

Record pattern_table : Type := PatternTable {
  p_contractions : regex;
  p_passive_voice : regex;
  p_long_sentences : regex;
  p_gendered_pronouns : regex;
  p_non_inclusive_terms : regex;
  p_you_addressing : regex;
  p_second_person_avoid : regex
}.

(** An entry of [change_history]; the time stamp is a reading of the
    clock. *)
Record change_entry : Type := ChangeEntry {
  timestamp : Z;
  file_path : pystr;
  line_number : Z;
  description : pystr
}.

(** The analyzer object: the fields that [__init__] sets. *)
Record analyzer : Type := AnalyzerObj {
  style_guide_base_url : pystr;
  change_history : list change_entry;
  patterns : pattern_table;
  terminology_standards : list (pystr * standard)
}.

Definition init : analyzer :=
  {| style_guide_base_url := lat "https://learn.microsoft.com/en-us/style-guide";
     change_history := [];
     patterns :=
       {| p_contractions := Patterns.contractions;
          p_passive_voice := Patterns.passive_voice;
          p_long_sentences := Patterns.long_sentences;
          p_gendered_pronouns := Patterns.gendered_pronouns;
          p_non_inclusive_terms := Patterns.non_inclusive_terms;
          p_you_addressing := Patterns.you_addressing;
          p_second_person_avoid := Patterns.second_person_avoid |};
     terminology_standards :=
       [ (lat "AI", Standard (lat "AI") [lat "A.I."] (lat "No periods"));
         (lat "email", Standard (lat "email") [lat "e-mail"] (lat "One word"));
         (lat "website", Standard (lat "website") [lat "web site"] (lat "One word"));
         (lat "sign_in", Standard (lat "sign in (verb), sign-in (noun)")
                                  [lat "login"; lat "log in"] (lat "Microsoft standard"));
         (lat "setup", Standard (lat "set up (verb), setup (noun)")
                                [lat "setup (verb)"] (lat "Context dependent"));
         (lat "wifi", Standard (lat "Wi-Fi") [lat "WiFi"; lat "wifi"]
                               (lat "Hyphenated, both caps")) ] |}.

(** [str(n)] for a non-negative [int]. *)
Definition str_of_nat (n : nat) : pystr :=
  lat (DecimalString.NilEmpty.string_of_uint (Nat.to_uint n)).

(** [x in [a, b, ...]] on strings. *)
Definition mem_str (x : pystr) (l : list pystr) : bool := existsb (pystr_eqb x) l.

Definition nonempty {A : Type} (l : list A) : bool :=
  match l with [] => false | _ => true end.

Section Analyze.
Variable self : analyzer.
Variable text : pystr.
Variable atype : pystr.

(** The voice and tone block: contractions and direct address. *)
Definition voice_tone_block : list issue * list suggestion :=
  if mem_str atype [lat "comprehensive"; lat "voice_tone"] then
    let contractions := count true (p_contractions (patterns self)) text in
    let you_usage := count true (p_you_addressing (patterns self)) text in
    let '(iss, sug) :=
      if (0 <? contractions)%nat then
        ([], [Suggestion (lat "positive")
                (lat "Good use of contractions (" ++ str_of_nat contractions
                 ++ lat " found) - supports warm, natural tone")
                (lat "warm_and_relaxed")])
      else
        ([Issue voice_tone info None None
            (lat "Consider using contractions (it's, you're, we'll) for a more natural tone")
            (Some (lat "warm_and_relaxed")) None], [])
    in
    if (0 <? you_usage)%nat then
      (iss, sug ++ [Suggestion (lat "positive")
                      (lat "Good use of 'you' (" ++ str_of_nat you_usage
                       ++ lat " instances) - directly engages readers")
                      (lat "ready_to_help")])
    else (iss, sug)
  else ([], []).

(** The grammar block: passive voice, then long sentences. *)
Definition grammar_block : list issue :=
  if mem_str atype [lat "comprehensive"; lat "grammar"] then
    map (fun m =>
           Issue grammar warning (Some (m_start m)) (Some (group0 text m))
                 (lat "Consider using active voice for clarity")
                 (Some (lat "crisp_and_clear")) None)
        (finditer true (p_passive_voice (patterns self)) text)
    ++
    map (fun m =>
           Issue grammar info (Some (m_start m)) None
                 (lat "Long sentence detected - consider breaking into shorter sentences")
                 (Some (lat "crisp_and_clear")) None)
        (finditer false (p_long_sentences (patterns self)) text)
  else [].

(** The terminology block: every avoided term of every standard, in the
    order of the table. *)
Definition terminology_block : list issue :=
  if mem_str atype [lat "comprehensive"; lat "terminology"] then
    flat_map (fun entry : pystr * standard =>
      let std := snd entry in
      flat_map (fun avoid_term =>
        if contains (lower avoid_term) (lower text) then
          [Issue terminology warning None (Some avoid_term)
                 (lat "Use '" ++ correct std ++ lat "' instead of '"
                  ++ avoid_term ++ lat "'")
                 None (Some (note std))]
        else [])
        (avoid std))
      (terminology_standards self)
  else [].

(** The accessibility block: non-inclusive terms, then gendered
    pronouns. *)
Definition accessibility_block : list issue :=
  if mem_str atype [lat "comprehensive"; lat "accessibility"] then
    map (fun m =>
           Issue accessibility error (Some (m_start m)) (Some (group0 text m))
                 (lat "'" ++ group0 text m
                  ++ lat "' may not be inclusive - consider alternatives")
                 (Some (lat "bias_free_communication")) None)
        (finditer true (p_non_inclusive_terms (patterns self)) text)
    ++
    map (fun m =>
           Issue accessibility warning (Some (m_start m)) (Some (group0 text m))
                 (lat "Consider gender-neutral alternatives")
                 (Some (lat "bias_free_communication")) None)
        (finditer true (p_gendered_pronouns (patterns self)) text)
  else [].

Definition analyze_content : analysis :=
  let words := split_ws text in
  let sentences :=
    filter (fun s => nonempty (strip s))
           (PyRe.split false Patterns.sentence_break text) in
  let wc := List.length words in
  let sc := List.length sentences in
  let avg := round1 (int_truediv (Z.of_nat wc) (Z.of_nat (Nat.max 1 sc))) in
  let iss :=
    fst voice_tone_block ++ grammar_block ++ terminology_block
    ++ accessibility_block in
  let sug := snd voice_tone_block in
  let total := List.length iss in
  let '(st, asmt) :=
    if (total =? 0)%nat then
      (Sym CheckMark :: lat " Excellent",
       lat "Content follows Microsoft Style Guide principles well")
    else if (total <=? 2)%nat then
      (Sym WarningSign :: Sym VariationSelector16 :: lat " Good",
       lat "Minor style improvements suggested")
    else
      (Sym CrossMark :: lat " Needs Work",
       lat "Multiple style issues detected")
  in
  {| status := st;
     assessment := asmt;
     stats := Statistics wc sc avg;
     issues := iss;
     suggestions := sug;
     total_issues := total;
     analysis_type := atype;
     style_guide_url := style_guide_base_url self |}.
End Analyze.

(** *** Quality scores *)

(** The dictionary that [_calculate_quality_scores] returns; its keys in
    the order of insertion. *)
Record quality_scores : Type := QualityScores {
  q_voice_tone : pynum;
  q_clarity : pynum;
  q_accessibility : pynum;
  q_compliance : pynum
}.

(** [len([i for i in analysis["issues"] if i["type"] == c])]. *)
Definition count_type (c : category) (l : list issue) : nat :=
  List.length (filter (fun i => category_eqb (i_type i) c) l).

(** [max(0, min(10, score))]. *)
Definition clamp (score : pynum) : pynum :=
  py_max (PInt 0) (py_min (PInt 10) score).

Definition calculate_quality_scores (self : analyzer) (a : analysis)
           (document_text : pystr) : quality_scores :=
  (* Voice & Tone Score *)
  let contractions := count true (p_contractions (patterns self)) document_text in
  let you_usage := count true (p_you_addressing (patterns self)) document_text in
  let voice_issues := count_type voice_tone (issues a) in
  let voice_score := f_10_0 in
  let voice_score := py_sub voice_score (py_mul (of_nat voice_issues) f_2_0) in
  let voice_score := py_add voice_score (py_min (py_mul (of_nat contractions) f_0_5) f_2_0) in
  let voice_score := py_add voice_score (py_min (py_mul (of_nat you_usage) f_0_2) f_1_0) in
  let voice_score := clamp voice_score in
  (* Clarity Score *)
  let avg_sentence_length := avg_words_per_sentence (stats a) in
  let clarity_issues := count_type grammar (issues a) in
  let clarity_score := f_10_0 in
  let clarity_score := py_sub clarity_score (py_mul (of_nat clarity_issues) f_1_5) in
  let clarity_score :=
    if py_gt avg_sentence_length (PInt 25)
    then py_sub clarity_score (py_mul (py_sub avg_sentence_length (PInt 25)) f_0_1)
    else clarity_score in
  let clarity_score := clamp clarity_score in
  (* Accessibility Score *)
  let accessibility_issues := count_type accessibility (issues a) in
  let accessibility_score := f_10_0 in
  let accessibility_score :=
    py_sub accessibility_score (py_mul (of_nat accessibility_issues) f_3_0) in
  let accessibility_score := clamp accessibility_score in
  (* Compliance Score *)
  let terminology_issues := count_type terminology (issues a) in
  let compliance_score := f_10_0 in
  let compliance_score :=
    py_sub compliance_score (py_mul (of_nat terminology_issues) f_2_0) in
  let compliance_score := clamp compliance_score in
  {| q_voice_tone := voice_score;
     q_clarity := clarity_score;
     q_accessibility := accessibility_score;
     q_compliance := compliance_score |}.

(** *** [str(analysis)]

    [repr] of the dictionary, as [_generate_recommendations] reads it. *)

Definition dquote : pychar := L1 "034"%char.
Definition squote : pychar := L1 "'"%char.
Definition backslash : pychar := L1 "\"%char.

Definition hex_digit (n : N) : pychar :=
  L1 (ascii_of_N (if N.ltb n 10 then 48 + n else 87 + n)).

(** One character inside [repr] of a string delimited by [q]. *)
Definition repr_char (q : pychar) (c : pychar) : pystr :=
  match c with
  | L1 a =>
      if pychar_eqb c q || pychar_eqb c backslash then [backslash; c]
      else if Ascii.eqb a "009"%char then lat "\t"
      else if Ascii.eqb a "010"%char then lat "\n"
      else if Ascii.eqb a "013"%char then lat "\r"
      else if is_printable c then [c]
      else lat "\x" ++ [hex_digit (N.div (code a) 16); hex_digit (N.modulo (code a) 16)]
  | Sym _ => [c]
  end.

(** [repr(s)]: double quotes when [s] has a single quote and no double
    quote, single quotes otherwise. *)
Definition repr_str (s : pystr) : pystr :=
  let q := if existsb (pychar_eqb squote) s && negb (existsb (pychar_eqb dquote) s)
           then dquote else squote in
  q :: flat_map (repr_char q) s ++ [q].

(** [repr(x)] of a [float] with at most one decimal digit, not negative
    and below 1e16, as [avg_words_per_sentence] is for any text of fewer
    than 10^16 words: the integer part, a point and the digit. *)
Definition repr_float (q : Q) : pystr :=
  let d := Z.to_nat (round_half_even (q * 10)) in
  str_of_nat (d / 10) ++ lat "." ++ str_of_nat (d mod 10).

Definition repr_num (x : pynum) : pystr :=
  match x with
  | PInt z => str_of_nat (Z.to_nat z)
  | PFloat q => repr_float q
  end.

Fixpoint join (sep : pystr) (l : list pystr) : pystr :=
  match l with
  | [] => []
  | [x] => x
  | x :: l' => x ++ sep ++ join sep l'
  end.

(** ['key': value] *)
Definition item (key : string) (v : pystr) : pystr :=
  repr_str (lat key) ++ lat ": " ++ v.

Definition opt_item {A : Type} (key : string) (f : A -> pystr) (o : option A)
  : list pystr :=
  match o with
  | Some v => [item key (f v)]
  | None => []
  end.

Definition repr_dict (items : list pystr) : pystr :=
  lat "{" ++ join (lat ", ") items ++ lat "}".

Definition repr_list (elems : list pystr) : pystr :=
  lat "[" ++ join (lat ", ") elems ++ lat "]".

Definition repr_issue (i : issue) : pystr :=
  repr_dict
    ([item "type" (repr_str (category_name (i_type i)));
      item "severity" (repr_str (severity_name (i_severity i)))]
     ++ opt_item "position" str_of_nat (i_position i)
     ++ opt_item "text" repr_str (i_text i)
     ++ [item "message" (repr_str (i_message i))]
     ++ opt_item "principle" repr_str (i_principle i)
     ++ opt_item "note" repr_str (i_note i)).

Definition repr_suggestion (s : suggestion) : pystr :=
  repr_dict [item "type" (repr_str (s_type s));
             item "message" (repr_str (s_message s));
             item "principle" (repr_str (s_principle s))].

Definition repr_statistics (s : statistics) : pystr :=
  repr_dict [item "word_count" (str_of_nat (word_count s));
             item "sentence_count" (str_of_nat (sentence_count s));
             item "avg_words_per_sentence" (repr_num (avg_words_per_sentence s))].

Definition str_analysis (a : analysis) : pystr :=
  repr_dict [item "status" (repr_str (status a));
             item "assessment" (repr_str (assessment a));
             item "statistics" (repr_statistics (stats a));
             item "issues" (repr_list (map repr_issue (issues a)));
             item "suggestions" (repr_list (map repr_suggestion (suggestions a)));
             item "total_issues" (str_of_nat (total_issues a));
             item "analysis_type" (repr_str (analysis_type a));
             item "style_guide_url" (repr_str (style_guide_url a))].

(** *** Recommendations *)

Record recommendations : Type := Recommendations {
  high_priority : list pystr;
  medium_priority : list pystr;
  low_priority : list pystr
}.

(** [l or [d]]. *)
Definition or_default {A : Type} (l : list A) (d : A) : list A :=
  match l with [] => [d] | _ => l end.

(** [l.append(x)] under a condition. *)
Definition append_if {A : Type} (b : bool) (x : A) (l : list A) : list A :=
  if b then l ++ [x] else l.

Definition rec_inclusive : pystr :=
  lat "Fix inclusive language violations - these are critical for Microsoft standards".
Definition rec_accessibility : pystr :=
  lat "Address accessibility concerns immediately".
Definition rec_voice : pystr :=
  lat "Improve voice and tone to match Microsoft's warm, conversational style".
Definition rec_clarity : pystr :=
  lat "Simplify complex sentences and reduce passive voice usage".
Definition rec_long_sentences : pystr :=
  lat "Break down long sentences for better readability".
Definition rec_terminology : pystr :=
  lat "Update terminology to match Microsoft standards".
Definition rec_contractions : pystr :=
  lat "Add contractions to make tone more natural and conversational".

Definition generate_recommendations (a : analysis) (qs : quality_scores)
  : recommendations :=
  let high := [] in
  let medium := [] in
  let low := [] in
  (* High priority *)
  let accessibility_issues :=
    filter (fun i => category_eqb (i_type i) accessibility
                     && severity_eqb (i_severity i) error) (issues a) in
  let high := append_if (nonempty accessibility_issues) rec_inclusive high in
  let high := append_if (py_lt (q_accessibility qs) (PInt 7)) rec_accessibility high in
  (* Medium priority *)
  let medium := append_if (py_lt (q_voice_tone qs) (PInt 7)) rec_voice medium in
  let medium := append_if (py_lt (q_clarity qs) (PInt 7)) rec_clarity medium in
  let medium :=
    append_if (py_gt (avg_words_per_sentence (stats a)) (PInt 25))
              rec_long_sentences medium in
  (* Low priority *)
  let low := append_if (py_lt (q_compliance qs) (PInt 9)) rec_terminology low in
  let low :=
    append_if (count true Patterns.contractions_short (str_analysis a) =? 0)%nat
              rec_contractions low in
  {| high_priority := or_default high (lat "No critical issues found");
     medium_priority := or_default medium (lat "Minor style improvements available");
     low_priority := or_default low (lat "Content meets Microsoft standards well") |}.

(** *** Rewrite examples *)

Record rewrite_example : Type := RewriteExample {
  r_category : pystr;
  r_before : pystr;
  r_after : pystr;
  r_explanation : pystr
}.

(** The function that [re.sub] applies to each passive construction. *)
Definition passive_replacement (original : pystr) (m : rmatch) : pystr :=
  if mem_str (group original m 1) [lat "is"; lat "are"]
  then lat "the system " ++ replace (lat "ed") (lat "s") (group original m 2)
  else lat "we " ++ replace (lat "ed") [] (group original m 2).

Definition passive_example (self : analyzer) (document_text : pystr)
  : list rewrite_example :=
  match finditer true (p_passive_voice (patterns self)) document_text with
  | [] => []
  | m :: _ =>
      let sentence_start :=
        Z.to_nat (Z.max 0 (rfind (L1 "."%char) document_text (m_start m) + 1)) in
      let sentence_end :=
        let e := find (L1 "."%char) document_text (m_end m) in
        if (e =? -1)%Z then List.length document_text else Z.to_nat e in
      let original := strip (slice document_text sentence_start sentence_end) in
      let improved :=
        sub true Patterns.passive_rewrite (passive_replacement original) original in
      [RewriteExample (lat "Active Voice") original improved
         (lat "Changed from passive to active voice for clarity and directness")]
  end.

Definition replacements : list (pystr * pystr) :=
  [(lat "guys", lat "everyone"); (lat "mankind", lat "humanity");
   (lat "blacklist", lat "block list"); (lat "whitelist", lat "allow list");
   (lat "master", lat "primary"); (lat "slave", lat "secondary")].

(** [d.get(key, default)]. *)
Fixpoint dict_get (d : list (pystr * pystr)) (key default : pystr) : pystr :=
  match d with
  | [] => default
  | (k, v) :: d' => if pystr_eqb k key then v else dict_get d' key default
  end.

Definition inclusive_example (self : analyzer) (document_text : pystr)
  : list rewrite_example :=
  match finditer true (p_non_inclusive_terms (patterns self)) document_text with
  | [] => []
  | m :: _ =>
      let original_word := group0 document_text m in
      let replacement :=
        dict_get replacements (lower original_word) (lat "inclusive alternative") in
      [RewriteExample (lat "Inclusive Language")
         (lat "..." ++ original_word ++ lat "...")
         (lat "..." ++ replacement ++ lat "...")
         (lat "Replaced '" ++ original_word ++ lat "' with more inclusive language")]
  end.

Definition natural_tone_example : rewrite_example :=
  RewriteExample (lat "Natural Tone")
    (lat "You cannot access this feature.")
    (lat "You can't access this feature.")
    (lat "Added contractions for a more natural, conversational tone").

Definition contractions_example (self : analyzer) (document_text : pystr)
  : list rewrite_example :=
  match search true (p_contractions (patterns self)) document_text with
  | None => [natural_tone_example]
  | Some _ => []
  end.

(** The analysis is an argument of the method but is not read. *)
Definition generate_rewrite_examples (self : analyzer) (a : analysis)
           (document_text : pystr) : list rewrite_example :=
  let examples :=
    passive_example self document_text
    ++ inclusive_example self document_text
    ++ contractions_example self document_text in
  firstn 3 examples.

(** *** The review

    The parts of [review_document] that rest on the analysis and the
    scores; the narrative sub-reviews are not embedded. *)

Definition py_truediv (x y : pynum) : pynum :=
  match x, y with
  | PInt a, PInt b => int_truediv a b
  | _, _ => PFloat (fl (to_float x / to_float y)%Q)
  end.

Definition get_quality_level (score : pynum) : pystr :=
  if py_ge score (PInt 9) then lat "Excellent"
  else if py_ge score (PInt 7) then lat "Good"
  else if py_ge score (PInt 5) then lat "Needs Improvement"
  else lat "Requires Major Revision".

Record review : Type := Review {
  rv_analysis : analysis;
  rv_overall_score : pynum;
  rv_quality_level : pystr;
  rv_recommendations : recommendations;
  rv_rewrite_examples : list rewrite_example;
  rv_quality_scores : quality_scores
}.

Definition review_document (self : analyzer) (document_text : pystr) : review :=
  let a := analyze_content self document_text (lat "comprehensive") in
  let qs := calculate_quality_scores self a document_text in
  let recs := generate_recommendations a qs in
  let examples := generate_rewrite_examples self a document_text in
  (* sum(quality_scores.values()) / len(quality_scores) *)
  let total :=
    py_add (py_add (py_add (py_add (PInt 0) (q_voice_tone qs)) (q_clarity qs))
                   (q_accessibility qs)) (q_compliance qs) in
  let overall_score := round1 (py_truediv total (PInt 4)) in
  {| rv_analysis := a;
     rv_overall_score := overall_score;
     rv_quality_level := get_quality_level overall_score;
     rv_recommendations := recs;
     rv_rewrite_examples := examples;
     rv_quality_scores := qs |}.

(** *** The change log *)

(** [track_change]: one more entry, stamped with the clock. *)
Definition track_change (now : Z) (file_path : pystr) (line_number : Z)
           (change_description : pystr) (self : analyzer) : analyzer :=
  {| style_guide_base_url := style_guide_base_url self;
     change_history :=
       change_history self
       ++ [ChangeEntry now file_path line_number change_description];
     patterns := patterns self;
     terminology_standards := terminology_standards self |}.

End Analyzer.

(** ** The web-enabled analyzer

    [WebEnabledStyleGuideAnalyzer] (src/fastmcp_style_server_web.py) has
    the patterns and the terminology table of the offline analyzer.  Its
    [analyze_content] first builds [issues] and [suggestions] from the
    patterns and then asks the web for guidance on the issues; this is the
    first part, the two lists as they are returned. *)

Module Web.
Import PyStr PyRe PyNum Analyzer.

Section Analyze.
Variable self : analyzer.
Variable text : pystr.
Variable atype : pystr.

(** Contractions and direct address: no test of the analysis type. *)
Definition voice_tone_block : list issue * list suggestion :=
  let contractions := count true (p_contractions (patterns self)) text in
  let you_usage := count true (p_you_addressing (patterns self)) text in
  let '(iss, sug) :=
    if (0 <? contractions)%nat then
      ([], [Suggestion (lat "positive")
              (lat "Good use of contractions (" ++ str_of_nat contractions
               ++ lat " found) - supports warm, natural tone")
              (lat "warm_and_relaxed")])
    else
      ([Issue voice_tone info None None
          (lat "Consider using contractions (it's, you're, we'll) for a more natural tone")
          (Some (lat "warm_and_relaxed")) None], [])
  in
  if (0 <? you_usage)%nat then
    (iss, sug ++ [Suggestion (lat "positive")
                    (lat "Good use of 'you' (" ++ str_of_nat you_usage
                     ++ lat " instances) - directly engages readers")
                    (lat "ready_to_help")])
  else (iss, sug).

(** Passive voice only. *)
Definition grammar_block : list issue :=
  if mem_str atype [lat "comprehensive"; lat "grammar"] then
    map (fun m =>
           Issue grammar warning (Some (m_start m)) (Some (group0 text m))
                 (lat "Consider using active voice for clarity")
                 (Some (lat "crisp_and_clear")) None)
        (finditer true (p_passive_voice (patterns self)) text)
  else [].

Definition terminology_block : list issue :=
  if mem_str atype [lat "comprehensive"; lat "terminology"] then
    flat_map (fun entry : pystr * standard =>
      let std := snd entry in
      flat_map (fun avoid_term =>
        if contains (lower avoid_term) (lower text) then
          [Issue terminology warning None (Some avoid_term)
                 (lat "Use '" ++ correct std ++ lat "' instead of '"
                  ++ avoid_term ++ lat "'")
                 None (Some (note std))]
        else [])
        (avoid std))
      (terminology_standards self)
  else [].

(** Non-inclusive terms only. *)
Definition accessibility_block : list issue :=
  if mem_str atype [lat "comprehensive"; lat "accessibility"] then
    map (fun m =>
           Issue accessibility error (Some (m_start m)) (Some (group0 text m))
                 (lat "'" ++ group0 text m
                  ++ lat "' may not be inclusive - consider alternatives")
                 (Some (lat "bias_free_communication")) None)
        (finditer true (p_non_inclusive_terms (patterns self)) text)
  else [].

(** The [issues] and the [suggestions] of the result. *)
Definition issues : list issue :=
  fst voice_tone_block ++ grammar_block ++ terminology_block
  ++ accessibility_block.

Definition suggestions : list suggestion := snd voice_tone_block.
End Analyze.

End Web.

(** ** The [analyze_content] tool

    The FastMCP tool of the source: it rejects blank text, runs the
    analyzer, records one change per issue in the analyzer's change log and
    returns a summary with the analysis.  The analyzer is the module-level
    object; it is passed in and out. *)

Module Server.
Import PyStr PyRe PyNum Analyzer.

(** What the tool returns: [{"error": ...}] or
    [{"summary": ..., "detailed": ...}]. *)
Inductive tool_result : Type :=
  | ToolError (message : pystr)
  | ToolOk (summary : pystr) (detailed : analysis).

Definition nl : pystr := [L1 "010"%char].

(** [str.title] on a string whose cased characters are ASCII letters. *)
Definition upper_az (c : pychar) : pychar :=
  match c with
  | L1 a => if between 97 122 (code a) then L1 (ascii_of_N (code a - 32)) else c
  | Sym _ => c
  end.

Definition is_cased (c : pychar) : bool :=
  match c with
  | L1 a => between 65 90 (code a) || between 97 122 (code a)
  | Sym _ => false
  end.

Fixpoint title_aux (prev_cased : bool) (s : pystr) : pystr :=
  match s with
  | [] => []
  | c :: s' =>
      (if prev_cased then lower_char c else upper_az c)
        :: title_aux (is_cased c) s'
  end.

Definition title (s : pystr) : pystr := title_aux false s.

(** [issues_by_type]: the number of issues of each type, the types in the
    order of their first issue. *)
Fixpoint bump (c : category) (acc : list (category * nat)) : list (category * nat) :=
  match acc with
  | [] => [(c, 1)]
  | (c', n) :: acc' =>
      if category_eqb c' c then (c', S n) :: acc' else (c', n) :: bump c acc'
  end.

Definition issues_by_type (l : list issue) : list (category * nat) :=
  fold_left (fun acc i => bump (i_type i) acc) l [].

Definition summary_of (result : analysis) : pystr :=
  let summary :=
    Sym Clipboard :: lat " Microsoft Style Guide Analysis" ++ nl ++ nl
    ++ status result ++ lat " - " ++ assessment result ++ nl ++ nl
    ++ Sym BarChart :: lat " **Text Statistics:**" ++ nl
    ++ lat "   " ++ Sym Bullet :: lat " Words: "
    ++ str_of_nat (word_count (stats result)) ++ nl
    ++ lat "   " ++ Sym Bullet :: lat " Sentences: "
    ++ str_of_nat (sentence_count (stats result)) ++ nl
    ++ lat "   " ++ Sym Bullet :: lat " Avg words/sentence: "
    ++ repr_num (avg_words_per_sentence (stats result)) ++ nl ++ nl
    ++ Sym Magnifier :: lat " **Issues Found:** "
    ++ str_of_nat (total_issues result) in
  let summary :=
    summary ++
    flat_map (fun e : category * nat =>
                nl ++ lat "   " ++ Sym Bullet :: lat " "
                ++ title (replace (lat "_") (lat " ") (category_name (fst e)))
                ++ lat ": " ++ str_of_nat (snd e))
             (issues_by_type (issues result)) in
  let summary :=
    if nonempty (suggestions result)
    then summary ++ nl ++ nl ++ Sym CheckMark :: lat " **Positive Elements:** "
         ++ str_of_nat (List.length (suggestions result))
    else summary in
  summary ++ nl ++ nl ++ Sym Globe :: lat " **Official Guidelines:** "
  ++ style_guide_url result.

(** The loop that records the issues: the [k]-th call of [track_change]
    reads the clock as [now k]. *)
Fixpoint track_issues (now : nat -> Z) (k : nat) (l : list issue)
         (self : analyzer) : analyzer :=
  match l with
  | [] => self
  | i :: l' =>
      let position := match i_position i with Some p => Z.of_nat p | None => 0%Z end in
      let line_num := (position / 50 + 1)%Z in
      let change_desc := lat "Style issue identified: " ++ i_message i in
      track_issues now (S k) l'
        (track_change (now k) (lat "content_analysis") line_num change_desc self)
  end.

Definition analyze_content_tool (now : nat -> Z) (text atype : pystr)
           (self : analyzer) : tool_result * analyzer :=
  if negb (nonempty (strip text)) then
    (ToolError (lat "No text provided for analysis"), self)
  else
    let result := analyze_content self text atype in
    let self' := track_issues now 0 (issues result) self in
    (ToolOk (summary_of result) result, self').

(** A call of the tool: the readings of the clock during the call, the
    text and the analysis type. *)
Record tool_call : Type := ToolCall {
  call_clock : nat -> Z;
  call_text : pystr;
  call_type : pystr
}.

(** The analyzer after a sequence of calls of the tool. *)
Fixpoint run_calls (calls : list tool_call) (self : analyzer) : analyzer :=
  match calls with
  | [] => self
  | c :: calls' =>
      run_calls calls'
        (snd (analyze_content_tool (call_clock c) (call_text c) (call_type c) self))
  end.

(** The analyzer with another change log. *)
Definition with_change_history (log : list change_entry) (self : analyzer)
  : analyzer :=
  {| style_guide_base_url := style_guide_base_url self;
     change_history := log;
     patterns := patterns self;
     terminology_standards := terminology_standards self |}.

(** Two analyzers that differ at most in their change logs. *)
Definition same_engine (s1 s2 : analyzer) : Prop :=
  style_guide_base_url s1 = style_guide_base_url s2
  /\ patterns s1 = patterns s2
  /\ terminology_standards s1 = terminology_standards s2.

End Server.

(** ** The specification's wording

    Definitions that follow the words of the specification, to compare
    with the ones above. *)

Module Spec.
Import PyStr PyNum Analyzer.

(** The number of whitespace-separated tokens: the maximal runs of
    characters that are not white space.  [in_token] tells whether the
    character before belongs to a token. *)
Fixpoint count_tokens (in_token : bool) (s : pystr) : nat :=
  match s with
  | [] => 0
  | c :: s' =>
      if is_space c then count_tokens false s'
      else (if in_token then 0 else 1) + count_tokens true s'
  end.

(** The fragments left by cutting the text at every run of [.], [!] and
    [?].  [in_break] tells whether the character before belongs to such a
    run; [cur] is the fragment being read, in reverse. *)
Fixpoint fragments_aux (in_break : bool) (cur : pystr) (s : pystr) : list pystr :=
  match s with
  | [] => [rev cur]
  | c :: s' =>
      if Patterns.is_terminator c
      then if in_break then fragments_aux true [] s'
           else rev cur :: fragments_aux true [] s'
      else fragments_aux false (c :: cur) s'
  end.

Definition fragments (s : pystr) : list pystr := fragments_aux false [] s.

(** A fragment is blank when it has white space only. *)
Definition blank (s : pystr) : bool := forallb is_space s.

Definition count_sentences (s : pystr) : nat :=
  List.length (filter (fun f => negb (blank f)) (fragments s)).

(** *** The scores as functions of the counts

    The four scores in the arithmetic of the program (binary64 operations
    and the program's clamp), as functions of the counts that
    [_calculate_quality_scores] takes from the analysis and the text.  The
    formulas of the specification on exact numbers follow at the end of
    this module. *)

(** voice_tone: 10, minus 2.0 per voice_tone issue, plus
    min(0.5 x contractions, 2.0), plus min(0.2 x you, 1.0), clamped. *)
Definition voice_tone_score (voice_issues contraction_count you_count : nat) : pynum :=
  clamp (py_add (py_add (py_sub f_10_0 (py_mul (of_nat voice_issues) f_2_0))
                        (py_min (py_mul (of_nat contraction_count) f_0_5) f_2_0))
                (py_min (py_mul (of_nat you_count) f_0_2) f_1_0)).

(** clarity: 10, minus 1.5 per grammar issue, minus
    0.1 x (avg_words_per_sentence - 25) when the average is above 25,
    clamped. *)
Definition clarity_score (grammar_issues : nat) (avg : pynum) : pynum :=
  let base := py_sub f_10_0 (py_mul (of_nat grammar_issues) f_1_5) in
  clamp (if py_gt avg (PInt 25)
         then py_sub base (py_mul (py_sub avg (PInt 25)) f_0_1)
         else base).

(** accessibility: 10, minus 3.0 per accessibility issue, clamped. *)
Definition accessibility_score (accessibility_issues : nat) : pynum :=
  clamp (py_sub f_10_0 (py_mul (of_nat accessibility_issues) f_3_0)).

(** compliance: 10, minus 2.0 per terminology issue, clamped. *)
Definition compliance_score (terminology_issues : nat) : pynum :=
  clamp (py_sub f_10_0 (py_mul (of_nat terminology_issues) f_2_0)).

(** A score lies in the closed interval from 0 to 10. *)
Definition in_0_10 (x : pynum) : Prop :=
  py_le (PInt 0) x = true /\ py_le x (PInt 10) = true.

(** The positive Suggestion of a principle, and the Issue that asks for
    contractions. *)
Definition has_suggestion (principle : string) (a : analysis) : Prop :=
  exists s, In s (suggestions a)
            /\ s_type s = lat "positive" /\ s_principle s = lat principle.

Definition has_contractions_issue (a : analysis) : Prop :=
  exists i, In i (issues a) /\ i_type i = voice_tone /\ i_severity i = info.

(** The terms that the terminology table tells to avoid. *)
Definition avoided_terms : list pystr :=
  [lat "A.I."; lat "e-mail"; lat "web site"; lat "login"; lat "log in";
   lat "setup (verb)"; lat "WiFi"; lat "wifi"].

(** The Issue that the non-inclusive-terms detector emits for a match. *)
Definition non_inclusive_issue (text : pystr) (m : PyRe.rmatch) : issue :=
  Issue accessibility error (Some (PyRe.m_start m)) (Some (PyRe.group0 text m))
        (lat "'" ++ PyRe.group0 text m
         ++ lat "' may not be inclusive - consider alternatives")
        (Some (lat "bias_free_communication")) None.

(** *** The formulas of the specification on exact numbers

    The four scores as the specification writes them, computed on the
    rationals with no rounding: every score starts at 10 and is clamped
    to the interval from 0 to 10 at the end. *)

Definition of_count (n : nat) : Q := inject_Z (Z.of_nat n).

(** Clamping to [0, 10]. *)
Definition clamp_0_10 (x : Q) : Q := Qmax 0 (Qmin 10 x).

(** voice_tone: subtract 2.0 per voice_tone issue, add
    min(0.5 x contraction_count, 2.0), add min(0.2 x you_count, 1.0). *)
Definition voice_tone_formula (voice_issues contraction_count you_count : nat) : Q :=
  clamp_0_10 (10 - 2 * of_count voice_issues
              + Qmin ((1 # 2) * of_count contraction_count) 2
              + Qmin ((1 # 5) * of_count you_count) 1)%Q.

(** clarity: subtract 1.5 per grammar issue, and
    0.1 x (avg_words_per_sentence - 25) when the average is above 25. *)
Definition clarity_formula (grammar_issues : nat) (avg : Q) : Q :=
  clamp_0_10 (10 - (3 # 2) * of_count grammar_issues
              - (if Qle_bool avg 25 then 0 else (1 # 10) * (avg - 25)))%Q.

(** accessibility: subtract 3.0 per accessibility issue. *)
Definition accessibility_formula (accessibility_issues : nat) : Q :=
  clamp_0_10 (10 - 3 * of_count accessibility_issues)%Q.

(** compliance: subtract 2.0 per terminology issue. *)
Definition compliance_formula (terminology_issues : nat) : Q :=
  clamp_0_10 (10 - 2 * of_count terminology_issues)%Q.

(** What binary64 rounding may add to or take from a score: far less than
    one part in [10^12]. *)
Definition tolerance : Q := 1 # 1000000000000.

Definition close_to (x y : Q) : Prop := (Qabs (x - y) <= tolerance)%Q.

End Spec.

(** ** The rest of the analyzer: sub-reviews, executive summary,
    improvements and the change summary *)

Module Review.
Import PyStr PyRe PyNum Analyzer.

(** *** [_review_voice_tone] *)

Record voice_tone_review : Type := VoiceToneReview {
  vt_warm_and_relaxed : pystr;
  vt_crisp_and_clear : pystr;
  vt_ready_to_help : pystr;
  vt_issues : list issue;
  vt_contractions_found : nat;
  vt_direct_address_count : nat
}.

Definition label_good : pystr := Sym CheckMark :: lat " Good".

Definition review_voice_tone (self : analyzer) (a : analysis)
           (document_text : pystr) : voice_tone_review :=
  let voice_issues :=
    filter (fun i => category_eqb (i_type i) voice_tone) (issues a) in
  let contractions_count :=
    count true (p_contractions (patterns self)) document_text in
  let you_count := count true (p_you_addressing (patterns self)) document_text in
  let warm_relaxed :=
    if (0 <? contractions_count)%nat then label_good
    else Sym CrossMark :: lat " Missing contractions" in
  let crisp_clear :=
    if py_le (avg_words_per_sentence (stats a)) (PInt 25) then label_good
    else Sym WarningSign :: Sym VariationSelector16 :: lat " Sentences too long" in
  let ready_help :=
    if (0 <? you_count)%nat then label_good
    else Sym WarningSign :: Sym VariationSelector16 :: lat " Limited direct address" in
  {| vt_warm_and_relaxed := warm_relaxed;
     vt_crisp_and_clear := crisp_clear;
     vt_ready_to_help := ready_help;
     vt_issues := voice_issues;
     vt_contractions_found := contractions_count;
     vt_direct_address_count := you_count |}.

(** *** [_review_clarity] *)

Record clarity_review : Type := ClarityReview {
  cl_passive_voice_instances : nat;
  cl_long_sentences : nat;
  cl_avg_sentence_length : pynum;
  cl_clarity_issues : list issue;
  cl_readability_level : pystr
}.

Definition review_clarity (self : analyzer) (a : analysis)
           (document_text : pystr) : clarity_review :=
  let clarity_issues :=
    filter (fun i => category_eqb (i_type i) grammar) (issues a) in
  let passive_voice_count :=
    count true (p_passive_voice (patterns self)) document_text in
  let long_sentences :=
    count false (p_long_sentences (patterns self)) document_text in
  {| cl_passive_voice_instances := passive_voice_count;
     cl_long_sentences := long_sentences;
     cl_avg_sentence_length := avg_words_per_sentence (stats a);
     cl_clarity_issues := clarity_issues;
     cl_readability_level :=
       if (passive_voice_count <=? 2)%nat && (long_sentences =? 0)%nat
       then lat "Good" else lat "Needs Improvement" |}.

(** *** [_review_user_experience] *)

(** [\b(click|select|choose|enter|type|navigate|open|close)\b] *)
Definition action_verbs_pattern : regex :=
  seqs [WordB;
        Group 1 (words ["click"; "select"; "choose"; "enter"; "type";
                        "navigate"; "open"; "close"]%string);
        WordB].

(** [\b(note|important|warning|tip|caution)\b] *)
Definition error_prevention_pattern : regex :=
  seqs [WordB;
        Group 1 (words ["note"; "important"; "warning"; "tip"; "caution"]%string);
        WordB].

(** [\b(example|for instance|such as)\b] *)
Definition examples_pattern : regex :=
  seqs [WordB;
        Group 1 (words ["example"; "for instance"; "such as"]%string);
        WordB].

Record ux_review : Type := UxReview {
  ux_action_oriented_language : nat;
  ux_error_prevention_elements : nat;
  ux_examples_provided : nat;
  ux_score : pynum;
  ux_audience_appropriateness : pystr
}.

Definition review_user_experience (document_text target_audience : pystr)
  : ux_review :=
  let action_verbs := count true action_verbs_pattern document_text in
  let error_prevention := count true error_prevention_pattern document_text in
  let examples := count true examples_pattern document_text in
  let score := PInt 0 in
  let score := py_add score (py_min (py_mul (of_nat action_verbs) f_0_5) (PInt 3)) in
  let score := py_add score (py_min (py_mul (of_nat error_prevention) (PInt 1)) (PInt 3)) in
  let score := py_add score (py_min (py_mul (of_nat examples) (PInt 1)) (PInt 2)) in
  {| ux_action_oriented_language := action_verbs;
     ux_error_prevention_elements := error_prevention;
     ux_examples_provided := examples;
     ux_score := py_min (PInt 10) score;
     ux_audience_appropriateness :=
       if negb (pystr_eqb target_audience (lat "expert")) || (0 <? examples)%nat
       then lat "Appropriate" else lat "May need more examples" |}.

(** *** [_review_compliance] *)

Record compliance_review : Type := ComplianceReview {
  co_terminology_compliance : bool;
  co_accessibility_compliance : bool;
  co_overall_compliance : pystr;
  co_compliance_issues : list issue
}.

Definition review_compliance (a : analysis) : compliance_review :=
  let terminology_issues :=
    filter (fun i => category_eqb (i_type i) terminology) (issues a) in
  let accessibility_issues :=
    filter (fun i => category_eqb (i_type i) accessibility) (issues a) in
  let compliance_level :=
    if (0 <? List.length terminology_issues)%nat
       || (0 <? List.length accessibility_issues)%nat
    then lat "Needs Improvement"
    else if (3 <? List.length (issues a))%nat then lat "Partially Compliant"
    else lat "Excellent" in
  {| co_terminology_compliance := (List.length terminology_issues =? 0)%nat;
     co_accessibility_compliance := (List.length accessibility_issues =? 0)%nat;
     co_overall_compliance := compliance_level;
     co_compliance_issues := terminology_issues ++ accessibility_issues |}.

(** *** The executive summary *)

Definition strength_voice : pystr :=
  lat "Strong Microsoft voice and tone compliance".
Definition strength_inclusive : pystr :=
  lat "Excellent inclusive language usage".
Definition strength_sentence_length : pystr :=
  lat "Good sentence length for readability".
Definition strength_engaging : pystr :=
  lat "Uses engaging, direct language effectively".
Definition strength_placeholder : pystr :=
  lat "Content follows basic writing principles".

(** [_identify_strengths] *)
Definition identify_strengths (a : analysis) (qs : quality_scores) : list pystr :=
  let strengths := [] in
  let strengths := append_if (py_ge (q_voice_tone qs) (PInt 8)) strength_voice strengths in
  let strengths :=
    append_if (py_ge (q_accessibility qs) (PInt 9)) strength_inclusive strengths in
  let strengths :=
    append_if (py_le (avg_words_per_sentence (stats a)) (PInt 20))
              strength_sentence_length strengths in
  let strengths :=
    append_if (0 <? List.length (suggestions a))%nat strength_engaging strengths in
  or_default (firstn 3 strengths) strength_placeholder.

Definition critical_long_sentences : pystr :=
  lat "Sentences are too long - will significantly impact readability".
Definition critical_passive : pystr :=
  lat "Excessive passive voice usage affects clarity".
Definition critical_placeholder : pystr :=
  lat "No critical issues identified".

(** [_identify_critical_issues] *)
Definition identify_critical_issues (a : analysis) : list pystr :=
  let critical := [] in
  let accessibility_errors :=
    filter (fun i => category_eqb (i_type i) accessibility
                     && severity_eqb (i_severity i) error) (issues a) in
  let critical :=
    append_if (nonempty accessibility_errors)
      (lat "Accessibility violations: "
       ++ str_of_nat (List.length accessibility_errors)
       ++ lat " instances of non-inclusive language") critical in
  let critical :=
    append_if (py_gt (avg_words_per_sentence (stats a)) (PInt 30))
              critical_long_sentences critical in
  let passive_voice_count :=
    List.length (filter (fun i => contains (lat "passive") (i_message i)) (issues a)) in
  let critical := append_if (5 <? passive_voice_count)%nat critical_passive critical in
  or_default (firstn 3 critical) critical_placeholder.

(** [_generate_next_steps]; the analysis is an argument that is not
    read. *)
Definition generate_next_steps (score : pynum) (a : analysis) : list pystr :=
  if py_ge score (PInt 8) then
    [lat "Content is ready for publication"; lat "Consider final proofreading pass"]
  else if py_ge score (PInt 6) then
    [lat "Address medium-priority recommendations"; lat "Review with stakeholders";
     lat "One more revision recommended"]
  else
    [lat "Major revision needed"; lat "Focus on high-priority issues first";
     lat "Consider restructuring content"].

(** *** [suggest_improvements] *)

Record improvement : Type := Improvement {
  im_issue : pystr;
  im_suggestion : pystr;
  im_type : category;
  im_severity : severity
}.

(** [issue.get('text', '')] *)
Definition text_or_empty (i : issue) : pystr :=
  match i_text i with Some t => t | None => [] end.

Definition suggestion_generic : pystr :=
  lat "Follow Microsoft Style Guide recommendations".

(** [_get_improvement_suggestion] *)
Definition get_improvement_suggestion (i : issue) : pystr :=
  match i_type i with
  | voice_tone =>
      lat "Use more contractions and direct language to sound natural and friendly"
  | grammar =>
      if contains (lat "passive") (i_message i)
      then lat "Change '" ++ text_or_empty i ++ lat "' to active voice"
      else suggestion_generic
  | terminology => lat "Replace with Microsoft-approved term as noted"
  | accessibility => lat "Use inclusive alternative for '" ++ text_or_empty i ++ lat "'"
  end.

Record improvements : Type := Improvements {
  imp_text_preview : pystr;
  imp_total_improvements : nat;
  imp_improvements : list improvement;
  imp_focus_area : pystr;
  imp_style_guide_url : pystr
}.

Definition general_improvement : improvement :=
  Improvement (lat "Average sentence length is high")
              (lat "Break long sentences into shorter, clearer ones")
              grammar info.

Definition suggest_improvements (self : analyzer) (text focus_area : pystr)
  : improvements :=
  let a := analyze_content self text (lat "comprehensive") in
  let imps :=
    flat_map (fun i =>
      if pystr_eqb focus_area (lat "all")
         || pystr_eqb (category_name (i_type i)) focus_area
      then [Improvement (i_message i) (get_improvement_suggestion i)
                        (i_type i) (i_severity i)]
      else []) (issues a) in
  let imps :=
    append_if (py_gt (avg_words_per_sentence (stats a)) (PInt 25))
              general_improvement imps in
  {| imp_text_preview :=
       if (100 <? List.length text)%nat then slice text 0 100 ++ lat "..." else text;
     imp_total_improvements := List.length imps;
     imp_improvements := imps;
     imp_focus_area := focus_area;
     imp_style_guide_url :=
       style_guide_base_url self ++ lat "/top-10-tips-style-voice" |}.

(** *** [get_github_updates_summary] *)

Record updates_summary : Type := UpdatesSummary {
  us_summary : pystr;
  us_date : pystr;
  us_total_updates : nat;
  us_changes : list change_entry;
  us_formatted_summary : pystr;
  us_pr_instructions : pystr
}.

Definition newline : pystr := [L1 "010"%char].

(** One line of the summary: the description, and the line number when
    it is positive. *)
Definition format_change (c : change_entry) : pystr :=
  let change_text := lat "- " ++ description c in
  if (0 <? line_number c)%Z
  then change_text ++ lat " (line " ++ str_of_nat (Z.to_nat (line_number c)) ++ lat ")"
  else change_text.

(** [current_date] is the date of the call, formatted. *)
Definition get_github_updates_summary (current_date : pystr) (self : analyzer)
  : updates_summary :=
  let total_updates := List.length (change_history self) in
  let formatted_changes := map format_change (change_history self) in
  let formatted_changes :=
    or_default formatted_changes (lat "- No changes tracked in current session") in
  let summary_text :=
    lat "**Summary of Changes for Microsoft Style Guide**" ++ newline
    ++ lat "**Date:** " ++ current_date ++ newline
    ++ lat "**Changes:**" ++ newline
    ++ join newline formatted_changes ++ newline ++ newline
    ++ lat "**Total updates:** " ++ str_of_nat total_updates ++ newline ++ newline
    ++ Sym Clipboard :: lat " **For Pull Request:**" ++ newline
    ++ lat "Copy the summary above to include in your pull request description. This provides reviewers with a clear audit trail of all Microsoft Style Guide improvements made during your session." in
  {| us_summary := summary_text;
     us_date := current_date;
     us_total_updates := total_updates;
     us_changes := change_history self;
     us_formatted_summary := summary_text;
     us_pr_instructions :=
       lat "Copy the summary above to include in your pull request description." |}.

(** *** The executive summary of [review_document] *)

Record executive_summary : Type := ExecutiveSummary {
  es_overall_score : pynum;
  es_quality_level : pystr;
  es_key_strengths : list pystr;
  es_critical_issues : list pystr;
  es_next_steps : list pystr
}.

Definition executive_summary_of (self : analyzer) (document_text : pystr)
  : executive_summary :=
  let r := review_document self document_text in
  {| es_overall_score := rv_overall_score r;
     es_quality_level := rv_quality_level r;
     es_key_strengths := identify_strengths (rv_analysis r) (rv_quality_scores r);
     es_critical_issues := identify_critical_issues (rv_analysis r);
     es_next_steps := generate_next_steps (rv_overall_score r) (rv_analysis r) |}.

End Review.

(** ** The other tools *)

Module Tools.
Import PyStr PyRe PyNum Analyzer Server Review.

(** [search_style_guide]: the address that the FastMCP tool builds, and
    the whole result of the fallback tool, which does not escape the
    query. *)
Definition search_url (self : analyzer) (query : pystr) : pystr :=
  style_guide_base_url self ++ lat "/?search="
  ++ replace (lat " ") (lat "%20") query.

Inductive search_result : Type :=
  | SearchError (message : pystr)
  | SearchOk (query url : pystr).

Definition search_style_guide_fallback (self : analyzer) (query : pystr)
  : search_result :=
  if negb (nonempty (strip query)) then SearchError (lat "No query provided")
  else SearchOk query (style_guide_base_url self ++ lat "/?search=" ++ query).

(** The fallback [suggest_improvements] tool. *)
Inductive improvements_result : Type :=
  | ImprovementsError (message : pystr)
  | ImprovementsOk (result : improvements).

Definition suggest_improvements_tool (self : analyzer) (text focus_area : pystr)
  : improvements_result :=
  if negb (nonempty (strip text)) then ImprovementsError (lat "No text provided")
  else ImprovementsOk (suggest_improvements self text focus_area).

End Tools.

(** ** Notions used to state further properties *)

Module Observations.
Import PyStr PyRe PyNum Analyzer Server Review Tools.

(** The analysis types that [analyze_content] knows. *)
Definition known_filters : list pystr :=
  [lat "comprehensive"; lat "voice_tone"; lat "grammar"; lat "terminology";
   lat "accessibility"].

Definition status_excellent : pystr := Sym CheckMark :: lat " Excellent".
Definition status_good : pystr :=
  Sym WarningSign :: Sym VariationSelector16 :: lat " Good".
Definition status_needs_work : pystr := Sym CrossMark :: lat " Needs Work".

(** The category that a focus area or an issue type names, if any. *)
Definition category_of (name : pystr) : option category :=
  if pystr_eqb name (lat "voice_tone") then Some voice_tone
  else if pystr_eqb name (lat "grammar") then Some grammar
  else if pystr_eqb name (lat "terminology") then Some terminology
  else if pystr_eqb name (lat "accessibility") then Some accessibility
  else None.

(** The suggestion that [_get_improvement_suggestion] writes for a
    passive construction. *)
Definition suggestion_active_voice (t : pystr) : pystr :=
  lat "Change '" ++ t ++ lat "' to active voice".

(** The words of the non-inclusive-terms pattern. *)
Definition non_inclusive_words : list pystr :=
  map lat ["guys"; "mankind"; "blacklist"; "whitelist"; "master";
           "slave"; "crazy"; "insane"; "lame"]%string.

(** The number of entries that a sequence of calls of the
    [analyze_content] tool adds to the change log of an analyzer. *)
Fixpoint logged_by (self : analyzer) (calls : list tool_call) : nat :=
  match calls with
  | [] => 0
  | c :: calls' =>
      (if nonempty (strip (call_text c))
       then total_issues (analyze_content self (call_text c) (call_type c))
       else 0)
      + logged_by self calls'
  end.


End Observations.

(** * Properties *)

(** ** Strings *)

Module PyStrFacts.
Import PyStr Analyzer.
Local Open Scope nat_scope.

Lemma symbol_eqb_eq (x y : symbol) : symbol_eqb x y = true <-> x = y.
Proof. destruct x, y; simpl; split; intro H; try reflexivity; discriminate H. Qed.

Lemma pychar_eqb_eq (x y : pychar) : pychar_eqb x y = true <-> x = y.
Proof.
  destruct x as [a|s], y as [b|t]; simpl.
  - rewrite Ascii.eqb_eq. split; intro H; [now subst | now inversion H].
  - split; intro H; discriminate H.
  - split; intro H; discriminate H.
  - rewrite symbol_eqb_eq. split; intro H; [now subst | now inversion H].
Qed.

Lemma pychar_eqb_refl (x : pychar) : pychar_eqb x x = true.
Proof. now apply pychar_eqb_eq. Qed.

Lemma pystr_eqb_eq (s t : pystr) : pystr_eqb s t = true <-> s = t.
Proof.
  revert t. induction s as [|x s IH]; intros [|y t]; simpl;
    try (split; intro H; [reflexivity || discriminate H | reflexivity || discriminate H]).
  rewrite andb_true_iff, pychar_eqb_eq, IH.
  split; [intros [-> ->]; reflexivity | intro H; inversion H; auto].
Qed.


Lemma lstrip_nil_iff (s : pystr) : lstrip s = [] <-> forallb is_space s = true.
Proof.
  induction s as [|c s IH]; simpl; [tauto|].
  destruct (is_space c) eqn:E; simpl; [exact IH|].
  split; intro H; discriminate H.
Qed.

Lemma lstrip_head (s : pystr) :
  match lstrip s with [] => True | c :: _ => is_space c = false end.
Proof.
  induction s as [|c s IH]; simpl; [exact I|].
  destruct (is_space c) eqn:E; [exact IH | exact E].
Qed.

Lemma forallb_rev {A : Type} (f : A -> bool) (l : list A) :
  forallb f (rev l) = forallb f l.
Proof.
  induction l as [|x l IH]; simpl; [reflexivity|].
  rewrite forallb_app, IH. simpl. rewrite andb_true_r. apply andb_comm.
Qed.

Lemma strip_nil_iff (s : pystr) : strip s = [] <-> forallb is_space s = true.
Proof.
  unfold strip, rstrip. split.
  - intro H. apply lstrip_nil_iff.
    assert (H1 : lstrip (rev (lstrip s)) = []).
    { destruct (lstrip (rev (lstrip s))) as [|c t]; [reflexivity|].
      simpl in H. symmetry in H. apply app_cons_not_nil in H. destruct H. }
    apply lstrip_nil_iff in H1. rewrite forallb_rev in H1.
    pose proof (lstrip_head s) as Hh.
    destruct (lstrip s) as [|c t]; [reflexivity|].
    simpl in H1. rewrite Hh in H1. discriminate H1.
  - intro H. apply lstrip_nil_iff in H. rewrite H. reflexivity.
Qed.

Lemma split_ws_aux_length (s cur : pystr) :
  List.length (split_ws_aux cur s)
  = Spec.count_tokens (nonempty cur) s + (if nonempty cur then 1 else 0).
Proof.
  revert cur. induction s as [|c s IH]; intro cur; simpl.
  - destruct cur; reflexivity.
  - destruct (is_space c).
    + destruct cur; simpl; rewrite IH; simpl; lia.
    + rewrite IH. simpl. destruct cur; simpl; lia.
Qed.

Lemma split_ws_length (s : pystr) :
  List.length (split_ws s) = Spec.count_tokens false s.
Proof. unfold split_ws. rewrite split_ws_aux_length. simpl. lia. Qed.

End PyStrFacts.

(** ** Rounding and Python arithmetic *)

Module PyNumFacts.
Import PyNum Analyzer.
Open Scope Q_scope.

Lemma round_half_even_bounds (q : Q) :
  (Qfloor q <= round_half_even q <= Qfloor q + 1)%Z.
Proof.
  unfold round_half_even.
  destruct (Qcompare (q - inject_Z (Qfloor q)) (1 # 2)); try lia.
  destruct (Z.even (Qfloor q)); lia.
Qed.

Lemma round_half_even_Z (z : Z) : round_half_even (inject_Z z) = z.
Proof.
  unfold round_half_even. rewrite Qfloor_Z.
  destruct (Qcompare_spec (inject_Z z - inject_Z z) (1 # 2)) as [H|H|H].
  - exfalso. lra.
  - reflexivity.
  - exfalso. lra.
Qed.

Lemma round_half_even_mono (x y : Q) :
  x <= y -> (round_half_even x <= round_half_even y)%Z.
Proof.
  intro Hxy.
  pose proof (Qfloor_resp_le _ _ Hxy) as Hf.
  pose proof (round_half_even_bounds x) as Bx.
  pose proof (round_half_even_bounds y) as By.
  destruct (Z.eq_dec (Qfloor x) (Qfloor y)) as [E|NE]; [|lia].
  unfold round_half_even in *. rewrite <- E in *.
  destruct (Qcompare_spec (x - inject_Z (Qfloor x)) (1 # 2)) as [Hx|Hx|Hx];
    destruct (Qcompare_spec (y - inject_Z (Qfloor x)) (1 # 2)) as [Hy|Hy|Hy];
    try lia; try (exfalso; lra);
    destruct (Z.even (Qfloor x)); lia.
Qed.

Lemma pow2_pos (e : Z) : 0 < 2 ^ e.
Proof. apply Qpower_0_lt. reflexivity. Qed.

Lemma pow2_add (a b : Z) : 2 ^ (a + b) == 2 ^ a * 2 ^ b.
Proof. apply Qpower_plus. discriminate. Qed.

Lemma pow2_succ (e : Z) : 2 ^ (e + 1) == 2 * 2 ^ e.
Proof. rewrite pow2_add. change (2 ^ 1) with 2. ring. Qed.

Lemma Zlog2_Q (n : Z) :
  (0 < n)%Z -> 2 ^ Z.log2 n <= inject_Z n /\ inject_Z n < 2 ^ (Z.log2 n + 1).
Proof.
  intro Hn. destruct (Z.log2_spec n Hn) as [Hlo Hhi].
  pose proof (Z.log2_nonneg n) as Hl.
  split.
  - change 2 with (inject_Z 2). rewrite <- Zpower_Qpower by assumption.
    rewrite <- Zle_Qle. exact Hlo.
  - change 2 with (inject_Z 2). rewrite <- Zpower_Qpower by lia.
    rewrite <- Zlt_Qlt. exact Hhi.
Qed.

Lemma Qlog2_spec (q : Q) :
  0 < q -> 2 ^ Qlog2 q <= q /\ q < 2 ^ (Qlog2 q + 1).
Proof.
  intro Hq. destruct q as [n d].
  assert (Hn : (0 < n)%Z).
  { unfold Qlt in Hq. simpl in Hq. lia. }
  unfold Qlog2. cbn [Qnum Qden].
  destruct (Zlog2_Q n Hn) as [An Bn].
  destruct (Zlog2_Q (Zpos d) eq_refl) as [Ad Bd].
  set (ln := Z.log2 n) in *. set (ld := Z.log2 (Zpos d)) in *.
  pose proof (pow2_add (ln - ld) ld) as E0.
  replace (ln - ld + ld)%Z with ln in E0 by lia.
  rewrite (pow2_succ ln) in Bn. rewrite (pow2_succ ld) in Bd.
  pose proof (pow2_succ (ln - ld - 1)) as E4.
  replace (ln - ld - 1 + 1)%Z with (ln - ld)%Z in E4 by lia.
  pose proof (pow2_pos ld) as PB.
  pose proof (pow2_pos (ln - ld - 1)) as P4.
  assert (Eq : (n # d) * inject_Z (Zpos d) == inject_Z n).
  { rewrite (Qmake_Qdiv n d). field. discriminate. }
  destruct (Qle_bool (2 ^ (ln - ld)) (n # d)) eqn:Hb.
  - apply Qle_bool_iff in Hb. split; [exact Hb|].
    rewrite pow2_succ.
    revert E0 Bn An Ad Bd PB Eq Hb Hq.
    generalize (2 ^ ln) (2 ^ ld) (2 ^ (ln - ld)) (inject_Z n) (inject_Z (Zpos d)) (n # d).
    intros A B P qn qd q E0 Bn An Ad Bd PB Eq Hb Hq.
    assert (H : q * qd * B < 2 * P * B * qd) by (rewrite Eq; nra).
    nra.
  - assert (Hlt : n # d < 2 ^ (ln - ld)).
    { apply Qnot_le_lt. intro H. apply Qle_bool_iff in H. congruence. }
    replace (ln - ld - 1 + 1)%Z with (ln - ld)%Z by lia.
    split; [|exact Hlt].
    revert E0 E4 Bn An Ad Bd PB P4 Eq Hlt Hq.
    generalize (2 ^ ln) (2 ^ ld) (2 ^ (ln - ld)) (2 ^ (ln - ld - 1))
               (inject_Z n) (inject_Z (Zpos d)) (n # d).
    intros A B P P' qn qd q E0 E4 Bn An Ad Bd PB P4 Eq Hlt Hq.
    assert (H : P * B * qd <= 2 * (q * qd) * B) by (rewrite Eq; nra).
    nra.
Qed.

Lemma fl_pos_bounds (q : Q) :
  0 < q -> 2 ^ Qlog2 q <= fl_pos q /\ fl_pos q <= 2 ^ (Qlog2 q + 1).
Proof.
  intro Hq. destruct (Qlog2_spec q Hq) as [Hlo Hhi].
  unfold fl_pos. set (e := Qlog2 q) in *.
  pose proof (pow2_pos (e - 52)) as Hu.
  pose proof (pow2_add 52 (e - 52)) as E1.
  replace (52 + (e - 52))%Z with e in E1 by lia.
  pose proof (pow2_add 53 (e - 52)) as E2.
  replace (53 + (e - 52))%Z with (e + 1)%Z in E2 by lia.
  set (u := 2 ^ (e - 52)) in *.
  assert (L : inject_Z (2 ^ 52) <= q / u).
  { apply Qle_shift_div_l; [exact Hu|]. rewrite E1 in Hlo. exact Hlo. }
  assert (U : q / u <= inject_Z (2 ^ 53)).
  { apply Qle_shift_div_r; [exact Hu|]. rewrite E2 in Hhi.
    apply Qlt_le_weak. exact Hhi. }
  apply round_half_even_mono in L. apply round_half_even_mono in U.
  rewrite round_half_even_Z in L, U.
  rewrite Zle_Qle in L, U.
  rewrite E1, E2. split.
  - apply Qmult_le_compat_r; [exact L | apply Qlt_le_weak; exact Hu].
  - apply Qmult_le_compat_r; [exact U | apply Qlt_le_weak; exact Hu].
Qed.

Lemma fl_pos_pos (q : Q) : 0 < q -> 0 < fl_pos q.
Proof.
  intro Hq. destruct (fl_pos_bounds q Hq) as [H _].
  eapply Qlt_le_trans; [apply pow2_pos | exact H].
Qed.

Lemma fl_pos_mono (x y : Q) : 0 < x -> x <= y -> fl_pos x <= fl_pos y.
Proof.
  intros Hx Hxy.
  assert (Hy : 0 < y) by (eapply Qlt_le_trans; eassumption).
  destruct (Qlog2_spec x Hx) as [Lx Ux]. destruct (Qlog2_spec y Hy) as [Ly Uy].
  assert (Hlt : (Qlog2 x < Qlog2 y + 1)%Z).
  { apply (Qpower_lt_compat_l_inv 2); [|reflexivity].
    eapply Qle_lt_trans; [exact Lx|]. eapply Qle_lt_trans; eassumption. }
  destruct (Z.eq_dec (Qlog2 x) (Qlog2 y)) as [E|NE].
  - unfold fl_pos. rewrite E.
    pose proof (pow2_pos (Qlog2 y - 52)) as Hu.
    apply Qmult_le_compat_r; [|apply Qlt_le_weak; exact Hu].
    rewrite <- Zle_Qle. apply round_half_even_mono.
    apply Qmult_le_compat_r; [exact Hxy|].
    apply Qlt_le_weak, Qinv_lt_0_compat, Hu.
  - destruct (fl_pos_bounds x Hx) as [_ Bx]. destruct (fl_pos_bounds y Hy) as [By _].
    eapply Qle_trans; [exact Bx|]. eapply Qle_trans; [|exact By].
    apply Qpower_le_compat_l; [lia | discriminate].
Qed.

Lemma fl_mono (x y : Q) : x <= y -> fl x <= fl y.
Proof.
  intro Hxy. unfold fl.
  destruct (Qcompare_spec x 0) as [Hx|Hx|Hx];
    destruct (Qcompare_spec y 0) as [Hy|Hy|Hy];
    rewrite ?Qred_correct; try (exfalso; lra).
  - apply Qle_refl.
  - apply Qlt_le_weak, fl_pos_pos, Hy.
  - assert (H : 0 < fl_pos (- x)) by (apply fl_pos_pos; lra). lra.
  - assert (H : fl_pos (- y) <= fl_pos (- x)) by (apply fl_pos_mono; lra). lra.
  - assert (H1 : 0 < fl_pos (- x)) by (apply fl_pos_pos; lra).
    assert (H2 : 0 < fl_pos y) by (apply fl_pos_pos; lra). lra.
  - apply fl_pos_mono; assumption.
Qed.

Lemma fl_ge (k x : Q) : fl k == k -> k <= x -> k <= fl x.
Proof. intros E H. rewrite <- E. apply fl_mono, H. Qed.

Lemma fl_le (k x : Q) : fl k == k -> x <= k -> fl x <= k.
Proof. intros E H. rewrite <- E. apply fl_mono, H. Qed.

Lemma py_lt_iff (x y : pynum) : py_lt x y = true <-> value x < value y.
Proof.
  unfold py_lt. rewrite Qlt_alt.
  destruct (Qcompare (value x) (value y)); split; intro H; congruence.
Qed.

Lemma py_le_iff (x y : pynum) : py_le x y = true <-> value x <= value y.
Proof.
  unfold py_le. rewrite Qle_alt.
  destruct (Qcompare (value x) (value y)); split; intro H; congruence.
Qed.

Lemma clamp_cases (x : pynum) :
  (clamp x = PInt 0 /\ value x <= 0)
  \/ (clamp x = PInt 10 /\ 10 <= value x)
  \/ (clamp x = x /\ 0 < value x /\ value x < 10).
Proof.
  unfold clamp, py_max, py_min, py_gt.
  destruct (py_lt x (PInt 10)) eqn:H10.
  - destruct (py_lt (PInt 0) x) eqn:H0.
    + right; right. apply py_lt_iff in H10, H0. simpl in *. auto.
    + left. split; [reflexivity|].
      apply Qnot_lt_le. intro H. apply (py_lt_iff (PInt 0) x) in H. congruence.
  - replace (py_lt (PInt 0) (PInt 10)) with true by reflexivity.
    right; left. split; [reflexivity|].
    apply Qnot_lt_le. intro H. apply (py_lt_iff x (PInt 10)) in H. congruence.
Qed.

Lemma clamp_range (x : pynum) :
  py_le (PInt 0) (clamp x) = true /\ py_le (clamp x) (PInt 10) = true.
Proof.
  rewrite !py_le_iff.
  destruct (clamp_cases x) as [[-> _]|[[-> _]|[-> [H0 H10]]]];
    cbv [value inject_Z] in *; lra.
Qed.

Lemma clamp_nonpos (x : pynum) : value x <= 0 -> clamp x = PInt 0.
Proof.
  intro H. destruct (clamp_cases x) as [[E _]|[[_ H10]|[_ [H0 _]]]];
    [exact E | exfalso; lra | exfalso; lra].
Qed.

Lemma clamp_ge (k : Q) (x : pynum) :
  0 <= k -> k <= 10 -> k <= value x -> k <= value (clamp x).
Proof.
  intros K0 K10 H.
  destruct (clamp_cases x) as [[-> H0]|[[-> _]|[-> _]]];
    cbv [value inject_Z] in *; lra.
Qed.

Lemma fl_0 : fl 0 == 0.
Proof. reflexivity. Qed.

Lemma to_float_ge (k : Q) (x : pynum) : fl k == k -> k <= value x -> k <= to_float x.
Proof.
  intros E H. destruct x as [z|q]; simpl in *; [apply fl_ge; assumption | exact H].
Qed.

Lemma to_float_le (k : Q) (x : pynum) : fl k == k -> value x <= k -> to_float x <= k.
Proof.
  intros E H. destruct x as [z|q]; simpl in *; [apply fl_le; assumption | exact H].
Qed.

Lemma py_add_ge (k : Q) (x y : pynum) :
  fl k == k -> k <= value x -> 0 <= value y -> k <= value (py_add x y).
Proof.
  intros E Hx Hy.
  assert (Fx := to_float_ge k x E Hx). assert (Fy := to_float_ge 0 y fl_0 Hy).
  destruct x as [a|p], y as [b|q]; simpl in *;
    try (apply fl_ge; [exact E | lra]).
  rewrite inject_Z_plus. lra.
Qed.

Lemma py_mul_nonneg (x y : pynum) :
  0 <= value x -> 0 <= value y -> 0 <= value (py_mul x y).
Proof.
  intros Hx Hy.
  assert (Fx := to_float_ge 0 x fl_0 Hx). assert (Fy := to_float_ge 0 y fl_0 Hy).
  destruct x as [a|p], y as [b|q]; simpl in *;
    try (apply fl_ge; [exact fl_0 | nra]).
  rewrite inject_Z_mult. nra.
Qed.

Lemma py_min_nonneg (x y : pynum) :
  0 <= value x -> 0 <= value y -> 0 <= value (py_min x y).
Proof. intros Hx Hy. unfold py_min. destruct (py_lt y x); assumption. Qed.

Lemma of_nat_nonneg (n : nat) : 0 <= value (of_nat n).
Proof. simpl. change 0 with (inject_Z 0). rewrite <- Zle_Qle. lia. Qed.

(** The bonus terms of the voice score are never negative. *)
Lemma bonus_nonneg (n : nat) (rate cap : pynum) :
  0 <= value rate -> 0 <= value cap ->
  0 <= value (py_min (py_mul (of_nat n) rate) cap).
Proof.
  intros Hr Hc. apply py_min_nonneg; [|exact Hc].
  apply py_mul_nonneg; [apply of_nat_nonneg | exact Hr].
Qed.

Lemma voice_tone_score_ge_8 (vi c y : nat) :
  (vi <= 1)%nat -> 8 <= value (Spec.voice_tone_score vi c y).
Proof.
  intro Hvi. unfold Spec.voice_tone_score.
  assert (E8 : fl 8 == 8) by reflexivity.
  apply clamp_ge; [lra | lra |].
  apply py_add_ge; [exact E8 | | apply bonus_nonneg; vm_compute; discriminate].
  apply py_add_ge; [exact E8 | | apply bonus_nonneg; vm_compute; discriminate].
  destruct vi as [|[|vi]]; [vm_compute; discriminate | vm_compute; discriminate | lia].
Qed.

Lemma accessibility_score_zero (n : nat) :
  (4 <= n)%nat -> Spec.accessibility_score n = PInt 0.
Proof.
  intro Hn. unfold Spec.accessibility_score. apply clamp_nonpos.
  simpl.
  assert (H4 : 4 <= fl (inject_Z (Z.of_nat n))).
  { apply fl_ge; [reflexivity|]. change 4 with (inject_Z 4).
    rewrite <- Zle_Qle. lia. }
  assert (H12 : 12 <= fl (fl (inject_Z (Z.of_nat n)) * fl 3)).
  { apply fl_ge; [reflexivity|]. change (fl 3) with 3. lra. }
  assert (H : fl (fl 10 - fl (fl (inject_Z (Z.of_nat n)) * fl 3)) <= -2).
  { apply fl_le; [reflexivity|]. change (fl 10) with 10. lra. }
  lra.
Qed.

(** *** Agreement with binary64

    The model against the primitive binary64 numbers of Rocq, on
    computations of the kind the scores make. *)

Example binary64_one_tenth :
  binary64_value (PrimFloat.div (b64 1) (b64 10)) = Some (value f_0_1).
Proof. vm_compute. reflexivity. Qed.

Example binary64_three_fifths :
  binary64_value (PrimFloat.mul (b64 3) (PrimFloat.div (b64 1) (b64 5)))
  = Some (value (py_mul (PInt 3) f_0_2)).
Proof. vm_compute. reflexivity. Qed.

Example binary64_seven_twentieths :
  binary64_value (PrimFloat.div (b64 7) (b64 20))
  = Some (value (int_truediv 7 20)).
Proof. vm_compute. reflexivity. Qed.

Example binary64_voice_score :
  binary64_value
    (PrimFloat.add
       (PrimFloat.add (PrimFloat.sub (b64 10) (PrimFloat.mul (b64 1) (b64 2)))
                      (PrimFloat.mul (b64 1) (PrimFloat.div (b64 1) (b64 2))))
       (PrimFloat.mul (b64 3) (PrimFloat.div (b64 1) (b64 5))))
  = Some (value (py_add (py_add (py_sub f_10_0 (py_mul (PInt 1) f_2_0))
                                (py_mul (PInt 1) f_0_5))
                        (py_mul (PInt 3) f_0_2))).
Proof. vm_compute. reflexivity. Qed.

Example binary64_long_sentence_penalty :
  binary64_value
    (PrimFloat.mul (PrimFloat.sub (PrimFloat.div (b64 317) (b64 10)) (b64 25))
                   (PrimFloat.div (b64 1) (b64 10)))
  = Some (value (py_mul (py_sub (int_truediv 317 10) (PInt 25)) f_0_1)).
Proof. vm_compute. reflexivity. Qed.

(** [round(x, 1)]: 7/20 is below 0.35 as a binary64 number and rounds to
    0.3; 1/4 is a tie and rounds to the even digit, 0.2; 9/20 is above
    0.45 and rounds to 0.5. *)
Example round1_samples :
  round1 (int_truediv 7 20) = PFloat (fl (3 # 10))
  /\ round1 (int_truediv 1 4) = PFloat (fl (2 # 10))
  /\ round1 (int_truediv 9 20) = PFloat (fl (5 # 10))
  /\ round1 (int_truediv 3 4) = PFloat (fl (8 # 10))
  /\ round1 (int_truediv 16 3) = PFloat (fl (53 # 10)).
Proof. vm_compute. repeat split. Qed.

Close Scope Q_scope.
End PyNumFacts.

(** ** The matcher *)

Module PyReFacts.
Import PyStr PyRe Analyzer PyStrFacts.
Local Open Scope nat_scope.

(** When the continuation accepts every later position, the repetition
    takes the whole run. *)
Lemma mstar_greedy (A : Type) (p : pychar -> bool) (k : mstate -> option A)
      (s : pystr) (pw : bool) (i : nat) (cs : list (nat * (nat * nat))) :
  (forall st, i <= pos st -> k st <> None) ->
  mstar p k pw s i cs
  = k (MState (last_word p pw s) (skipn (run p s) s) (i + run p s) cs).
Proof.
  revert pw i. induction s as [|c s IH]; intros pw i Hk; simpl.
  - rewrite Nat.add_0_r. reflexivity.
  - destruct (p c) eqn:E.
    + rewrite IH by (intros st Hst; apply Hk; lia).
      simpl. rewrite <- plus_n_Sm. simpl.
      destruct (k _) eqn:K; [reflexivity|].
      exfalso. eapply Hk; [|exact K]. simpl. lia.
    + simpl. rewrite Nat.add_0_r. reflexivity.
Qed.

Lemma match_here_sentence_break (pw : bool) (s : pystr) (i : nat) :
  match_here false Patterns.sentence_break pw s i
  = match s with
    | c :: s' =>
        if Patterns.is_terminator c
        then Some (RMatch i (S i + run Patterns.is_terminator s') [])
        else None
    | [] => None
    end.
Proof.
  unfold match_here, Patterns.sentence_break, plus. simpl.
  destruct s as [|c s']; [reflexivity|].
  destruct (Patterns.is_terminator c); [|reflexivity].
  unfold advance. simpl.
  rewrite mstar_greedy.
  - simpl. replace (i <? S (i + run Patterns.is_terminator s')) with true; [reflexivity|].
    symmetry. apply Nat.ltb_lt. lia.
  - intros st Hst. simpl in Hst.
    replace (i <? pos st) with true; [discriminate|].
    symmetry. apply Nat.ltb_lt. lia.
Qed.

Lemma split_fragments_aux (s : pystr) :
  (forall cur pw i,
     split_scan false Patterns.sentence_break cur pw s i 0
     = Spec.fragments_aux false cur s)
  /\ (forall pw i,
        split_scan false Patterns.sentence_break [] pw s i
                   (run Patterns.is_terminator s)
        = Spec.fragments_aux true [] s).
Proof.
  induction s as [|c s [IHa IHb]].
  - split; intros; reflexivity.
  - assert (A : forall cur pw i,
               split_scan false Patterns.sentence_break cur pw (c :: s) i 0
               = Spec.fragments_aux false cur (c :: s)).
    { intros cur pw i. cbn [split_scan].
      rewrite match_here_sentence_break. cbn [Spec.fragments_aux].
      destruct (Patterns.is_terminator c).
      - cbn [m_end]. replace (S i + run Patterns.is_terminator s - i - 1)
          with (run Patterns.is_terminator s) by lia.
        rewrite IHb. reflexivity.
      - apply IHa. }
    split; [exact A|].
    intros pw i. cbn [run Spec.fragments_aux].
    destruct (Patterns.is_terminator c) eqn:E.
    + cbn [split_scan]. apply IHb.
    + rewrite A. cbn [Spec.fragments_aux]. rewrite E. reflexivity.
Qed.

Lemma split_fragments (s : pystr) :
  PyRe.split false Patterns.sentence_break s = Spec.fragments s.
Proof. apply (proj1 (split_fragments_aux s)). Qed.

Lemma nonempty_strip (f : pystr) : nonempty (strip f) = negb (Spec.blank f).
Proof.
  unfold Spec.blank.
  destruct (forallb is_space f) eqn:E.
  - apply strip_nil_iff in E. rewrite E. reflexivity.
  - destruct (strip f) eqn:S; [|reflexivity].
    apply strip_nil_iff in S. congruence.
Qed.

(** search and finditer *)
Lemma scan_nil_iff (ic : bool) (r : regex) (s : pystr) (pw : bool) (i : nat) :
  scan ic r pw s i 0 = [] <-> search_from ic r pw s i = None.
Proof.
  revert pw i. induction s as [|c s IH]; intros pw i; simpl; [tauto|].
  destruct (match_here ic r pw (c :: s) i) as [m|].
  - split; intro H; discriminate H.
  - apply IH.
Qed.

Lemma search_none_iff (ic : bool) (r : regex) (text : pystr) :
  search ic r text = None <-> count ic r text = 0.
Proof.
  unfold search, count, finditer. rewrite <- scan_nil_iff.
  destruct (scan ic r false text 0 0); simpl; split; intro H;
    try reflexivity; discriminate H.
Qed.

(** *** Empty matches

    The result of a pattern depends on its continuation only at the
    positions that the pattern can reach; a pattern that consumes reaches
    later positions only, so asking for a match that is not empty changes
    nothing. *)

Lemma moved_weaken (b : bool) (st st' : mstate) :
  moved b st st' -> pos st <= pos st'.
Proof. unfold moved. destruct b; lia. Qed.

Lemma mstar_ext {A : Type} (p : pychar -> bool) (k1 k2 : mstate -> option A)
      (s : pystr) (pw : bool) (i : nat) (cs : list (nat * (nat * nat))) :
  (forall st', i <= pos st' -> k1 st' = k2 st') ->
  mstar p k1 pw s i cs = mstar p k2 pw s i cs.
Proof.
  revert pw i. induction s as [|x s IH]; intros pw i H; cbn [mstar].
  - apply H. cbn. lia.
  - destruct (p x).
    + rewrite (IH (is_word x) (S i)) by (intros st' Hst; apply H; lia).
      destruct (mstar p k2 (is_word x) s (S i) cs); [reflexivity|].
      apply H. cbn. lia.
    + apply H. cbn. lia.
Qed.

Lemma mt_ext {A : Type} (ic : bool) (r : regex) :
  forall (st : mstate) (k1 k2 : mstate -> option A),
    (forall st', moved (consumes r) st st' -> k1 st' = k2 st') ->
    mt ic r st k1 = mt ic r st k2.
Proof.
  induction r as [c|p|p| | |r1 IH1 r2 IH2|r1 IH1 r2 IH2|n r1 IH1];
    intros st k1 k2 H; cbn [mt consumes] in *.
  - destruct (rest st) as [|x s']; [reflexivity|].
    destruct (chr_matches ic c x); [|reflexivity].
    apply H. unfold moved, advance. cbn. lia.
  - destruct (rest st) as [|x s']; [reflexivity|].
    destruct (p x); [|reflexivity].
    apply H. unfold moved, advance. cbn. lia.
  - apply mstar_ext. intros st' Hst. apply H. exact Hst.
  - destruct (xorb (prev_word st) (next_word (rest st))); [|reflexivity].
    apply H. unfold moved. lia.
  - apply H. unfold moved. lia.
  - apply IH1. intros st' H1. apply IH2. intros st'' H2. apply H.
    unfold moved in *.
    destruct (consumes r1), (consumes r2); cbn [orb]; lia.
  - rewrite (IH1 st k1 k2).
    + destruct (mt ic r1 st k2); [reflexivity|].
      apply IH2. intros st' H2. apply H.
      unfold moved in *. destruct (consumes r1), (consumes r2); cbn [andb]; lia.
    + intros st' H1. apply H.
      unfold moved in *. destruct (consumes r1), (consumes r2); cbn [andb]; lia.
  - apply IH1. intros st' H1. apply H.
    unfold moved in *. cbn [pos]. exact H1.
Qed.

(** For a pattern that consumes, [match_here] is the plain match. *)
Lemma match_here_permissive (ic : bool) (r : regex) (pw : bool) (s : pystr)
      (i : nat) :
  consumes r = true ->
  match_here ic r pw s i
  = mt ic r (MState pw s i [])
       (fun st' => Some (RMatch i (pos st') (caps st'))).
Proof.
  intro Hr. unfold match_here. apply mt_ext.
  rewrite Hr. unfold moved. cbn [pos]. intros st' Hst.
  replace (i <? pos st') with true; [reflexivity|].
  symmetry. apply Nat.ltb_lt. exact Hst.
Qed.

(** Every pattern of the program consumes. *)
Lemma patterns_consume :
  Forall (fun r => consumes r = true)
    [Patterns.contractions; Patterns.passive_voice; Patterns.long_sentences;
     Patterns.gendered_pronouns; Patterns.non_inclusive_terms;
     Patterns.you_addressing; Patterns.second_person_avoid;
     Patterns.sentence_break; Patterns.contractions_short;
     Patterns.passive_rewrite].
Proof. repeat constructor. Qed.

(** *** The matcher on sample texts

    The spans below are those of [re.finditer] with the same patterns. *)

Example contractions_spans :
  spans true Patterns.contractions
        "it's easy and you'll love it. you can do it. IT'S DON'T dont can'ta xwe'll"
  = [(0, 4); (14, 20); (45, 49); (50, 55)].
Proof. vm_compute. reflexivity. Qed.

Example passive_voice_spans :
  spans true Patterns.passive_voice
        "The file is used and was  red. been ed Is Edited were ed, bee used be  fed_ed is  needed1"
  = [(9, 16); (21, 29); (31, 38); (39, 48); (49, 56); (67, 77)].
Proof. vm_compute. reflexivity. Qed.

Example you_addressing_spans :
  spans true Patterns.you_addressing "you You your _you you're (you) youyou"
  = [(0, 3); (4, 7); (18, 21); (26, 29)].
Proof. vm_compute. reflexivity. Qed.

Example non_inclusive_terms_spans :
  spans true Patterns.non_inclusive_terms
        "guys mankind blacklist crazy whitelists Master-slave lame.insane"
  = [(0, 4); (5, 12); (13, 22); (23, 28); (40, 46); (47, 52); (53, 57); (58, 64)].
Proof. vm_compute. reflexivity. Qed.

Example gendered_pronouns_spans :
  spans true Patterns.gendered_pronouns "he said hers her him his she the"
  = [(0, 2); (8, 12); (13, 16); (17, 20); (21, 24); (25, 28)].
Proof. vm_compute. reflexivity. Qed.

Example long_sentences_spans :
  spans false Patterns.long_sentences
        "Short one. This is a very long sentence that goes on and on and on without ever stopping for breath because it just has to be long enough to trip the detector. Next."
  = [(9, 159)].
Proof. vm_compute. reflexivity. Qed.

End PyReFacts.

(** ** The analyzer *)

Module AnalyzerFacts.
Import PyStr PyRe PyNum Analyzer PyStrFacts PyNumFacts PyReFacts.
Local Open Scope nat_scope.

(** *** The fields of the analysis *)

Ltac open_analysis :=
  unfold analyze_content;
  match goal with
  | |- context [if ?b then _ else if ?c then _ else _] =>
      destruct b; [|destruct c]; reflexivity
  end.

Lemma issues_analyze (self : analyzer) (text atype : pystr) :
  issues (analyze_content self text atype)
  = fst (voice_tone_block self text atype) ++ grammar_block self text atype
    ++ terminology_block self text atype ++ accessibility_block self text atype.
Proof. open_analysis. Qed.

Lemma suggestions_analyze (self : analyzer) (text atype : pystr) :
  suggestions (analyze_content self text atype)
  = snd (voice_tone_block self text atype).
Proof. open_analysis. Qed.

Lemma total_issues_analyze (self : analyzer) (text atype : pystr) :
  total_issues (analyze_content self text atype)
  = List.length (issues (analyze_content self text atype)).
Proof. open_analysis. Qed.

Lemma stats_analyze (self : analyzer) (text atype : pystr) :
  stats (analyze_content self text atype)
  = let wc := List.length (split_ws text) in
    let sc := List.length
                (filter (fun s => nonempty (strip s))
                        (PyRe.split false Patterns.sentence_break text)) in
    Statistics wc sc
      (round1 (int_truediv (Z.of_nat wc) (Z.of_nat (Nat.max 1 sc)))).
Proof. open_analysis. Qed.

(** *** Counting issues by category *)

Lemma count_type_app (c : category) (l1 l2 : list issue) :
  count_type c (l1 ++ l2) = count_type c l1 + count_type c l2.
Proof. unfold count_type. rewrite filter_app, length_app. reflexivity. Qed.

Lemma count_type_map {A : Type} (c c' : category) (f : A -> issue) (l : list A) :
  (forall x, i_type (f x) = c') ->
  count_type c (map f l) = if category_eqb c' c then List.length l else 0.
Proof.
  intro H. unfold count_type.
  induction l as [|x l IH]; simpl.
  - destruct (category_eqb c' c); reflexivity.
  - rewrite H. destruct (category_eqb c' c); simpl; rewrite IH; reflexivity.
Qed.

Lemma count_type_all (c : category) (l : list issue) :
  Forall (fun i => i_type i = c) l -> count_type c l = List.length l.
Proof.
  unfold count_type. induction 1 as [|i l Hi _ IH]; simpl; [reflexivity|].
  rewrite Hi. destruct c; simpl; rewrite IH; reflexivity.
Qed.

Lemma count_type_none (c c' : category) (l : list issue) :
  category_eqb c' c = false ->
  Forall (fun i => i_type i = c') l -> count_type c l = 0.
Proof.
  intro Hc. unfold count_type. induction 1 as [|i l Hi _ IH]; simpl; [reflexivity|].
  rewrite Hi, Hc. exact IH.
Qed.

(** *** The category of the issues of each block *)

Lemma voice_tone_block_cases (self : analyzer) (text atype : pystr) :
  let c := count true (p_contractions (patterns self)) text in
  if mem_str atype [lat "comprehensive"; lat "voice_tone"]
  then fst (voice_tone_block self text atype)
       = (if 0 <? c then []
          else [Issue voice_tone info None None
                  (lat "Consider using contractions (it's, you're, we'll) for a more natural tone")
                  (Some (lat "warm_and_relaxed")) None])
  else voice_tone_block self text atype = ([], []).
Proof.
  unfold voice_tone_block.
  destruct (mem_str atype [lat "comprehensive"; lat "voice_tone"]); [|reflexivity].
  cbv zeta.
  destruct (0 <? count true (p_contractions (patterns self)) text);
    destruct (0 <? count true (p_you_addressing (patterns self)) text); reflexivity.
Qed.

Lemma voice_tone_block_type (self : analyzer) (text atype : pystr) :
  Forall (fun i => i_type i = voice_tone) (fst (voice_tone_block self text atype)).
Proof.
  pose proof (voice_tone_block_cases self text atype) as H. cbv zeta in H.
  destruct (mem_str atype [lat "comprehensive"; lat "voice_tone"]).
  - rewrite H.
    destruct (0 <? count true (p_contractions (patterns self)) text);
      repeat constructor.
  - rewrite H. constructor.
Qed.

Lemma voice_tone_block_length (self : analyzer) (text atype : pystr) :
  List.length (fst (voice_tone_block self text atype)) <= 1.
Proof.
  pose proof (voice_tone_block_cases self text atype) as H. cbv zeta in H.
  destruct (mem_str atype [lat "comprehensive"; lat "voice_tone"]).
  - rewrite H.
    destruct (0 <? count true (p_contractions (patterns self)) text); simpl; lia.
  - rewrite H. simpl. lia.
Qed.

Lemma grammar_block_type (self : analyzer) (text atype : pystr) :
  Forall (fun i => i_type i = grammar) (grammar_block self text atype).
Proof.
  unfold grammar_block.
  destruct (mem_str atype [lat "comprehensive"; lat "grammar"]); [|constructor].
  apply Forall_app. split; apply Forall_map, Forall_forall; intros; reflexivity.
Qed.

Lemma terminology_block_type (self : analyzer) (text atype : pystr) :
  Forall (fun i => i_type i = terminology) (terminology_block self text atype).
Proof.
  unfold terminology_block.
  destruct (mem_str atype [lat "comprehensive"; lat "terminology"]); [|constructor].
  apply Forall_flat_map, Forall_forall. intros entry _.
  apply Forall_flat_map, Forall_forall. intros avoid_term _.
  destruct (contains (lower avoid_term) (lower text)); repeat constructor.
Qed.

Lemma accessibility_block_type (self : analyzer) (text atype : pystr) :
  Forall (fun i => i_type i = accessibility) (accessibility_block self text atype).
Proof.
  unfold accessibility_block.
  destruct (mem_str atype [lat "comprehensive"; lat "accessibility"]); [|constructor].
  apply Forall_app. split; apply Forall_map, Forall_forall; intros; reflexivity.
Qed.

(** The number of issues of each category in an analysis. *)
Lemma count_voice_tone (self : analyzer) (text atype : pystr) :
  count_type voice_tone (issues (analyze_content self text atype))
  = List.length (fst (voice_tone_block self text atype)).
Proof.
  rewrite issues_analyze, !count_type_app.
  rewrite (count_type_all _ _ (voice_tone_block_type self text atype)).
  rewrite (count_type_none voice_tone grammar _ eq_refl (grammar_block_type self text atype)).
  rewrite (count_type_none voice_tone terminology _ eq_refl (terminology_block_type self text atype)).
  rewrite (count_type_none voice_tone accessibility _ eq_refl (accessibility_block_type self text atype)).
  lia.
Qed.

Lemma count_grammar (self : analyzer) (text atype : pystr) :
  count_type grammar (issues (analyze_content self text atype))
  = List.length (grammar_block self text atype).
Proof.
  rewrite issues_analyze, !count_type_app.
  rewrite (count_type_none grammar voice_tone _ eq_refl (voice_tone_block_type self text atype)).
  rewrite (count_type_all _ _ (grammar_block_type self text atype)).
  rewrite (count_type_none grammar terminology _ eq_refl (terminology_block_type self text atype)).
  rewrite (count_type_none grammar accessibility _ eq_refl (accessibility_block_type self text atype)).
  lia.
Qed.

Lemma count_terminology (self : analyzer) (text atype : pystr) :
  count_type terminology (issues (analyze_content self text atype))
  = List.length (terminology_block self text atype).
Proof.
  rewrite issues_analyze, !count_type_app.
  rewrite (count_type_none terminology voice_tone _ eq_refl (voice_tone_block_type self text atype)).
  rewrite (count_type_none terminology grammar _ eq_refl (grammar_block_type self text atype)).
  rewrite (count_type_all _ _ (terminology_block_type self text atype)).
  rewrite (count_type_none terminology accessibility _ eq_refl (accessibility_block_type self text atype)).
  lia.
Qed.

Lemma count_accessibility (self : analyzer) (text atype : pystr) :
  count_type accessibility (issues (analyze_content self text atype))
  = List.length (accessibility_block self text atype).
Proof.
  rewrite issues_analyze, !count_type_app.
  rewrite (count_type_none accessibility voice_tone _ eq_refl (voice_tone_block_type self text atype)).
  rewrite (count_type_none accessibility grammar _ eq_refl (grammar_block_type self text atype)).
  rewrite (count_type_none accessibility terminology _ eq_refl (terminology_block_type self text atype)).
  rewrite (count_type_all _ _ (accessibility_block_type self text atype)).
  lia.
Qed.

Lemma accessibility_block_comprehensive (self : analyzer) (text : pystr) :
  List.length (accessibility_block self text (lat "comprehensive"))
  = count true (p_non_inclusive_terms (patterns self)) text
    + count true (p_gendered_pronouns (patterns self)) text.
Proof.
  unfold accessibility_block.
  replace (mem_str (lat "comprehensive") [lat "comprehensive"; lat "accessibility"])
    with true by reflexivity.
  rewrite length_app, !length_map. reflexivity.
Qed.

(** *** The scores follow the formulas *)

Lemma calculate_quality_scores_spec (self : analyzer) (a : analysis) (text : pystr) :
  calculate_quality_scores self a text
  = {| q_voice_tone :=
         Spec.voice_tone_score (count_type voice_tone (issues a))
           (count true (p_contractions (patterns self)) text)
           (count true (p_you_addressing (patterns self)) text);
       q_clarity :=
         Spec.clarity_score (count_type grammar (issues a))
                            (avg_words_per_sentence (stats a));
       q_accessibility := Spec.accessibility_score (count_type accessibility (issues a));
       q_compliance := Spec.compliance_score (count_type terminology (issues a)) |}.
Proof.
  unfold calculate_quality_scores, Spec.voice_tone_score, Spec.clarity_score,
    Spec.accessibility_score, Spec.compliance_score.
  cbv zeta.
  destruct (py_gt (avg_words_per_sentence (stats a)) (PInt 25)); reflexivity.
Qed.

(** An issue of an analysis belongs to the block of its category. *)
Lemma terminology_issue_in_block (self : analyzer) (text atype : pystr) (i : issue) :
  In i (issues (analyze_content self text atype)) ->
  i_type i = terminology ->
  In i (terminology_block self text atype).
Proof.
  intros Hin Ht. rewrite issues_analyze in Hin.
  pose proof (voice_tone_block_type self text atype) as Hv.
  pose proof (grammar_block_type self text atype) as Hg.
  pose proof (accessibility_block_type self text atype) as Ha.
  rewrite Forall_forall in Hv, Hg, Ha.
  repeat (apply in_app_or in Hin; destruct Hin as [Hin|Hin]);
    [apply Hv in Hin | apply Hg in Hin | exact Hin | apply Ha in Hin];
    congruence.
Qed.

(** The issues of the terminology block come from the table. *)
Lemma terminology_block_in (self : analyzer) (text atype : pystr) (i : issue) :
  In i (terminology_block self text atype) ->
  exists entry t,
    In entry (terminology_standards self) /\ In t (avoid (snd entry))
    /\ contains (lower t) (lower text) = true
    /\ i = Issue terminology warning None (Some t)
                 (lat "Use '" ++ correct (snd entry) ++ lat "' instead of '"
                  ++ t ++ lat "'")
                 None (Some (note (snd entry))).
Proof.
  unfold terminology_block.
  destruct (mem_str atype [lat "comprehensive"; lat "terminology"]);
    [|intros []].
  intro H. apply in_flat_map in H. destruct H as [entry [He H]].
  apply in_flat_map in H. destruct H as [t [Ht H]].
  exists entry, t.
  destruct (contains (lower t) (lower text)); [|destruct H].
  destruct H as [H|[]]. subst i. repeat split; assumption.
Qed.

Lemma accessibility_block_non_inclusive (self : analyzer) (text atype : pystr)
      (m : rmatch) :
  mem_str atype [lat "comprehensive"; lat "accessibility"] = true ->
  In m (finditer true (p_non_inclusive_terms (patterns self)) text) ->
  In (Spec.non_inclusive_issue text m)
     (issues (analyze_content self text atype)).
Proof.
  intros Hf Hm. rewrite issues_analyze.
  apply in_or_app; right. apply in_or_app; right. apply in_or_app; right.
  unfold accessibility_block. rewrite Hf.
  apply in_or_app; left.
  apply (in_map (Spec.non_inclusive_issue text)) in Hm. exact Hm.
Qed.

End AnalyzerFacts.

(** ** The tool and the change log *)

Module ServerFacts.
Import PyStr PyRe PyNum Analyzer Server AnalyzerFacts.

Lemma same_engine_refl (s : analyzer) : same_engine s s.
Proof. repeat split. Qed.

Lemma same_engine_trans (s1 s2 s3 : analyzer) :
  same_engine s1 s2 -> same_engine s2 s3 -> same_engine s1 s3.
Proof.
  intros [A [B C]] [A' [B' C']]. repeat split; congruence.
Qed.

(** The analysis reads the analyzer's patterns, terminology table and
    address only. *)
Lemma analyze_content_same_engine (s1 s2 : analyzer) (text atype : pystr) :
  same_engine s1 s2 ->
  analyze_content s1 text atype = analyze_content s2 text atype.
Proof.
  intros [Hu [Hp Ht]].
  unfold analyze_content, voice_tone_block, grammar_block, terminology_block,
    accessibility_block.
  rewrite Hu, Hp, Ht. reflexivity.
Qed.

Lemma track_change_same_engine (now : Z) (f : pystr) (n : Z) (d : pystr)
      (self : analyzer) :
  same_engine self (track_change now f n d self).
Proof. repeat split. Qed.

Lemma track_issues_same_engine (now : nat -> Z) (l : list issue) (k : nat)
      (self : analyzer) :
  same_engine self (track_issues now k l self).
Proof.
  revert k self. induction l as [|i l IH]; intros k self; cbn [track_issues].
  - apply same_engine_refl.
  - eapply same_engine_trans; [|apply IH]. apply track_change_same_engine.
Qed.

Lemma tool_same_engine (now : nat -> Z) (text atype : pystr) (self : analyzer) :
  same_engine self (snd (analyze_content_tool now text atype self)).
Proof.
  unfold analyze_content_tool.
  destruct (negb (nonempty (strip text))); cbn [snd].
  - apply same_engine_refl.
  - apply track_issues_same_engine.
Qed.

Lemma run_calls_same_engine (calls : list tool_call) (self : analyzer) :
  same_engine self (run_calls calls self).
Proof.
  revert self. induction calls as [|c calls IH]; intro self; cbn [run_calls].
  - apply same_engine_refl.
  - eapply same_engine_trans; [|apply IH]. apply tool_same_engine.
Qed.

Lemma with_change_history_same_engine (log : list change_entry) (self : analyzer) :
  same_engine (with_change_history log self) self.
Proof. unfold same_engine, with_change_history. cbn. auto. Qed.

Lemma tool_result (now : nat -> Z) (text atype : pystr) (self : analyzer) :
  fst (analyze_content_tool now text atype self)
  = if negb (nonempty (strip text))
    then ToolError (lat "No text provided for analysis")
    else ToolOk (summary_of (analyze_content self text atype))
                (analyze_content self text atype).
Proof.
  unfold analyze_content_tool.
  destruct (negb (nonempty (strip text))); reflexivity.
Qed.

End ServerFacts.

(** ** The scores against the formulas of the specification *)

Import PyStr PyRe PyNum Analyzer Server.
Import PyStrFacts PyNumFacts PyReFacts AnalyzerFacts ServerFacts.
Local Open Scope nat_scope.

Lemma compliance_score_zero (n : nat) :
  5 <= n -> Spec.compliance_score n = PInt 0.
Proof.
  intro Hn. unfold Spec.compliance_score. apply clamp_nonpos.
  cbn [py_mul py_sub of_nat f_2_0 f_10_0 to_float value].
  assert (H5 : (5 <= fl (inject_Z (Z.of_nat n)))%Q).
  { apply fl_ge; [reflexivity|]. change 5%Q with (inject_Z 5).
    rewrite <- Zle_Qle. lia. }
  assert (H10 : (10 <= fl (fl (inject_Z (Z.of_nat n)) * fl 2))%Q).
  { apply fl_ge; [reflexivity|]. change (fl 2) with 2%Q. lra. }
  apply fl_le; [reflexivity|]. change (fl 10) with 10%Q. lra.
Qed.

Lemma accessibility_score_value (n : nat) :
  Qeq (value (Spec.accessibility_score n))
      (inject_Z (Z.max 0 (10 - 3 * Z.of_nat n))).
Proof.
  destruct (Nat.le_gt_cases 4 n) as [H|H].
  - rewrite (accessibility_score_zero n H).
    replace (Z.max 0 (10 - 3 * Z.of_nat n)) with 0%Z by lia. reflexivity.
  - destruct n as [|[|[|[|n]]]]; [reflexivity..|lia].
Qed.

Lemma compliance_score_value (n : nat) :
  Qeq (value (Spec.compliance_score n))
      (inject_Z (Z.max 0 (10 - 2 * Z.of_nat n))).
Proof.
  destruct (Nat.le_gt_cases 5 n) as [H|H].
  - rewrite (compliance_score_zero n H).
    replace (Z.max 0 (10 - 2 * Z.of_nat n)) with 0%Z by lia. reflexivity.
  - destruct n as [|[|[|[|[|n]]]]]; [reflexivity..|lia].
Qed.

Lemma py_lt_above (k : Q) (x y : pynum) :
  (value y < k)%Q -> (k <= value x)%Q -> py_lt y x = true.
Proof. intros H1 H2. apply py_lt_iff. lra. Qed.

(** Beyond four contractions the bonus stays at 2.0. *)
Lemma contraction_bonus_cap (c : nat) :
  py_min (py_mul (of_nat c) f_0_5) f_2_0
  = py_min (py_mul (of_nat (Nat.min c 4)) f_0_5) f_2_0.
Proof.
  destruct (Nat.le_gt_cases c 4) as [H|H].
  - rewrite Nat.min_l by exact H. reflexivity.
  - rewrite Nat.min_r by lia.
    change (py_min (py_mul (of_nat 4) f_0_5) f_2_0) with f_2_0.
    unfold py_min.
    rewrite (py_lt_above (5 # 2) (py_mul (of_nat c) f_0_5) f_2_0);
      [reflexivity | reflexivity |].
    cbn [py_mul of_nat f_0_5 value to_float].
    apply fl_ge; [reflexivity|].
    assert (H5 : (5 <= fl (inject_Z (Z.of_nat c)))%Q).
    { apply fl_ge; [reflexivity|]. change 5%Q with (inject_Z 5).
      rewrite <- Zle_Qle. lia. }
    change (fl (5 # 10)) with (1 # 2)%Q. lra.
Qed.

(** Beyond five "you" the bonus stays at 1.0. *)
Lemma you_bonus_cap (y : nat) :
  py_min (py_mul (of_nat y) f_0_2) f_1_0
  = py_min (py_mul (of_nat (Nat.min y 5)) f_0_2) f_1_0.
Proof.
  destruct (Nat.le_gt_cases y 5) as [H|H].
  - rewrite Nat.min_l by exact H. reflexivity.
  - rewrite Nat.min_r by lia.
    change (py_min (py_mul (of_nat 5) f_0_2) f_1_0) with f_1_0.
    unfold py_min.
    rewrite (py_lt_above (9 # 8) (py_mul (of_nat y) f_0_2) f_1_0);
      [reflexivity | reflexivity |].
    cbn [py_mul of_nat f_0_2 value to_float].
    apply fl_ge; [reflexivity|].
    assert (H6 : (6 <= fl (inject_Z (Z.of_nat y)))%Q).
    { apply fl_ge; [reflexivity|]. change 6%Q with (inject_Z 6).
      rewrite <- Zle_Qle. lia. }
    assert (H2 : (1 # 5 <= fl (2 # 10))%Q) by (vm_compute; discriminate).
    nra.
Qed.

Lemma of_count_le (m n : nat) : m <= n -> (Spec.of_count m <= Spec.of_count n)%Q.
Proof. intro H. unfold Spec.of_count. rewrite <- Zle_Qle. lia. Qed.

Lemma contraction_formula_cap (c : nat) :
  (Qmin ((1 # 2) * Spec.of_count c) 2
   == Qmin ((1 # 2) * Spec.of_count (Nat.min c 4)) 2)%Q.
Proof.
  destruct (Nat.le_gt_cases c 4) as [H|H].
  - rewrite Nat.min_l by exact H. reflexivity.
  - rewrite Nat.min_r by lia.
    pose proof (of_count_le 4 c ltac:(lia)) as L.
    change (Spec.of_count 4) with 4%Q in *.
    rewrite Q.min_r by lra. rewrite Q.min_r by lra. reflexivity.
Qed.

Lemma you_formula_cap (y : nat) :
  (Qmin ((1 # 5) * Spec.of_count y) 1
   == Qmin ((1 # 5) * Spec.of_count (Nat.min y 5)) 1)%Q.
Proof.
  destruct (Nat.le_gt_cases y 5) as [H|H].
  - rewrite Nat.min_l by exact H. reflexivity.
  - rewrite Nat.min_r by lia.
    pose proof (of_count_le 5 y ltac:(lia)) as L.
    change (Spec.of_count 5) with 5%Q in *.
    rewrite Q.min_r by lra. rewrite Q.min_r by lra. reflexivity.
Qed.

Lemma close_to_decide (x y : Q) :
  Qle_bool (Qabs (x - y)) Spec.tolerance = true -> Spec.close_to x y.
Proof. intro H. apply Qle_bool_iff. exact H. Qed.

(** The voice score on the counts that matter. *)
Lemma voice_tone_close_small (vi c y : nat) :
  vi <= 1 -> c <= 4 -> y <= 5 ->
  Spec.close_to (value (Spec.voice_tone_score vi c y))
                (Spec.voice_tone_formula vi c y).
Proof.
  intros Hv Hc Hy.
  destruct vi as [|[|vi]]; [| |lia];
    (destruct c as [|[|[|[|[|c]]]]]; [| | | | |lia]);
    (destruct y as [|[|[|[|[|[|y]]]]]]; [| | | | | |lia]);
    apply close_to_decide; vm_compute; reflexivity.
Qed.

Lemma close_to_compat (x y y' : Q) :
  (y == y')%Q -> Spec.close_to x y' -> Spec.close_to x y.
Proof. unfold Spec.close_to. intros E H. rewrite E. exact H. Qed.

Lemma clamp_0_10_compat (x x' : Q) :
  (x == x')%Q -> (Spec.clamp_0_10 x == Spec.clamp_0_10 x')%Q.
Proof. unfold Spec.clamp_0_10. intro E. rewrite E. reflexivity. Qed.

Lemma voice_tone_formula_cap (vi c y : nat) :
  (Spec.voice_tone_formula vi c y
   == Spec.voice_tone_formula vi (Nat.min c 4) (Nat.min y 5))%Q.
Proof.
  unfold Spec.voice_tone_formula. apply clamp_0_10_compat.
  pose proof (contraction_formula_cap c) as E1.
  pose proof (you_formula_cap y) as E2.
  revert E1 E2.
  generalize (Qmin ((1 # 2) * Spec.of_count c) 2).
  generalize (Qmin ((1 # 2) * Spec.of_count (Nat.min c 4)) 2).
  generalize (Qmin ((1 # 5) * Spec.of_count y) 1).
  generalize (Qmin ((1 # 5) * Spec.of_count (Nat.min y 5)) 1).
  generalize (Spec.of_count vi).
  intros v b' b a' a E1 E2. rewrite E1, E2. reflexivity.
Qed.

Lemma voice_tone_score_cap (vi c y : nat) :
  Spec.voice_tone_score vi c y
  = Spec.voice_tone_score vi (Nat.min c 4) (Nat.min y 5).
Proof.
  unfold Spec.voice_tone_score.
  rewrite (contraction_bonus_cap c), (you_bonus_cap y). reflexivity.
Qed.

Lemma voice_tone_close (vi c y : nat) :
  vi <= 1 ->
  Spec.close_to (value (Spec.voice_tone_score vi c y))
                (Spec.voice_tone_formula vi c y).
Proof.
  intro Hv.
  apply (close_to_compat _ _ _ (voice_tone_formula_cap vi c y)).
  rewrite (voice_tone_score_cap vi c y).
  apply voice_tone_close_small;
    [exact Hv | apply Nat.le_min_r | apply Nat.le_min_r].
Qed.

Lemma clamp_0_10_nonpos (x : Q) : (x <= 0)%Q -> (Spec.clamp_0_10 x == 0)%Q.
Proof.
  intro H. unfold Spec.clamp_0_10.
  rewrite (Q.min_r 10 x) by lra. apply Q.max_l. exact H.
Qed.

Lemma close_to_zero (x : pynum) (y : Q) :
  x = PInt 0 -> (y == 0)%Q -> Spec.close_to (value x) y.
Proof.
  intros -> E. apply (close_to_compat _ _ 0 E).
  apply close_to_decide. reflexivity.
Qed.

(** The part of the clarity score that the grammar issues decide. *)
Lemma clarity_base_le_10 (g : nat) :
  (value (py_sub f_10_0 (py_mul (of_nat g) f_1_5)) <= 10)%Q.
Proof.
  cbn [py_sub py_mul of_nat f_10_0 f_1_5 value to_float].
  assert (H0 : (0 <= fl (inject_Z (Z.of_nat g)))%Q).
  { apply fl_ge; [reflexivity|]. change 0%Q with (inject_Z 0).
    rewrite <- Zle_Qle. lia. }
  assert (H1 : (0 <= fl (fl (inject_Z (Z.of_nat g)) * fl (15 # 10)))%Q).
  { apply fl_ge; [reflexivity|]. change (fl (15 # 10)) with (3 # 2)%Q. nra. }
  apply fl_le; [reflexivity|]. change (fl 10) with 10%Q. lra.
Qed.

Lemma clarity_base_neg (g : nat) :
  7 <= g -> (value (py_sub f_10_0 (py_mul (of_nat g) f_1_5)) <= - (1 # 2))%Q.
Proof.
  intro Hg. cbn [py_sub py_mul of_nat f_10_0 f_1_5 value to_float].
  assert (H0 : (7 <= fl (inject_Z (Z.of_nat g)))%Q).
  { apply fl_ge; [reflexivity|]. change 7%Q with (inject_Z 7).
    rewrite <- Zle_Qle. lia. }
  assert (H1 : (21 # 2 <= fl (fl (inject_Z (Z.of_nat g)) * fl (15 # 10)))%Q).
  { apply fl_ge; [reflexivity|]. change (fl (15 # 10)) with (3 # 2)%Q. nra. }
  apply fl_le; [reflexivity|]. change (fl 10) with 10%Q. lra.
Qed.

(** The penalty for long sentences is never negative. *)
Lemma clarity_penalty_nonneg (q : Q) :
  (25 <= q)%Q ->
  (0 <= value (py_mul (py_sub (PFloat q) (PInt 25)) f_0_1))%Q.
Proof.
  intro H. cbn [py_sub py_mul f_0_1 value to_float].
  change (fl (inject_Z 25)) with 25%Q.
  assert (H0 : (0 <= fl (q - 25))%Q) by (apply fl_ge; [reflexivity|lra]).
  assert (H1 : (0 <= fl (1 # 10))%Q) by (vm_compute; discriminate).
  apply fl_ge; [reflexivity|]. nra.
Qed.

Lemma clarity_penalty_ge_10 (q : Q) :
  (125 <= q)%Q ->
  (10 <= value (py_mul (py_sub (PFloat q) (PInt 25)) f_0_1))%Q.
Proof.
  intro H. cbn [py_sub py_mul f_0_1 value to_float].
  change (fl (inject_Z 25)) with 25%Q.
  assert (H0 : (100 <= fl (q - 25))%Q) by (apply fl_ge; [reflexivity|lra]).
  assert (H1 : (1 # 10 <= fl (1 # 10))%Q) by (vm_compute; discriminate).
  apply fl_ge; [reflexivity|]. nra.
Qed.

Lemma py_sub_le (k : Q) (x y : pynum) :
  (fl k == k)%Q -> (value x <= k)%Q -> (0 <= value y)%Q ->
  (value (py_sub x y) <= k)%Q.
Proof.
  intros E Hx Hy.
  pose proof (to_float_le k x E Hx) as Fx.
  pose proof (to_float_ge 0 y fl_0 Hy) as Fy.
  destruct x as [a|p], y as [b|q]; cbn [py_sub value];
    try (apply fl_le; [exact E|lra]).
  cbn [value] in Hx, Hy. unfold Zminus. rewrite inject_Z_plus, inject_Z_opp. lra.
Qed.

Lemma py_gt_25 (q : Q) :
  py_gt (PFloat q) (PInt 25) = negb (Qle_bool q 25).
Proof.
  unfold py_gt. destruct (Qle_bool q 25) eqn:E; cbn [negb].
  - apply Qle_bool_iff in E.
    destruct (py_lt (PInt 25) (PFloat q)) eqn:L; [|reflexivity].
    apply py_lt_iff in L. cbn [value] in L.
    change (inject_Z 25) with 25%Q in L. lra.
  - apply py_lt_iff. cbn [value]. change (inject_Z 25) with 25%Q.
    apply Qnot_le_lt. intro H. apply Qle_bool_iff in H. congruence.
Qed.

(** With seven grammar issues or more the clarity score is 0. *)
Lemma clarity_close_many_issues (g : nat) (q : Q) :
  7 <= g ->
  Spec.close_to (value (Spec.clarity_score g (PFloat q))) (Spec.clarity_formula g q).
Proof.
  intro Hg. pose proof (clarity_base_neg g Hg) as Hb.
  apply close_to_zero.
  - unfold Spec.clarity_score. cbv zeta. apply clamp_nonpos.
    rewrite py_gt_25. destruct (Qle_bool q 25) eqn:E; cbn [negb].
    + lra.
    + apply (Qle_trans _ (- (1 # 2))); [|vm_compute; discriminate].
      apply py_sub_le; [reflexivity|exact Hb|].
      apply clarity_penalty_nonneg.
      apply Qlt_le_weak, Qnot_le_lt. intro H. apply Qle_bool_iff in H. congruence.
  - unfold Spec.clarity_formula. apply clamp_0_10_nonpos.
    pose proof (of_count_le 7 g Hg) as L. change (Spec.of_count 7) with 7%Q in L.
    destruct (Qle_bool q 25) eqn:E.
    + lra.
    + assert (25 < q)%Q.
      { apply Qnot_le_lt. intro H. apply Qle_bool_iff in H. congruence. }
      lra.
Qed.

(** With an average of 125 words or more the clarity score is 0. *)
Lemma clarity_close_long_sentences (g : nat) (q : Q) :
  (125 <= q)%Q ->
  Spec.close_to (value (Spec.clarity_score g (PFloat q))) (Spec.clarity_formula g q).
Proof.
  intro Hq.
  assert (E : Qle_bool q 25 = false).
  { destruct (Qle_bool q 25) eqn:E; [|reflexivity].
    apply Qle_bool_iff in E. lra. }
  apply close_to_zero.
  - unfold Spec.clarity_score. cbv zeta. apply clamp_nonpos.
    rewrite py_gt_25, E. cbn [negb].
    pose proof (clarity_base_le_10 g) as Hb.
    pose proof (clarity_penalty_ge_10 q Hq) as Hp.
    revert Hb Hp.
    generalize (py_sub f_10_0 (py_mul (of_nat g) f_1_5)) as b.
    generalize (py_mul (py_sub (PFloat q) (PInt 25)) f_0_1) as p.
    intros p b Hb Hp.
    pose proof (to_float_le 10 b eq_refl Hb) as Fb.
    pose proof (to_float_ge 10 p eq_refl Hp) as Fp.
    destruct b as [z|x], p as [w|y]; cbn [py_sub value];
      try (apply fl_le; [reflexivity|lra]).
    cbn [value] in Hb, Hp. unfold Zminus.
    rewrite inject_Z_plus, inject_Z_opp. lra.
  - unfold Spec.clarity_formula. rewrite E. apply clamp_0_10_nonpos.
    pose proof (of_count_le 0 g ltac:(lia)) as L.
    change (Spec.of_count 0) with 0%Q in L. lra.
Qed.

(** With an average of at most 25 words the grammar issues alone decide. *)
Lemma clarity_close_short_sentences (g : nat) (q : Q) :
  g <= 6 -> (q <= 25)%Q ->
  Spec.close_to (value (Spec.clarity_score g (PFloat q))) (Spec.clarity_formula g q).
Proof.
  intros Hg Hq.
  assert (E : Qle_bool q 25 = true) by (apply Qle_bool_iff; exact Hq).
  unfold Spec.clarity_score, Spec.clarity_formula. cbv zeta.
  rewrite py_gt_25, E. cbn [negb].
  destruct g as [|[|[|[|[|[|[|g]]]]]]]; [| | | | | | |lia];
    apply close_to_decide; vm_compute; reflexivity.
Qed.

(** The averages with one decimal between 25.1 and 124.9. *)
Lemma clarity_table :
  forallb (fun k =>
    forallb (fun g =>
      Qle_bool
        (Qabs (value (Spec.clarity_score g
                        (PFloat (fl (inject_Z (Z.of_nat k) / 10))))
               - Spec.clarity_formula g (fl (inject_Z (Z.of_nat k) / 10))))
        Spec.tolerance)
      (seq 0 7))
    (seq 251 999)
  = true.
Proof. vm_compute. reflexivity. Qed.

Lemma clarity_close_table (g : nat) (k : Z) :
  g <= 6 -> (251 <= k <= 1249)%Z ->
  Spec.close_to (value (Spec.clarity_score g (PFloat (fl (inject_Z k / 10)))))
                (Spec.clarity_formula g (fl (inject_Z k / 10))).
Proof.
  intros Hg Hk. pose proof clarity_table as T.
  rewrite forallb_forall in T.
  specialize (T (Z.to_nat k)).
  rewrite Z2Nat.id in T by lia.
  assert (Hin : In (Z.to_nat k) (seq 251 999)) by (apply in_seq; lia).
  specialize (T Hin). rewrite forallb_forall in T.
  apply close_to_decide. apply T. apply in_seq. lia.
Qed.

(** The clarity score of a sentence average with one decimal. *)
Lemma clarity_close (g : nat) (k : Z) :
  (0 <= k)%Z ->
  Spec.close_to (value (Spec.clarity_score g (PFloat (fl (inject_Z k / 10)))))
                (Spec.clarity_formula g (fl (inject_Z k / 10))).
Proof.
  intro Hk.
  destruct (Nat.le_gt_cases 7 g) as [Hg|Hg];
    [apply clarity_close_many_issues; exact Hg|].
  destruct (Z_le_gt_dec k 250) as [H1|H1].
  { apply clarity_close_short_sentences; [lia|].
    apply fl_le; [reflexivity|].
    apply Qle_shift_div_r; [reflexivity|].
    change (25 * 10)%Q with (inject_Z 250). rewrite <- Zle_Qle. exact H1. }
  destruct (Z_le_gt_dec 1250 k) as [H2|H2].
  { apply clarity_close_long_sentences.
    apply fl_ge; [reflexivity|].
    apply Qle_shift_div_l; [reflexivity|].
    change (125 * 10)%Q with (inject_Z 1250). rewrite <- Zle_Qle. exact H2. }
  apply clarity_close_table; lia.
Qed.

Lemma accessibility_formula_value (n : nat) :
  (inject_Z (Z.max 0 (10 - 3 * Z.of_nat n)) == Spec.accessibility_formula n)%Q.
Proof.
  unfold Spec.accessibility_formula.
  destruct (Nat.le_gt_cases 4 n) as [H|H].
  - replace (Z.max 0 (10 - 3 * Z.of_nat n)) with 0%Z by lia.
    symmetry. apply clamp_0_10_nonpos.
    pose proof (of_count_le 4 n H) as L. change (Spec.of_count 4) with 4%Q in L.
    lra.
  - destruct n as [|[|[|[|n]]]]; [reflexivity..|lia].
Qed.

Lemma compliance_formula_value (n : nat) :
  (inject_Z (Z.max 0 (10 - 2 * Z.of_nat n)) == Spec.compliance_formula n)%Q.
Proof.
  unfold Spec.compliance_formula.
  destruct (Nat.le_gt_cases 5 n) as [H|H].
  - replace (Z.max 0 (10 - 2 * Z.of_nat n)) with 0%Z by lia.
    symmetry. apply clamp_0_10_nonpos.
    pose proof (of_count_le 5 n H) as L. change (Spec.of_count 5) with 5%Q in L.
    lra.
  - destruct n as [|[|[|[|[|n]]]]]; [reflexivity..|lia].
Qed.

(** The average sentence length of an analysis is a number with one
    decimal. *)
Lemma avg_one_decimal (self : analyzer) (text atype : pystr) :
  exists k : Z,
    (0 <= k)%Z
    /\ avg_words_per_sentence (stats (analyze_content self text atype))
       = PFloat (fl (inject_Z k / 10)).
Proof.
  rewrite stats_analyze. cbv zeta. cbn [avg_words_per_sentence].
  set (wc := List.length (split_ws text)).
  set (sc := Nat.max 1 _).
  unfold int_truediv. cbn [round1].
  eexists. split; [|reflexivity].
  rewrite <- (round_half_even_Z 0). apply round_half_even_mono.
  change (inject_Z 0) with 0%Q.
  assert (H : (0 <= fl (inject_Z (Z.of_nat wc) / inject_Z (Z.of_nat sc)))%Q).
  { apply fl_ge; [reflexivity|].
    apply Qle_shift_div_l.
    - change 0%Q with (inject_Z 0). rewrite <- Zlt_Qlt. unfold sc. lia.
    - rewrite Qmult_0_l. change 0%Q with (inject_Z 0). rewrite <- Zle_Qle. lia. }
  lra.
Qed.

(** * The claims *)

(** C1.  For every text (the empty one too) and every analysis type, the
    analysis that [analyze_content] returns has [total_issues] equal to the
    length of [issues], and each of the four quality scores that
    [_calculate_quality_scores] computes from it and the text lies in the
    closed interval from 0 to 10. *)
Theorem analysis_counts_issues_and_scores_in_range
        (self : analyzer) (text atype : pystr) :
  let a := analyze_content self text atype in
  let qs := calculate_quality_scores self a text in
  total_issues a = List.length (issues a)
  /\ Spec.in_0_10 (q_voice_tone qs)
  /\ Spec.in_0_10 (q_clarity qs)
  /\ Spec.in_0_10 (q_accessibility qs)
  /\ Spec.in_0_10 (q_compliance qs).
Proof.
  cbv zeta. split; [apply total_issues_analyze|].
  rewrite calculate_quality_scores_spec. cbn [q_voice_tone q_clarity q_accessibility q_compliance].
  unfold Spec.in_0_10.
  repeat split; apply clamp_range.
Qed.

(** C2.  For every text and analysis type, the four scores that
    [_calculate_quality_scores] computes from the analysis and the text
    are the formulas of the specification, evaluated on exact numbers and
    clamped to [0, 10]: accessibility and compliance exactly, voice_tone
    and clarity up to the rounding of binary64 arithmetic (within
    10^-12).  A text with at least four matches of the non-inclusive terms
    has, under the comprehensive analysis, the accessibility score 0. *)
Theorem quality_scores_follow_the_formulas
        (self : analyzer) (text atype : pystr) :
  let a := analyze_content self text atype in
  let qs := calculate_quality_scores self a text in
  Spec.close_to (value (q_voice_tone qs))
    (Spec.voice_tone_formula (count_type voice_tone (issues a))
       (count true (p_contractions (patterns self)) text)
       (count true (p_you_addressing (patterns self)) text))
  /\ Spec.close_to (value (q_clarity qs))
       (Spec.clarity_formula (count_type grammar (issues a))
          (value (avg_words_per_sentence (stats a))))
  /\ Qeq (value (q_accessibility qs))
         (Spec.accessibility_formula (count_type accessibility (issues a)))
  /\ Qeq (value (q_compliance qs))
         (Spec.compliance_formula (count_type terminology (issues a)))
  /\ (4 <= count true (p_non_inclusive_terms (patterns self)) text ->
      q_accessibility
        (calculate_quality_scores self
           (analyze_content self text (lat "comprehensive")) text)
      = PInt 0).
Proof.
  cbv zeta. rewrite !calculate_quality_scores_spec.
  cbn [q_voice_tone q_clarity q_accessibility q_compliance].
  split; [|split; [|split; [|split]]].
  - apply voice_tone_close. rewrite count_voice_tone.
    apply voice_tone_block_length.
  - destruct (avg_one_decimal self text atype) as [k [Hk E]].
    rewrite E. cbn [value]. apply clarity_close. exact Hk.
  - rewrite accessibility_score_value. apply accessibility_formula_value.
  - rewrite compliance_score_value. apply compliance_formula_value.
  - intro H. apply accessibility_score_zero.
    rewrite count_accessibility, accessibility_block_comprehensive. lia.
Qed.

(** The text of the specification's example: four non-inclusive terms. *)
Lemma quality_scores_follow_the_formulas_witness :
  4 <= count true (p_non_inclusive_terms (patterns init))
             (lat "guys mankind blacklist crazy")
  /\ q_accessibility
       (calculate_quality_scores init
          (analyze_content init (lat "guys mankind blacklist crazy")
                           (lat "comprehensive"))
          (lat "guys mankind blacklist crazy"))
     = PInt 0.
Proof.
  assert (H : 4 <= count true (p_non_inclusive_terms (patterns init))
                         (lat "guys mankind blacklist crazy"))
    by (vm_compute; lia).
  split; [exact H|].
  exact (proj2 (proj2 (proj2 (proj2
    (quality_scores_follow_the_formulas init
       (lat "guys mankind blacklist crazy") (lat "comprehensive"))))) H).
Defined.

(** C10.  For every text and analysis type, [analyze_content] emits at
    most one issue of category voice_tone; hence the voice_tone score that
    [_calculate_quality_scores] computes from that analysis, for any
    document text, is at least 8. *)
Theorem voice_tone_score_at_least_8
        (self : analyzer) (text atype document_text : pystr) :
  let a := analyze_content self text atype in
  count_type voice_tone (issues a) <= 1
  /\ py_ge (q_voice_tone (calculate_quality_scores self a document_text))
           (PInt 8) = true.
Proof.
  cbv zeta.
  assert (H : count_type voice_tone (issues (analyze_content self text atype)) <= 1).
  { rewrite count_voice_tone. apply voice_tone_block_length. }
  split; [exact H|].
  rewrite calculate_quality_scores_spec. cbn [q_voice_tone].
  unfold py_ge. apply py_le_iff.
  apply (voice_tone_score_ge_8 _ _ _ H).
Qed.

(** C3.  The offline analyzer does not run the contractions and
    direct-address detectors under every filter: under the "grammar" filter
    the text "you can't" has a contraction and a "you" and yet gets no
    Suggestion, and the text "hello" has no contraction and yet gets no
    Issue.  (The web-enabled analyzer runs both detectors under every
    filter.) *)
Lemma voice_detectors_skipped_under_grammar_filter :
  0 < count true (p_contractions (patterns init)) (lat "you can't")
  /\ 0 < count true (p_you_addressing (patterns init)) (lat "you can't")
  /\ suggestions (analyze_content init (lat "you can't") (lat "grammar")) = []
  /\ count true (p_contractions (patterns init)) (lat "hello") = 0
  /\ issues (analyze_content init (lat "hello") (lat "grammar")) = [].
Proof. vm_compute. repeat split; lia. Qed.

(** The gate of the offline analyzer.  Its contractions and
    direct-address detectors run exactly under the filters "comprehensive"
    and "voice_tone": there a
    text with a contraction yields the warm_and_relaxed Suggestion (and no
    voice_tone Issue), a text with none yields the info voice_tone Issue,
    and a text with a "you" yields the ready_to_help Suggestion.  Under any
    other filter there is no Suggestion and no voice_tone Issue. *)
Theorem voice_detectors_run_under_voice_filters
        (self : analyzer) (text atype : pystr) :
  let a := analyze_content self text atype in
  let c := count true (p_contractions (patterns self)) text in
  let y := count true (p_you_addressing (patterns self)) text in
  if mem_str atype [lat "comprehensive"; lat "voice_tone"]
  then (if 0 <? c
        then Spec.has_suggestion "warm_and_relaxed" a
             /\ count_type voice_tone (issues a) = 0
        else Spec.has_contractions_issue a
             /\ ~ Spec.has_suggestion "warm_and_relaxed" a)
       /\ (if 0 <? y
           then Spec.has_suggestion "ready_to_help" a
           else ~ Spec.has_suggestion "ready_to_help" a)
  else suggestions a = [] /\ count_type voice_tone (issues a) = 0.
Proof.
  cbv zeta. unfold Spec.has_suggestion, Spec.has_contractions_issue.
  rewrite count_voice_tone, suggestions_analyze, issues_analyze.
  unfold voice_tone_block.
  destruct (mem_str atype [lat "comprehensive"; lat "voice_tone"]);
    [|split; reflexivity].
  cbv zeta.
  destruct (0 <? count true (p_contractions (patterns self)) text);
    destruct (0 <? count true (p_you_addressing (patterns self)) text);
    cbn [fst snd app List.length];
    repeat match goal with
      | |- _ /\ _ => split
      | |- 0 = 0 => reflexivity
      | |- exists s : suggestion, _ =>
          first [ eexists; split; [left; reflexivity | split; reflexivity]
                | eexists; split; [right; left; reflexivity | split; reflexivity] ]
      | |- exists i : issue, _ =>
          eexists; split; [left; reflexivity | split; reflexivity]
      | |- ~ _ =>
          let s := fresh "s" in let H := fresh "H" in
          intros [s [H [_ Hp]]]; cbn [In] in H;
          repeat match type of H with
            | _ \/ _ => destruct H as [H|H]
            | False => destruct H
            | _ = s => subst s; vm_compute in Hp; discriminate Hp
            end
      end.
Qed.

(** C4, as stated, fails: for a text that contains "whitelist" neither the
    "comprehensive" nor the "terminology" filter produces a terminology
    Issue; the comprehensive analysis reports the word as an accessibility
    error. *)
Lemma whitelist_yields_no_terminology_issue :
  contains (lat "whitelist") (lower (lat "Add it to the Whitelist.")) = true
  /\ count_type terminology
       (issues (analyze_content init (lat "Add it to the Whitelist.")
                                (lat "comprehensive"))) = 0
  /\ count_type terminology
       (issues (analyze_content init (lat "Add it to the Whitelist.")
                                (lat "terminology"))) = 0
  /\ map (fun i => (i_type i, i_severity i, i_message i))
         (issues (analyze_content init (lat "Add it to the Whitelist.")
                                  (lat "comprehensive")))
     = [(voice_tone, info,
         lat "Consider using contractions (it's, you're, we'll) for a more natural tone");
        (accessibility, error,
         lat "'Whitelist' may not be inclusive - consider alternatives")].
Proof. vm_compute. repeat split. Qed.

(** C4, amended.  No terminology Issue recommends "allow list": a
    terminology Issue names one of the avoided terms of the terminology
    table, which "whitelist" is not.  Under the "comprehensive" and
    "accessibility" filters every match of the non-inclusive terms, of
    "whitelist" among them, is reported as an accessibility error whose
    message quotes the matched text; under the other filters there is no
    accessibility Issue. *)
Theorem whitelist_is_reported_as_accessibility_error (text atype : pystr) :
  let a := analyze_content init text atype in
  (forall i, In i (issues a) -> i_type i = terminology ->
     contains (lat "allow list") (i_message i) = false
     /\ exists t, In t Spec.avoided_terms /\ i_text i = Some t)
  /\ (if mem_str atype [lat "comprehensive"; lat "accessibility"]
      then forall m,
             In m (finditer true Patterns.non_inclusive_terms text) ->
             In (Spec.non_inclusive_issue text m) (issues a)
      else count_type accessibility (issues a) = 0).
Proof.
  cbv zeta. split.
  - intros i Hin Ht.
    apply terminology_issue_in_block in Hin; [|exact Ht].
    apply terminology_block_in in Hin.
    destruct Hin as [entry [t [He [Hav [_ Hi]]]]].
    cbn [terminology_standards init In] in He.
    repeat (destruct He as [He|He]; [subst entry; cbn [snd avoid In] in Hav|]);
      try (destruct He);
      repeat (destruct Hav as [Hav|Hav]; [subst t|]); try (destruct Hav);
      subst i; (split; [reflexivity | eexists; split; [|reflexivity]]);
      unfold Spec.avoided_terms; cbn [In]; tauto.
  - destruct (mem_str atype [lat "comprehensive"; lat "accessibility"]) eqn:Hf.
    + intros m Hm. apply accessibility_block_non_inclusive; assumption.
    + rewrite count_accessibility. unfold accessibility_block. rewrite Hf.
      reflexivity.
Qed.

(** C5, as stated, fails on its example: [split] keeps "world." and
    "test." as words, so "Hello world. This is a test." has 6 words and 2
    sentences, and the average is 3.0, not 5 words and 2.5. *)
Lemma example_text_has_six_words :
  let s := stats (analyze_content init (lat "Hello world. This is a test.")
                                  (lat "comprehensive")) in
  s = Statistics 6 2 (PFloat 3)
  /\ word_count s <> 5
  /\ ~ Qeq (value (avg_words_per_sentence s)) (25 # 10).
Proof. vm_compute. repeat split; intro H; discriminate H. Qed.

(** C5, amended.  For every text, [word_count] is the number of
    whitespace-separated tokens, [sentence_count] is the number of
    fragments that are not blank after cutting the text at the runs of
    ".", "!" and "?", and [avg_words_per_sentence] is
    [round(word_count / max(1, sentence_count), 1)]; for the text
    "Hello world. This is a test." they are 6, 2 and 3.0. *)
Theorem statistics_of_a_text (self : analyzer) (text atype : pystr) :
  let s := stats (analyze_content self text atype) in
  word_count s = Spec.count_tokens false text
  /\ sentence_count s = Spec.count_sentences text
  /\ avg_words_per_sentence s
     = round1 (int_truediv (Z.of_nat (word_count s))
                           (Z.of_nat (Nat.max 1 (sentence_count s))))
  /\ stats (analyze_content self (lat "Hello world. This is a test.") atype)
     = Statistics 6 2 (PFloat 3).
Proof.
  cbv zeta. rewrite !stats_analyze. cbv zeta.
  cbn [word_count sentence_count avg_words_per_sentence].
  repeat split.
  - apply split_ws_length.
  - rewrite split_fragments. unfold Spec.count_sentences.
    f_equal. apply filter_ext. intro f. apply nonempty_strip.
Qed.

(** C6.  The rewrite examples of a review are, in this order, the
    passive-voice example (there exactly when the passive-voice pattern
    matches), the inclusive-language example (there exactly when the
    non-inclusive-terms pattern matches) and the contractions example
    (there exactly when the text has no contraction), so at most 3; the
    contractions example is the canned "Natural Tone" one, with its fixed
    before and after. *)
Theorem rewrite_examples_are_ordered_and_capped
        (self : analyzer) (a : analysis) (text : pystr) :
  let examples := generate_rewrite_examples self a text in
  exists p i c,
    examples = p ++ i ++ c
    /\ List.length examples <= 3
    /\ (if nonempty (finditer true (p_passive_voice (patterns self)) text)
        then exists e, p = [e] /\ r_category e = lat "Active Voice"
        else p = [])
    /\ (if nonempty (finditer true (p_non_inclusive_terms (patterns self)) text)
        then exists e, i = [e] /\ r_category e = lat "Inclusive Language"
        else i = [])
    /\ (if count true (p_contractions (patterns self)) text =? 0
        then c = [natural_tone_example] /\ In natural_tone_example examples
        else c = [])
    /\ r_category natural_tone_example = lat "Natural Tone"
    /\ r_before natural_tone_example = lat "You cannot access this feature."
    /\ r_after natural_tone_example = lat "You can't access this feature.".
Proof.
  cbv zeta.
  exists (passive_example self text), (inclusive_example self text),
         (contractions_example self text).
  assert (Hp : if nonempty (finditer true (p_passive_voice (patterns self)) text)
               then exists e, passive_example self text = [e]
                              /\ r_category e = lat "Active Voice"
               else passive_example self text = []).
  { unfold passive_example.
    destruct (finditer true (p_passive_voice (patterns self)) text) as [|m l];
      cbn [nonempty]; [reflexivity|].
    eexists. split; reflexivity. }
  assert (Hi : if nonempty (finditer true (p_non_inclusive_terms (patterns self)) text)
               then exists e, inclusive_example self text = [e]
                              /\ r_category e = lat "Inclusive Language"
               else inclusive_example self text = []).
  { unfold inclusive_example.
    destruct (finditer true (p_non_inclusive_terms (patterns self)) text) as [|m l];
      cbn [nonempty]; [reflexivity|].
    eexists. split; reflexivity. }
  assert (Hc : contractions_example self text
               = if count true (p_contractions (patterns self)) text =? 0
                 then [natural_tone_example] else []).
  { unfold contractions_example.
    destruct (search true (p_contractions (patterns self)) text) as [m|] eqn:Hs.
    - destruct (count true (p_contractions (patterns self)) text =? 0) eqn:E;
        [|reflexivity].
      apply Nat.eqb_eq, search_none_iff in E. congruence.
    - apply search_none_iff in Hs. rewrite Hs. reflexivity. }
  assert (Hlen : List.length (passive_example self text
                              ++ inclusive_example self text
                              ++ contractions_example self text) <= 3).
  { rewrite !length_app, Hc.
    destruct (nonempty (finditer true (p_passive_voice (patterns self)) text));
      [destruct Hp as [e [-> _]] | rewrite Hp];
      (destruct (nonempty (finditer true (p_non_inclusive_terms (patterns self)) text));
       [destruct Hi as [e' [-> _]] | rewrite Hi]);
      destruct (count true (p_contractions (patterns self)) text =? 0);
      simpl; lia. }
  assert (Hex : generate_rewrite_examples self a text
                = passive_example self text ++ inclusive_example self text
                  ++ contractions_example self text).
  { unfold generate_rewrite_examples. apply firstn_all2. exact Hlen. }
  rewrite Hex.
  repeat match goal with |- _ /\ _ => split end;
    try reflexivity; try assumption.
  rewrite Hc.
  destruct (count true (p_contractions (patterns self)) text =? 0);
    [|reflexivity].
  split; [reflexivity|].
  apply in_or_app; right. apply in_or_app; right. left. reflexivity.
Qed.

(** C7: the code does the opposite of the claim.  The recommendation is
    triggered by a search for contractions in [str(analysis)], which holds
    the advice "Consider using contractions (it's, you're, we'll) ..."
    exactly when the text has no contraction.  So the review of
    "You cannot access this feature." (no contraction) lacks the "add
    contractions" recommendation, and the review of "It's easy." (one
    contraction) has it. *)
Theorem contractions_recommendation_is_inverted :
  count true (p_contractions (patterns init))
        (lat "You cannot access this feature.") = 0
  /\ low_priority
       (rv_recommendations
          (review_document init (lat "You cannot access this feature.")))
     = [lat "Content meets Microsoft standards well"]
  /\ count true (p_contractions (patterns init)) (lat "It's easy.") = 1
  /\ low_priority
       (rv_recommendations (review_document init (lat "It's easy.")))
     = [rec_contractions].
Proof. vm_compute. repeat split. Qed.

(** C8.  The tool rejects a text that is empty or white space only with
    the error "No text provided for analysis" and leaves the analyzer as
    it is; for every other text it returns a summary with the analysis of
    [analyze_content]. *)
Theorem analyze_tool_rejects_blank_text
        (now : nat -> Z) (text atype : pystr) (self : analyzer) :
  if forallb is_space text
  then analyze_content_tool now text atype self
       = (ToolError (lat "No text provided for analysis"), self)
  else exists summary self',
         analyze_content_tool now text atype self
         = (ToolOk summary (analyze_content self text atype), self').
Proof.
  unfold analyze_content_tool. rewrite nonempty_strip. unfold Spec.blank.
  destruct (forallb is_space text); cbn [negb].
  - reflexivity.
  - eexists. eexists. reflexivity.
Qed.

(** C9.  The analysis is a function of the text, the analysis type and
    the analyzer's fixed tables: it is the same whatever the change log
    holds and after any calls of the tool, and two calls of the tool with
    the same arguments, the second on the analyzer that the first left,
    return the same result. *)
Theorem analysis_does_not_depend_on_the_change_log
        (self : analyzer) (log : list change_entry) (calls : list tool_call)
        (now1 now2 : nat -> Z) (text atype : pystr) :
  analyze_content (with_change_history log self) text atype
  = analyze_content self text atype
  /\ analyze_content (run_calls calls self) text atype
     = analyze_content self text atype
  /\ fst (analyze_content_tool now2 text atype
            (snd (analyze_content_tool now1 text atype self)))
     = fst (analyze_content_tool now1 text atype self).
Proof.
  split; [|split].
  - apply analyze_content_same_engine, with_change_history_same_engine.
  - symmetry. apply analyze_content_same_engine, run_calls_same_engine.
  - rewrite !tool_result.
    rewrite <- (analyze_content_same_engine self _ text atype
                  (tool_same_engine now1 text atype self)).
    reflexivity.
Qed.

(** * Further properties *)

Import Review Tools Observations.

Lemma unknown_filter_blocks (self : analyzer) (text atype : pystr) :
  mem_str atype known_filters = false ->
  voice_tone_block self text atype = ([], [])
  /\ grammar_block self text atype = []
  /\ terminology_block self text atype = []
  /\ accessibility_block self text atype = [].
Proof.
  unfold known_filters, mem_str. cbn [existsb]. intro H.
  unfold voice_tone_block, grammar_block, terminology_block, accessibility_block,
    mem_str. cbn [existsb].
  destruct (pystr_eqb atype (lat "comprehensive")); [discriminate H|].
  destruct (pystr_eqb atype (lat "voice_tone")); [discriminate H|].
  destruct (pystr_eqb atype (lat "grammar")); [discriminate H|].
  destruct (pystr_eqb atype (lat "terminology")); [discriminate H|].
  destruct (pystr_eqb atype (lat "accessibility")); [discriminate H|].
  repeat split.
Qed.

(** X1.  An analysis type that is none of the five known names is not
    rejected: no detector runs, so the analysis has no issue and no
    suggestion and its status is "Excellent", whatever the text. *)
Theorem unknown_filter_reports_nothing (self : analyzer) (text atype : pystr) :
  mem_str atype known_filters = false ->
  let a := analyze_content self text atype in
  issues a = [] /\ suggestions a = [] /\ total_issues a = 0
  /\ status a = status_excellent.
Proof.
  intros H. cbv zeta.
  destruct (unknown_filter_blocks self text atype H) as [Hv [Hg [Ht Ha]]].
  assert (Hi : issues (analyze_content self text atype) = []).
  { rewrite issues_analyze, Hv, Hg, Ht, Ha. reflexivity. }
  split; [exact Hi|]. split; [rewrite suggestions_analyze, Hv; reflexivity|].
  split; [rewrite total_issues_analyze, Hi; reflexivity|].
  unfold analyze_content. rewrite Hv, Hg, Ht, Ha. reflexivity.
Qed.

Lemma unknown_filter_reports_nothing_witness :
  let a := analyze_content init (lat "The guys said he was added.") (lat "voice") in
  issues a = [] /\ suggestions a = [] /\ total_issues a = 0
  /\ status a = status_excellent.
Proof.
  apply (unknown_filter_reports_nothing init (lat "The guys said he was added.")
           (lat "voice")).
  reflexivity.
Defined.

Lemma status_analyze (self : analyzer) (text atype : pystr) :
  status (analyze_content self text atype)
  = let n := List.length (issues (analyze_content self text atype)) in
    if n =? 0 then status_excellent
    else if n <=? 2 then status_good else status_needs_work.
Proof.
  cbv zeta. rewrite issues_analyze. unfold analyze_content.
  match goal with
  | |- context [if ?b then _ else if ?c then _ else _] =>
      destruct b; [|destruct c]; reflexivity
  end.
Qed.

(** X2.  Under the "comprehensive" and "voice_tone" analyses a text
    without a contraction always has an issue, so its status is never
    "Excellent". *)
Theorem no_contraction_is_never_excellent (self : analyzer) (text atype : pystr) :
  mem_str atype [lat "comprehensive"; lat "voice_tone"] = true ->
  count true (p_contractions (patterns self)) text = 0 ->
  let a := analyze_content self text atype in
  1 <= total_issues a /\ status a <> status_excellent.
Proof.
  intros Hf Hc. cbv zeta.
  assert (H1 : 1 <= List.length (issues (analyze_content self text atype))).
  { pose proof (count_voice_tone self text atype) as Hv.
    pose proof (voice_tone_block_cases self text atype) as Hb.
    cbv zeta in Hb. rewrite Hf, Hc in Hb. cbn [Nat.ltb Nat.leb] in Hb.
    rewrite Hb in Hv. cbn [List.length] in Hv.
    unfold count_type in Hv.
    pose proof (filter_length_le (fun i => category_eqb (i_type i) voice_tone)
                  (issues (analyze_content self text atype))) as Hle.
    lia. }
  split; [rewrite total_issues_analyze; exact H1|].
  rewrite status_analyze. cbv zeta.
  destruct (List.length (issues (analyze_content self text atype))) as [|n];
    [lia|].
  cbn [Nat.eqb]. destruct (S n <=? 2); intro H; discriminate H.
Qed.

Lemma no_contraction_is_never_excellent_witness :
  let a := analyze_content init (lat "Open the file.") (lat "comprehensive") in
  1 <= total_issues a /\ status a <> status_excellent.
Proof.
  apply (no_contraction_is_never_excellent init (lat "Open the file.")
           (lat "comprehensive")); reflexivity.
Defined.

(** X3.  The issues of an analysis come grouped by category, in the
    order voice_tone, grammar, terminology, accessibility, with at most one
    voice_tone issue. *)
Theorem issues_are_grouped_by_category (self : analyzer) (text atype : pystr) :
  exists v g t x,
    issues (analyze_content self text atype) = v ++ g ++ t ++ x
    /\ List.length v <= 1
    /\ Forall (fun i => i_type i = voice_tone) v
    /\ Forall (fun i => i_type i = grammar) g
    /\ Forall (fun i => i_type i = terminology) t
    /\ Forall (fun i => i_type i = accessibility) x.
Proof.
  exists (fst (voice_tone_block self text atype)), (grammar_block self text atype),
         (terminology_block self text atype), (accessibility_block self text atype).
  split; [apply issues_analyze|].
  split; [apply voice_tone_block_length|].
  split; [apply voice_tone_block_type|].
  split; [apply grammar_block_type|].
  split; [apply terminology_block_type | apply accessibility_block_type].
Qed.

Lemma terminology_block_init (text atype : pystr) :
  terminology_block init text atype
  = if mem_str atype [lat "comprehensive"; lat "terminology"]
    then flat_map (fun e : pystr * pystr * pystr =>
           let '(t, c, n) := e in
           if contains (lower t) (lower text)
           then [Issue terminology warning None (Some t)
                       (lat "Use '" ++ c ++ lat "' instead of '" ++ t ++ lat "'")
                       None (Some n)]
           else [])
         [(lat "A.I.", lat "AI", lat "No periods");
          (lat "e-mail", lat "email", lat "One word");
          (lat "web site", lat "website", lat "One word");
          (lat "login", lat "sign in (verb), sign-in (noun)", lat "Microsoft standard");
          (lat "log in", lat "sign in (verb), sign-in (noun)", lat "Microsoft standard");
          (lat "setup (verb)", lat "set up (verb), setup (noun)", lat "Context dependent");
          (lat "WiFi", lat "Wi-Fi", lat "Hyphenated, both caps");
          (lat "wifi", lat "Wi-Fi", lat "Hyphenated, both caps")]
    else [].
Proof.
  unfold terminology_block.
  destruct (mem_str atype [lat "comprehensive"; lat "terminology"]); [|reflexivity].
  cbn [terminology_standards init flat_map avoid correct note snd app].
  rewrite !app_nil_r. rewrite <- !app_assoc. reflexivity.
Qed.

(** X4.  With the built-in terminology table an analysis has at most 8
    terminology issues, and a text that contains "wifi" in any case gets
    two of them, one for "WiFi" and one for "wifi". *)
Theorem terminology_issues_are_bounded_and_wifi_counts_twice
        (text atype : pystr) :
  let a := analyze_content init text atype in
  count_type terminology (issues a) <= 8
  /\ (mem_str atype [lat "comprehensive"; lat "terminology"] = true ->
      contains (lat "wifi") (lower text) = true ->
      2 <= count_type terminology (issues a)
      /\ In (Issue terminology warning None (Some (lat "WiFi"))
                   (lat "Use 'Wi-Fi' instead of 'WiFi'") None
                   (Some (lat "Hyphenated, both caps"))) (issues a)
      /\ In (Issue terminology warning None (Some (lat "wifi"))
                   (lat "Use 'Wi-Fi' instead of 'wifi'") None
                   (Some (lat "Hyphenated, both caps"))) (issues a)).
Proof.
  cbv zeta. rewrite count_terminology.
  assert (Hin : forall i, In i (terminology_block init text atype) ->
                          In i (issues (analyze_content init text atype))).
  { intros i Hi. rewrite issues_analyze.
    apply in_or_app; right. apply in_or_app; right. apply in_or_app; left.
    exact Hi. }
  revert Hin. rewrite terminology_block_init.
  destruct (mem_str atype [lat "comprehensive"; lat "terminology"]).
  - cbn [flat_map].
    change (lower (lat "WiFi")) with (lat "wifi").
    change (lower (lat "wifi")) with (lat "wifi").
    intro Hin. split.
    + rewrite !length_app.
      repeat match goal with
        | |- context [if ?b then _ else _] => destruct b
        end; cbn [List.length]; lia.
    + intros _ Hw. rewrite Hw in *.
      split; [|split].
      * rewrite !length_app. cbn [List.length]. lia.
      * apply Hin. do 6 (apply in_or_app; right). apply in_or_app; left.
        left. reflexivity.
      * apply Hin. do 7 (apply in_or_app; right). apply in_or_app; left.
        left. reflexivity.
  - intros _. split; [cbn; lia | intro H; discriminate H].
Qed.

(** X5.  The accessibility and compliance scores have no rounding error:
    with [n] accessibility issues the accessibility score is
    [max(0, 10 - 3 n)], and with [n] terminology issues the compliance
    score is [max(0, 10 - 2 n)]. *)
Theorem accessibility_and_compliance_scores_are_exact
        (self : analyzer) (a : analysis) (text : pystr) :
  let qs := calculate_quality_scores self a text in
  Qeq (value (q_accessibility qs))
      (inject_Z (Z.max 0 (10 - 3 * Z.of_nat (count_type accessibility (issues a)))))
  /\ Qeq (value (q_compliance qs))
         (inject_Z (Z.max 0 (10 - 2 * Z.of_nat (count_type terminology (issues a))))).
Proof.
  cbv zeta. rewrite calculate_quality_scores_spec.
  cbn [q_accessibility q_compliance].
  split; [apply accessibility_score_value | apply compliance_score_value].
Qed.

(** X6.  The three recommendation buckets are never empty and hold at
    most 2, 3 and 2 recommendations; a placeholder stands in a bucket only
    alone. *)
Theorem recommendation_buckets_are_never_empty
        (a : analysis) (qs : quality_scores) :
  let r := generate_recommendations a qs in
  1 <= List.length (high_priority r) <= 2
  /\ 1 <= List.length (medium_priority r) <= 3
  /\ 1 <= List.length (low_priority r) <= 2
  /\ (In (lat "No critical issues found") (high_priority r) ->
      high_priority r = [lat "No critical issues found"])
  /\ (In (lat "Minor style improvements available") (medium_priority r) ->
      medium_priority r = [lat "Minor style improvements available"])
  /\ (In (lat "Content meets Microsoft standards well") (low_priority r) ->
      low_priority r = [lat "Content meets Microsoft standards well"]).
Proof.
  cbv zeta. unfold generate_recommendations. cbv zeta.
  cbn [high_priority medium_priority low_priority].
  destruct (nonempty (filter _ (issues a)));
    destruct (py_lt (q_accessibility qs) (PInt 7));
    destruct (py_lt (q_voice_tone qs) (PInt 7));
    destruct (py_lt (q_clarity qs) (PInt 7));
    destruct (py_gt (avg_words_per_sentence (stats a)) (PInt 25));
    destruct (py_lt (q_compliance qs) (PInt 9));
    destruct (count true Patterns.contractions_short (str_analysis a) =? 0);
    cbn [append_if app or_default List.length];
    (repeat split; try lia; try reflexivity;
     intro H; cbn [In] in H;
     repeat (destruct H as [H|H]; [vm_compute in H; discriminate H|]);
     destruct H).
Qed.

Lemma filter_all {A : Type} (f : A -> bool) (l : list A) :
  Forall (fun x => f x = true) l -> filter f l = l.
Proof.
  induction 1 as [|x l Hx _ IH]; [reflexivity|].
  cbn [filter]. rewrite Hx, IH. reflexivity.
Qed.

Lemma filter_none {A : Type} (f : A -> bool) (l : list A) :
  Forall (fun x => f x = false) l -> filter f l = [].
Proof.
  induction 1 as [|x l Hx _ IH]; [reflexivity|].
  cbn [filter]. rewrite Hx, IH. reflexivity.
Qed.

(** The accessibility errors of a comprehensive analysis are the matches
    of the non-inclusive terms. *)
Lemma accessibility_errors_comprehensive (self : analyzer) (text : pystr) :
  filter (fun i => category_eqb (i_type i) accessibility
                   && severity_eqb (i_severity i) error)
         (issues (analyze_content self text (lat "comprehensive")))
  = map (Spec.non_inclusive_issue text)
        (finditer true (p_non_inclusive_terms (patterns self)) text).
Proof.
  rewrite issues_analyze. rewrite !filter_app.
  rewrite (filter_none _ (fst (voice_tone_block self text (lat "comprehensive")))).
  2:{ eapply Forall_impl; [|apply voice_tone_block_type].
      intros i Hi. cbv beta in Hi. rewrite Hi. reflexivity. }
  rewrite (filter_none _ (grammar_block self text (lat "comprehensive"))).
  2:{ eapply Forall_impl; [|apply grammar_block_type].
      intros i Hi. cbv beta in Hi. rewrite Hi. reflexivity. }
  rewrite (filter_none _ (terminology_block self text (lat "comprehensive"))).
  2:{ eapply Forall_impl; [|apply terminology_block_type].
      intros i Hi. cbv beta in Hi. rewrite Hi. reflexivity. }
  cbn [app]. unfold accessibility_block.
  change (mem_str (lat "comprehensive") [lat "comprehensive"; lat "accessibility"])
    with true. cbv iota.
  rewrite filter_app.
  rewrite filter_all.
  2:{ apply Forall_forall. intros i Hi. apply in_map_iff in Hi.
      destruct Hi as [m [<- _]]. reflexivity. }
  rewrite filter_none.
  2:{ apply Forall_forall. intros i Hi. apply in_map_iff in Hi.
      destruct Hi as [m [<- _]]. reflexivity. }
  rewrite app_nil_r. reflexivity.
Qed.

Lemma review_voice_score (self : analyzer) (text : pystr) :
  (8 <= value (q_voice_tone (rv_quality_scores (review_document self text))))%Q.
Proof.
  unfold review_document. cbv zeta. cbn [rv_quality_scores].
  rewrite calculate_quality_scores_spec. cbn [q_voice_tone].
  apply voice_tone_score_ge_8. rewrite count_voice_tone.
  apply voice_tone_block_length.
Qed.

(** X7.  In a document review the medium-priority recommendation
    "Improve voice and tone ..." is never given: the voice and tone
    score of an analysis is never below 7. *)
Theorem review_never_recommends_voice_and_tone (self : analyzer) (text : pystr) :
  ~ In rec_voice (medium_priority (rv_recommendations (review_document self text))).
Proof.
  pose proof (review_voice_score self text) as Hv.
  unfold review_document in *. cbv zeta in *.
  cbn [rv_recommendations rv_quality_scores] in *.
  set (a := analyze_content self text (lat "comprehensive")) in *.
  set (qs := calculate_quality_scores self a text) in *.
  unfold generate_recommendations. cbv zeta. cbn [medium_priority].
  assert (E : py_lt (q_voice_tone qs) (PInt 7) = false).
  { destruct (py_lt (q_voice_tone qs) (PInt 7)) eqn:E; [|reflexivity].
    apply py_lt_iff in E. cbn [value] in E.
    change (inject_Z 7) with 7%Q in E. lra. }
  rewrite E.
  destruct (py_lt (q_clarity qs) (PInt 7));
    destruct (py_gt (avg_words_per_sentence (stats a)) (PInt 25));
    cbn [append_if app or_default];
    intro H; cbn [In] in H;
    repeat (destruct H as [H|H]; [vm_compute in H; discriminate H|]);
    destruct H.
Qed.

Lemma review_accessibility_lt_7 (self : analyzer) (text : pystr) :
  py_lt (q_accessibility (rv_quality_scores (review_document self text))) (PInt 7)
  = (2 <=? count true (p_non_inclusive_terms (patterns self)) text
           + count true (p_gendered_pronouns (patterns self)) text).
Proof.
  unfold review_document. cbv zeta. cbn [rv_quality_scores].
  rewrite calculate_quality_scores_spec. cbn [q_accessibility].
  rewrite count_accessibility, accessibility_block_comprehensive.
  set (n := count true (p_non_inclusive_terms (patterns self)) text
            + count true (p_gendered_pronouns (patterns self)) text).
  pose proof (accessibility_score_value n) as Hv.
  destruct (2 <=? n) eqn:E.
  - apply Nat.leb_le in E. apply py_lt_iff. rewrite Hv. cbn [value].
    rewrite <- Zlt_Qlt. lia.
  - apply Nat.leb_gt in E.
    destruct (py_lt (Spec.accessibility_score n) (PInt 7)) eqn:L; [|reflexivity].
    apply py_lt_iff in L. rewrite Hv in L. cbn [value] in L.
    rewrite <- Zlt_Qlt in L. lia.
Qed.

Lemma review_compliance_lt_9 (self : analyzer) (text : pystr) :
  py_lt (q_compliance (rv_quality_scores (review_document self text))) (PInt 9)
  = (1 <=? count_type terminology (issues (rv_analysis (review_document self text)))).
Proof.
  unfold review_document. cbv zeta. cbn [rv_quality_scores rv_analysis].
  rewrite calculate_quality_scores_spec. cbn [q_compliance].
  set (n := count_type terminology _).
  pose proof (compliance_score_value n) as Hv.
  destruct (1 <=? n) eqn:E.
  - apply Nat.leb_le in E. apply py_lt_iff. rewrite Hv. cbn [value].
    rewrite <- Zlt_Qlt. lia.
  - apply Nat.leb_gt in E.
    destruct (py_lt (Spec.compliance_score n) (PInt 9)) eqn:L; [|reflexivity].
    apply py_lt_iff in L. rewrite Hv in L. cbn [value] in L.
    rewrite <- Zlt_Qlt in L. lia.
Qed.

(** X8.  In a document review, with [n] matches of the non-inclusive
    terms and [g] gendered pronouns in the document: "Fix inclusive language
    violations ..." is recommended exactly when [n >= 1], "Address
    accessibility concerns immediately" exactly when [n + g >= 2] (one
    accessibility issue leaves the score at 7, which is not below 7), and
    "Update terminology ..." exactly when there is a terminology issue. *)
Theorem review_recommendation_thresholds (self : analyzer) (text : pystr) :
  let r := review_document self text in
  let n := count true (p_non_inclusive_terms (patterns self)) text in
  let g := count true (p_gendered_pronouns (patterns self)) text in
  (In rec_inclusive (high_priority (rv_recommendations r)) <-> 1 <= n)
  /\ (In rec_accessibility (high_priority (rv_recommendations r)) <-> 2 <= n + g)
  /\ (In rec_terminology (low_priority (rv_recommendations r))
      <-> 1 <= count_type terminology (issues (rv_analysis r))).
Proof.
  cbv zeta.
  pose proof (review_accessibility_lt_7 self text) as Ha.
  pose proof (review_compliance_lt_9 self text) as Hc.
  pose proof (accessibility_errors_comprehensive self text) as He.
  unfold review_document in *. cbv zeta in *.
  cbn [rv_recommendations rv_quality_scores rv_analysis] in *.
  set (a := analyze_content self text (lat "comprehensive")) in *.
  set (qs := calculate_quality_scores self a text) in *.
  unfold generate_recommendations. cbv zeta.
  cbn [high_priority low_priority].
  rewrite He, Ha, Hc. unfold count.
  set (ms := finditer true (p_non_inclusive_terms (patterns self)) text).
  set (k := List.length (finditer true (p_gendered_pronouns (patterns self)) text)).
  set (t := count_type terminology (issues a)).
  split; [|split].
  - destruct (2 <=? List.length ms + k);
      destruct ms as [|m ms]; cbn [map nonempty List.length];
      cbn [append_if app or_default In];
      split; intro H; try lia.
    + destruct H as [H|[]]. vm_compute in H. discriminate H.
    + left. reflexivity.
    + destruct H as [H|[]]. vm_compute in H. discriminate H.
    + left. reflexivity.
  - destruct (2 <=? List.length ms + k) eqn:E;
      [apply Nat.leb_le in E | apply Nat.leb_gt in E];
      destruct ms as [|m ms]; cbn [map nonempty List.length] in *;
      cbn [append_if app or_default In];
      split; intro H; try lia.
    + left. reflexivity.
    + right. left. reflexivity.
    + destruct H as [H|[]]. vm_compute in H. discriminate H.
    + destruct H as [H|[]]. vm_compute in H. discriminate H.
  - destruct (1 <=? t) eqn:E;
      [apply Nat.leb_le in E | apply Nat.leb_gt in E];
      destruct (_ =? 0);
      cbn [append_if app or_default In];
      split; intro H; try lia.
    + left. reflexivity.
    + left. reflexivity.
    + destruct H as [H|[]]. vm_compute in H. discriminate H.
    + destruct H as [H|[]]. vm_compute in H. discriminate H.
Qed.

Lemma py_add_le (k1 k2 : Q) (x y : pynum) :
  (fl k1 == k1)%Q -> (fl k2 == k2)%Q -> (fl (k1 + k2) == k1 + k2)%Q ->
  (value x <= k1)%Q -> (value y <= k2)%Q -> (value (py_add x y) <= k1 + k2)%Q.
Proof.
  intros E1 E2 E Hx Hy.
  pose proof (to_float_le k1 x E1 Hx) as Fx.
  pose proof (to_float_le k2 y E2 Hy) as Fy.
  assert (F : (fl (to_float x + to_float y) <= k1 + k2)%Q).
  { apply fl_le; [exact E|]. lra. }
  destruct x as [a|p], y as [b|q]; cbn [py_add value]; try exact F.
  cbn [value] in Hx, Hy. rewrite inject_Z_plus. lra.
Qed.

Lemma py_truediv_4_range (lo hi : Q) (x : pynum) :
  (fl lo == lo)%Q -> (fl hi == hi)%Q ->
  (fl (lo / 4) == lo / 4)%Q -> (fl (hi / 4) == hi / 4)%Q ->
  (lo <= value x <= hi)%Q ->
  (lo / 4 <= value (py_truediv x (PInt 4)) <= hi / 4)%Q.
Proof.
  intros El Eh El4 Eh4 [Hl Hh].
  destruct x as [a|q]; cbn [py_truediv int_truediv value to_float] in *.
  - split; [apply fl_ge | apply fl_le]; try assumption.
    + change (inject_Z 4) with 4%Q. apply Qmult_le_compat_r; [exact Hl|].
      vm_compute. discriminate.
    + change (inject_Z 4) with 4%Q. apply Qmult_le_compat_r; [exact Hh|].
      vm_compute. discriminate.
  - change (fl (inject_Z 4)) with 4%Q.
    split; [apply fl_ge | apply fl_le]; try assumption.
    + apply Qmult_le_compat_r; [exact Hl|]. vm_compute. discriminate.
    + apply Qmult_le_compat_r; [exact Hh|]. vm_compute. discriminate.
Qed.

Lemma round1_range (lo hi : Z) (x : pynum) :
  (fl (inject_Z lo) == inject_Z lo)%Q -> (fl (inject_Z hi) == inject_Z hi)%Q ->
  (inject_Z lo <= value x <= inject_Z hi)%Q ->
  (inject_Z lo <= value (round1 x) <= inject_Z hi)%Q.
Proof.
  intros El Eh [Hl Hh]. destruct x as [a|q]; cbn [round1 value] in *.
  - split; assumption.
  - assert (L : (lo * 10 <= round_half_even (q * 10))%Z).
    { rewrite <- (round_half_even_Z (lo * 10)). apply round_half_even_mono.
      rewrite inject_Z_mult. change (inject_Z 10) with 10%Q. lra. }
    assert (H : (round_half_even (q * 10) <= hi * 10)%Z).
    { rewrite <- (round_half_even_Z (hi * 10)). apply round_half_even_mono.
      rewrite inject_Z_mult. change (inject_Z 10) with 10%Q. lra. }
    rewrite Zle_Qle in L, H. rewrite inject_Z_mult in L, H.
    change (inject_Z 10) with 10%Q in L, H.
    set (r := inject_Z (round_half_even (q * 10))) in *.
    split; [apply fl_ge | apply fl_le]; try assumption.
    + apply Qle_shift_div_l; [reflexivity | exact L].
    + apply Qle_shift_div_r; [reflexivity | exact H].
Qed.

Lemma score_range (x : pynum) :
  (0 <= value (clamp x) <= 10)%Q.
Proof.
  destruct (clamp_range x) as [H0 H10].
  apply py_le_iff in H0, H10. cbn [value] in H0, H10.
  split; [exact H0 | exact H10].
Qed.

(** X9.  The overall score of a document review lies between 2 and 10:
    the voice and tone score alone contributes at least 8 of the 40
    points, so the mean of the four scores is never below 2. *)
Theorem review_overall_score_between_2_and_10 (self : analyzer) (text : pystr) :
  let r := review_document self text in
  py_le (PInt 2) (rv_overall_score r) = true
  /\ py_le (rv_overall_score r) (PInt 10) = true.
Proof.
  cbv zeta.
  pose proof (review_voice_score self text) as Hv.
  unfold review_document in *. cbv zeta in *.
  cbn [rv_overall_score rv_quality_scores] in *.
  set (a := analyze_content self text (lat "comprehensive")) in *.
  revert Hv. rewrite calculate_quality_scores_spec.
  cbn [q_voice_tone q_clarity q_accessibility q_compliance].
  unfold Spec.voice_tone_score, Spec.clarity_score, Spec.accessibility_score,
    Spec.compliance_score.
  match goal with
  | |- context [py_add (py_add (py_add (py_add (PInt 0) (clamp ?v)) (clamp ?c))
                               (clamp ?x)) (clamp ?t)] =>
      generalize (score_range v) (score_range c) (score_range x) (score_range t);
      generalize (clamp v) (clamp c) (clamp x) (clamp t)
  end.
  intros v c x t [_ Hv10] [Hc0 Hc10] [Hx0 Hx10] [Ht0 Ht10] Hv8.
  assert (L : (8 <= value (py_add (py_add (py_add (py_add (PInt 0) v) c) x) t))%Q).
  { apply py_add_ge; [reflexivity| |exact Ht0].
    apply py_add_ge; [reflexivity| |exact Hx0].
    apply py_add_ge; [reflexivity| |exact Hc0].
    destruct v as [z|q]; cbn [py_add value to_float] in *.
    - exact Hv8.
    - change (fl (inject_Z 0)) with 0%Q. apply fl_ge; [reflexivity|]. lra. }
  assert (U : (value (py_add (py_add (py_add (py_add (PInt 0) v) c) x) t) <= 40)%Q).
  { change 40%Q with (30 + 10)%Q.
    apply py_add_le; [reflexivity..| |exact Ht10].
    change 30%Q with (20 + 10)%Q.
    apply py_add_le; [reflexivity..| |exact Hx10].
    change 20%Q with (10 + 10)%Q.
    apply py_add_le; [reflexivity..| |exact Hc10].
    change 10%Q with (0 + 10)%Q.
    apply py_add_le; [reflexivity..| |exact Hv10].
    apply Qle_refl. }
  pose proof (py_truediv_4_range 8 40 _ eq_refl eq_refl eq_refl eq_refl (conj L U))
    as D.
  destruct D as [D1 D2].
  assert (D : (inject_Z 2 <= value (py_truediv
                 (py_add (py_add (py_add (py_add (PInt 0) v) c) x) t) (PInt 4))
               <= inject_Z 10)%Q).
  { split; [refine (Qle_trans _ _ _ _ D1) | refine (Qle_trans _ _ _ D2 _)];
      vm_compute; discriminate. }
  pose proof (round1_range 2 10 _ eq_refl eq_refl D) as R.
  destruct R as [R2 R10].
  split; apply py_le_iff; cbn [value]; assumption.
Qed.

(** X10.  The key strengths of a document review always begin with
    "Strong Microsoft voice and tone compliance" and never hold the
    placeholder; as the list is cut to three, "Uses engaging, direct
    language effectively" is listed exactly when the analysis has a
    suggestion and the accessibility score is below 9 or the average
    sentence is longer than 20 words. *)
Theorem review_strengths_begin_with_voice (self : analyzer) (text : pystr) :
  let r := review_document self text in
  let s := es_key_strengths (executive_summary_of self text) in
  (exists rest, s = strength_voice :: rest /\ List.length rest <= 2)
  /\ ~ In strength_placeholder s
  /\ (In strength_engaging s
      <-> suggestions (rv_analysis r) <> []
          /\ (py_ge (q_accessibility (rv_quality_scores r)) (PInt 9) = false
              \/ py_le (avg_words_per_sentence (stats (rv_analysis r))) (PInt 20)
                 = false)).
Proof.
  cbv zeta.
  pose proof (review_voice_score self text) as Hv.
  unfold executive_summary_of. cbv zeta. cbn [es_key_strengths].
  set (r := review_document self text) in *.
  unfold identify_strengths. cbv zeta.
  assert (E : py_ge (q_voice_tone (rv_quality_scores r)) (PInt 8) = true).
  { apply py_le_iff. exact Hv. }
  rewrite E.
  destruct (py_ge (q_accessibility (rv_quality_scores r)) (PInt 9));
    destruct (py_le (avg_words_per_sentence (stats (rv_analysis r))) (PInt 20));
    destruct (suggestions (rv_analysis r)) as [|sg sgs];
    cbn [List.length Nat.ltb Nat.leb append_if app firstn or_default];
    (split; [eexists; split; [reflexivity | cbn [List.length]; lia]|]);
    (split;
     [intro H; cbn [In] in H;
      repeat (destruct H as [H|H]; [vm_compute in H; discriminate H|]);
      destruct H|]);
    (split;
     [intro H; cbn [In] in H;
      repeat (destruct H as [H|H]; [vm_compute in H; discriminate H|]);
      try (destruct H; fail);
      (split; [discriminate | first [left; reflexivity | right; reflexivity]])
     |intros [N [D|D]]; try discriminate D; try (exfalso; apply N; reflexivity);
      cbn [In]; auto 6]).
Qed.

Lemma grammar_issue_in_block (self : analyzer) (text atype : pystr) (i : issue) :
  In i (issues (analyze_content self text atype)) ->
  i_type i = grammar ->
  In i (grammar_block self text atype).
Proof.
  intros Hin Ht. rewrite issues_analyze in Hin.
  pose proof (voice_tone_block_type self text atype) as Hv.
  pose proof (terminology_block_type self text atype) as Hg.
  pose proof (accessibility_block_type self text atype) as Ha.
  rewrite Forall_forall in Hv, Hg, Ha.
  repeat (apply in_app_or in Hin; destruct Hin as [Hin|Hin]);
    [apply Hv in Hin | exact Hin | apply Hg in Hin | apply Ha in Hin];
    congruence.
Qed.

(** The two messages of the grammar detectors. *)
Lemma grammar_block_message (self : analyzer) (text atype : pystr) (i : issue) :
  In i (grammar_block self text atype) ->
  i_message i = lat "Consider using active voice for clarity"
  \/ i_message i
     = lat "Long sentence detected - consider breaking into shorter sentences".
Proof.
  unfold grammar_block.
  destruct (mem_str atype [lat "comprehensive"; lat "grammar"]); [|intros []].
  intro H. apply in_app_or in H.
  destruct H as [H|H]; apply in_map_iff in H; destruct H as [m [<- _]];
    [left | right]; reflexivity.
Qed.

Lemma grammar_suggestion_generic (self : analyzer) (text atype : pystr) (i : issue) :
  In i (issues (analyze_content self text atype)) ->
  i_type i = grammar ->
  get_improvement_suggestion i = suggestion_generic.
Proof.
  intros Hin Ht. unfold get_improvement_suggestion. rewrite Ht.
  destruct (grammar_block_message self text atype i
              (grammar_issue_in_block self text atype i Hin Ht)) as [E|E];
    rewrite E; reflexivity.
Qed.

Lemma improvement_in (self : analyzer) (text focus_area : pystr) (imp : improvement) :
  In imp (imp_improvements (suggest_improvements self text focus_area)) ->
  imp = general_improvement
  \/ exists i, In i (issues (analyze_content self text (lat "comprehensive")))
               /\ imp = Improvement (i_message i) (get_improvement_suggestion i)
                                    (i_type i) (i_severity i).
Proof.
  unfold suggest_improvements. cbv zeta. cbn [imp_improvements].
  unfold append_if.
  intro H.
  assert (H' : imp = general_improvement
               \/ In imp (flat_map (fun i =>
                    if pystr_eqb focus_area (lat "all")
                       || pystr_eqb (category_name (i_type i)) focus_area
                    then [Improvement (i_message i) (get_improvement_suggestion i)
                                      (i_type i) (i_severity i)]
                    else [])
                    (issues (analyze_content self text (lat "comprehensive"))))).
  { destruct (py_gt _ _); [|right; exact H].
    apply in_app_or in H. destruct H as [H|[H|[]]]; [right; exact H | left; auto]. }
  destruct H' as [H'|H']; [left; exact H'|right].
  apply in_flat_map in H'. destruct H' as [i [Hi H']].
  exists i. split; [exact Hi|].
  destruct (_ || _); [|destruct H'].
  destruct H' as [H'|[]]. symmetry. exact H'.
Qed.

(** X11.  [suggest_improvements] never proposes "Change '...' to active
    voice": the message of a passive-voice issue is "Consider using active
    voice for clarity", which does not contain "passive", so every grammar
    issue gets the generic suggestion. *)
Theorem active_voice_rewrite_is_never_suggested
        (self : analyzer) (text focus_area : pystr) :
  Forall (fun imp =>
            (forall t, im_suggestion imp <> suggestion_active_voice t)
            /\ (im_type imp = grammar ->
                im_suggestion imp = suggestion_generic \/ imp = general_improvement))
         (imp_improvements (suggest_improvements self text focus_area)).
Proof.
  apply Forall_forall. intros imp Hin.
  apply improvement_in in Hin. destruct Hin as [->|[i [Hi ->]]].
  - split; [|right; reflexivity].
    intros t H. vm_compute in H. discriminate H.
  - cbn [im_suggestion im_type]. split.
    + intros t. destruct (i_type i) eqn:Ht.
      * unfold get_improvement_suggestion. rewrite Ht.
        intro H. vm_compute in H. discriminate H.
      * rewrite (grammar_suggestion_generic self text _ i Hi Ht).
        intro H. vm_compute in H. discriminate H.
      * unfold get_improvement_suggestion. rewrite Ht.
        intro H. vm_compute in H. discriminate H.
      * unfold get_improvement_suggestion. rewrite Ht.
        intro H. unfold suggestion_active_voice in H.
        cbn [lat list_ascii_of_string map app] in H. discriminate H.
    + intro Ht. left. apply (grammar_suggestion_generic self text _ i Hi Ht).
Qed.

Lemma length_flat_map_if {A B : Type} (p : A -> bool) (f : A -> B) (l : list A) :
  List.length (flat_map (fun x => if p x then [f x] else []) l)
  = List.length (filter p l).
Proof.
  induction l as [|x l IH]; [reflexivity|].
  cbn [flat_map filter]. destruct (p x); cbn [app List.length]; rewrite IH;
    reflexivity.
Qed.

Lemma filter_ext_eq {A : Type} (p q : A -> bool) (l : list A) :
  (forall x, p x = q x) -> filter p l = filter q l.
Proof.
  intro H. induction l as [|x l IH]; [reflexivity|].
  cbn [filter]. rewrite H, IH. reflexivity.
Qed.

Lemma pystr_eqb_sym (s t : pystr) : pystr_eqb s t = pystr_eqb t s.
Proof.
  destruct (pystr_eqb s t) eqn:E.
  - apply pystr_eqb_eq in E. subst t. symmetry. apply pystr_eqb_eq. reflexivity.
  - destruct (pystr_eqb t s) eqn:E'; [|reflexivity].
    apply pystr_eqb_eq in E'. subst t.
    assert (pystr_eqb s s = true) by (apply pystr_eqb_eq; reflexivity).
    congruence.
Qed.

(** A focus area selects the issues of the category it names. *)
Lemma focus_selects (focus_area : pystr) (c : category) :
  pystr_eqb (category_name c) focus_area
  = match category_of focus_area with
    | Some c' => category_eqb c c'
    | None => false
    end.
Proof.
  unfold category_of.
  destruct (pystr_eqb focus_area (lat "voice_tone")) eqn:E1.
  { apply pystr_eqb_eq in E1. subst. destruct c; reflexivity. }
  destruct (pystr_eqb focus_area (lat "grammar")) eqn:E2.
  { apply pystr_eqb_eq in E2. subst. destruct c; reflexivity. }
  destruct (pystr_eqb focus_area (lat "terminology")) eqn:E3.
  { apply pystr_eqb_eq in E3. subst. destruct c; reflexivity. }
  destruct (pystr_eqb focus_area (lat "accessibility")) eqn:E4.
  { apply pystr_eqb_eq in E4. subst. destruct c; reflexivity. }
  rewrite pystr_eqb_sym.
  destruct c; cbn [category_name]; assumption.
Qed.

(** X12.  The number of improvements that [suggest_improvements]
    reports: for the focus "all" every issue of the comprehensive analysis,
    for a focus that names a category the issues of that category, and for
    any other focus none (the focus is not rejected); in every case one
    more, the general advice on sentence length, when the average sentence
    has more than 25 words. *)
Theorem improvements_are_counted_by_focus
        (self : analyzer) (text focus_area : pystr) :
  let a := analyze_content self text (lat "comprehensive") in
  let r := suggest_improvements self text focus_area in
  imp_total_improvements r = List.length (imp_improvements r)
  /\ imp_total_improvements r
     = (if pystr_eqb focus_area (lat "all") then total_issues a
        else match category_of focus_area with
             | Some c => count_type c (issues a)
             | None => 0
             end)
       + (if py_gt (avg_words_per_sentence (stats a)) (PInt 25) then 1 else 0).
Proof.
  cbv zeta. split; [reflexivity|].
  unfold suggest_improvements. cbv zeta. cbn [imp_total_improvements].
  set (a := analyze_content self text (lat "comprehensive")).
  assert (L : forall (b : bool) (x : improvement) (l : list improvement),
             List.length (append_if b x l)
             = List.length l + (if b then 1 else 0)).
  { intros b x l. destruct b; cbn [append_if].
    - rewrite length_app. reflexivity.
    - lia. }
  rewrite L. f_equal.
  rewrite (length_flat_map_if
             (fun i => pystr_eqb focus_area (lat "all")
                       || pystr_eqb (category_name (i_type i)) focus_area)
             (fun i => Improvement (i_message i) (get_improvement_suggestion i)
                                   (i_type i) (i_severity i))).
  destruct (pystr_eqb focus_area (lat "all")).
  - cbn [orb]. unfold a. rewrite total_issues_analyze.
    rewrite (filter_all (fun _ : issue => true)); [reflexivity|].
    apply Forall_forall. intros; reflexivity.
  - cbn [orb].
    rewrite (filter_ext_eq _
               (fun i => match category_of focus_area with
                         | Some c' => category_eqb (i_type i) c'
                         | None => false
                         end)).
    2:{ intro i. apply focus_selects. }
    destruct (category_of focus_area) as [c|].
    + reflexivity.
    + rewrite (filter_none (fun _ : issue => false)); [reflexivity|].
      apply Forall_forall. intros; reflexivity.
Qed.

Lemma track_issues_log (now : nat -> Z) (l : list issue) :
  forall (k : nat) (self : analyzer),
  exists added,
    change_history (track_issues now k l self) = change_history self ++ added
    /\ map description added
       = map (fun i => lat "Style issue identified: " ++ i_message i) l
    /\ map timestamp added = map now (seq k (List.length l))
    /\ Forall (fun c => file_path c = lat "content_analysis"
                        /\ (1 <= line_number c)%Z) added.
Proof.
  induction l as [|i l IH]; intros k self.
  - exists []. cbn [track_issues map List.length seq]. rewrite app_nil_r.
    repeat split. constructor.
  - cbn [track_issues]. cbv zeta.
    destruct (IH (S k)
                (track_change (now k) (lat "content_analysis")
                   ((match i_position i with
                     | Some p => Z.of_nat p
                     | None => 0
                     end) / 50 + 1)%Z
                   (lat "Style issue identified: " ++ i_message i) self))
      as [added [H1 [H2 [H3 H4]]]].
    eexists (_ :: added). split; [|split; [|split]].
    + rewrite H1. cbn [track_change change_history]. rewrite <- app_assoc.
      reflexivity.
    + cbn [map description]. rewrite H2. reflexivity.
    + cbn [map timestamp List.length seq]. rewrite H3. reflexivity.
    + constructor; [|exact H4]. cbn [file_path line_number].
      split; [reflexivity|].
      assert (0 <= match i_position i with
                   | Some p => Z.of_nat p
                   | None => 0
                   end / 50)%Z; [|lia].
      apply Z.div_pos; [|lia]. destruct (i_position i); lia.
Qed.

(** X13.  The [analyze_content] tool only appends to the change log: for
    a text that is not blank it adds one entry per issue of the analysis,
    in the order of the issues, each for the file "content_analysis", with
    a line number of at least 1 and the description "Style issue
    identified: " followed by the message of the issue; for a blank text it
    adds nothing.  The number of updates that the change summary reports
    grows accordingly. *)
Theorem tool_logs_one_change_per_issue
        (now : nat -> Z) (text atype date : pystr) (self : analyzer) :
  let a := analyze_content self text atype in
  let self' := snd (analyze_content_tool now text atype self) in
  let logged := if nonempty (strip text) then issues a else [] in
  exists added,
    change_history self' = change_history self ++ added
    /\ map description added
       = map (fun i => lat "Style issue identified: " ++ i_message i) logged
    /\ Forall (fun c => file_path c = lat "content_analysis"
                        /\ (1 <= line_number c)%Z) added
    /\ us_total_updates (get_github_updates_summary date self')
       = us_total_updates (get_github_updates_summary date self)
         + List.length logged.
Proof.
  cbv zeta. unfold analyze_content_tool.
  destruct (nonempty (strip text)); cbn [negb snd].
  - destruct (track_issues_log now
                (issues (analyze_content self text atype)) 0 self)
      as [added [H1 [H2 [_ H4]]]].
    exists added. split; [exact H1|]. split; [exact H2|]. split; [exact H4|].
    unfold get_github_updates_summary. cbv zeta. cbn [us_total_updates].
    rewrite H1, length_app. f_equal.
    rewrite <- (length_map description added), H2, length_map. reflexivity.
  - exists []. rewrite app_nil_r. split; [reflexivity|].
    split; [reflexivity|]. split; [constructor|].
    cbn [List.length]. lia.
Qed.

Lemma starts_with_app (p s : pystr) : starts_with p (p ++ s) = true.
Proof.
  induction p as [|x p IH]; [reflexivity|].
  cbn [app starts_with]. rewrite pychar_eqb_refl, IH. reflexivity.
Qed.

Lemma starts_with_app_l (p a b : pystr) :
  starts_with p a = true -> starts_with p (a ++ b) = true.
Proof.
  revert a. induction p as [|x p IH]; intros a H; [reflexivity|].
  destruct a as [|y a]; [discriminate H|].
  cbn [app starts_with] in *. apply andb_true_iff in H. destruct H as [H1 H2].
  rewrite H1, (IH a H2). reflexivity.
Qed.

Lemma contains_cons (p : pystr) (c : pychar) (s : pystr) :
  contains p s = true -> contains p (c :: s) = true.
Proof.
  intro H. cbn [contains]. rewrite H. apply orb_true_r.
Qed.

Lemma contains_app_r (p a b : pystr) :
  contains p b = true -> contains p (a ++ b) = true.
Proof.
  intro H. induction a as [|c a IH]; [exact H|].
  cbn [app]. apply contains_cons. exact IH.
Qed.

Lemma contains_app_l (p a b : pystr) :
  contains p a = true -> contains p (a ++ b) = true.
Proof.
  induction a as [|c a IH]; intro H.
  - destruct p as [|x p]; [destruct b; reflexivity|].
    cbn in H. discriminate H.
  - cbn [app]. cbn [contains] in H. apply orb_true_iff in H.
    destruct H as [H|H].
    + pose proof (starts_with_app_l p (c :: a) b H) as H'. cbn [app] in H'.
      cbn [contains]. rewrite H'. reflexivity.
    + apply contains_cons. apply IH. exact H.
Qed.

Lemma starts_with_prefix (p q s : pystr) :
  starts_with (p ++ q) s = true -> starts_with p s = true.
Proof.
  revert s. induction p as [|x p IH]; intros s H; [reflexivity|].
  destruct s as [|y s]; [discriminate H|].
  cbn [app starts_with] in *. apply andb_true_iff in H. destruct H as [H1 H2].
  rewrite H1, (IH s H2). reflexivity.
Qed.

Lemma contains_prefix (p q s : pystr) :
  contains (p ++ q) s = true -> contains p s = true.
Proof.
  induction s as [|c s IH]; cbn [contains]; intro H.
  - rewrite orb_false_r in *. apply (starts_with_prefix p q). exact H.
  - apply orb_true_iff in H. destruct H as [H|H].
    + rewrite (starts_with_prefix p q _ H). reflexivity.
    + rewrite (IH H). apply orb_true_r.
Qed.

Lemma contains_self_app (p s : pystr) : contains p (p ++ s) = true.
Proof.
  pose proof (starts_with_app p s) as H.
  destruct (p ++ s) as [|c r]; cbn [contains]; rewrite H; reflexivity.
Qed.

Lemma contains_join (sep x : pystr) (l : list pystr) :
  In x l -> contains x (join sep l) = true.
Proof.
  induction l as [|y l IH]; intros H; [destruct H|].
  destruct H as [->|H].
  - destruct l as [|z l]; cbn [join].
    + rewrite <- (app_nil_r x) at 2. apply contains_self_app.
    + apply contains_self_app.
  - destruct l as [|z l]; [destruct H|].
    cbn [join]. apply contains_app_r, contains_app_r. apply IH. exact H.
Qed.

(** X14.  The change summary shows every tracked change: for each entry
    of the change log the text has the line "- " followed by its
    description, with " (line N)" when the line number is positive; when
    nothing was tracked it has "- No changes tracked in current session";
    and it always states the number of entries of the log. *)
Theorem updates_summary_shows_every_change (date : pystr) (self : analyzer) :
  let s := get_github_updates_summary date self in
  us_total_updates s = List.length (change_history self)
  /\ us_formatted_summary s = us_summary s
  /\ Forall (fun c =>
       contains (lat "- " ++ description c) (us_summary s) = true
       /\ ((0 < line_number c)%Z ->
           contains (lat "- " ++ description c ++ lat " (line "
                     ++ str_of_nat (Z.to_nat (line_number c)) ++ lat ")")
                    (us_summary s) = true))
       (change_history self)
  /\ (change_history self = [] ->
      contains (lat "- No changes tracked in current session") (us_summary s)
      = true)
  /\ contains (lat "**Total updates:** "
               ++ str_of_nat (List.length (change_history self)))
              (us_summary s) = true.
Proof.
  cbv zeta. unfold get_github_updates_summary. cbv zeta.
  cbn [us_total_updates us_formatted_summary us_summary].
  split; [reflexivity|]. split; [reflexivity|].
  assert (J : forall x,
             In x (or_default (map format_change (change_history self))
                     (lat "- No changes tracked in current session")) ->
             contains x
               (lat "**Summary of Changes for Microsoft Style Guide**" ++ newline
                ++ lat "**Date:** " ++ date ++ newline
                ++ lat "**Changes:**" ++ newline
                ++ join newline
                     (or_default (map format_change (change_history self))
                        (lat "- No changes tracked in current session"))
                ++ newline ++ newline
                ++ lat "**Total updates:** "
                ++ str_of_nat (List.length (change_history self))
                ++ newline ++ newline
                ++ Sym Clipboard :: lat " **For Pull Request:**" ++ newline
                ++ lat "Copy the summary above to include in your pull request description. This provides reviewers with a clear audit trail of all Microsoft Style Guide improvements made during your session.")
             = true).
  { intros x Hx. do 7 apply contains_app_r. apply contains_app_l.
    apply contains_join. exact Hx. }
  split; [|split].
  - apply Forall_forall. intros c Hc.
    assert (Hf : In (format_change c)
                    (or_default (map format_change (change_history self))
                       (lat "- No changes tracked in current session"))).
    { apply (in_map format_change) in Hc.
      destruct (map format_change (change_history self)); [destruct Hc|].
      exact Hc. }
    apply J in Hf. revert Hf.
    generalize (lat "**Summary of Changes for Microsoft Style Guide**" ++ newline
                ++ lat "**Date:** " ++ date ++ newline
                ++ lat "**Changes:**" ++ newline
                ++ join newline
                     (or_default (map format_change (change_history self))
                        (lat "- No changes tracked in current session"))
                ++ newline ++ newline
                ++ lat "**Total updates:** "
                ++ str_of_nat (List.length (change_history self))
                ++ newline ++ newline
                ++ Sym Clipboard :: lat " **For Pull Request:**" ++ newline
                ++ lat "Copy the summary above to include in your pull request description. This provides reviewers with a clear audit trail of all Microsoft Style Guide improvements made during your session.").
    intros S Hf. unfold format_change in Hf. cbv zeta in Hf.
    destruct (0 <? line_number c)%Z eqn:E.
    + split.
      * rewrite <- app_assoc in Hf. rewrite app_assoc in Hf.
        apply contains_prefix in Hf. exact Hf.
      * intros _. rewrite <- app_assoc in Hf. exact Hf.
    + split; [exact Hf|]. intro H. apply Z.ltb_lt in H. congruence.
  - intro E. apply J. rewrite E. left. reflexivity.
  - do 10 apply contains_app_r. rewrite app_assoc. apply contains_self_app.
Qed.

Lemma replace_space (q : pystr) :
  replace (lat " ") (lat "%20") q
  = flat_map (fun c => if pychar_eqb (L1 " "%char) c then lat "%20" else [c]) q.
Proof.
  unfold replace. induction q as [|c q IH]; [reflexivity|].
  cbn [replace_aux flat_map].
  change (starts_with (lat " ") (c :: q))
    with (pychar_eqb (L1 " "%char) c && true).
  rewrite andb_true_r.
  change (List.length (lat " ") - 1) with 0.
  destruct (pychar_eqb (L1 " "%char) c); rewrite IH; reflexivity.
Qed.

Lemma replace_space_free (q : pystr) :
  ~ In (L1 " "%char) (replace (lat " ") (lat "%20") q).
Proof.
  rewrite replace_space. intro H. apply in_flat_map in H.
  destruct H as [c [_ H]].
  destruct (pychar_eqb (L1 " "%char) c) eqn:E.
  - cbn in H. repeat (destruct H as [H|H]; [discriminate H|]). destruct H.
  - destruct H as [H|[]]. subst c. rewrite pychar_eqb_refl in E. discriminate E.
Qed.

Lemma replace_space_id (q : pystr) :
  ~ In (L1 " "%char) q -> replace (lat " ") (lat "%20") q = q.
Proof.
  rewrite replace_space. induction q as [|c q IH]; intro H; [reflexivity|].
  cbn [flat_map].
  destruct (pychar_eqb (L1 " "%char) c) eqn:E.
  - apply pychar_eqb_eq in E. exfalso. apply H. left. symmetry. exact E.
  - cbn [app]. rewrite IH; [reflexivity|]. intro H'. apply H. right. exact H'.
Qed.

(** X15.  The address that [search_style_guide] builds has no space when
    the base address has none: every space of the query becomes "%20".
    The fallback tool does not escape the query, so for a query that is
    not blank its address is the same exactly when the query has no
    space. *)
Theorem search_url_escapes_spaces (self : analyzer) (query : pystr) :
  ~ In (L1 " "%char) (style_guide_base_url self) ->
  ~ In (L1 " "%char) (search_url self query)
  /\ (search_style_guide_fallback self query = SearchOk query (search_url self query)
      <-> nonempty (strip query) = true /\ ~ In (L1 " "%char) query).
Proof.
  intro Hb. unfold search_url, search_style_guide_fallback. split.
  - intro H. apply in_app_or in H. destruct H as [H|H]; [exact (Hb H)|].
    apply in_app_or in H. destruct H as [H|H].
    + cbn in H. repeat (destruct H as [H|H]; [discriminate H|]). destruct H.
    + exact (replace_space_free query H).
  - destruct (nonempty (strip query)); cbn [negb].
    + split.
      * intro H. injection H as H. apply app_inv_head in H.
        apply (app_inv_head (lat "/?search=") query
                 (replace (lat " ") (lat "%20") query)) in H.
        split; [reflexivity|].
        rewrite H. apply replace_space_free.
      * intros [_ H]. rewrite (replace_space_id query H). reflexivity.
    + split; [intro H; discriminate H | intros [H _]; discriminate H].
Qed.

Lemma search_url_escapes_spaces_witness :
  ~ In (L1 " "%char) (search_url init (lat "active voice"))
  /\ (search_style_guide_fallback init (lat "active voice")
      = SearchOk (lat "active voice") (search_url init (lat "active voice"))
      <-> nonempty (strip (lat "active voice")) = true
          /\ ~ In (L1 " "%char) (lat "active voice")).
Proof.
  apply (search_url_escapes_spaces init (lat "active voice")).
  intro H. cbn in H.
  repeat (destruct H as [H|H]; [discriminate H|]). destruct H.
Defined.

(** *** What a pattern of literal words matches *)

Lemma mt_lit_chars {A : Type} (ic : bool) (l : list ascii) :
  forall (st : mstate) (k : mstate -> option A) (a : A),
    mt ic (lit_chars l) st k = Some a ->
    exists w s' pw',
      rest st = w ++ s'
      /\ Forall2 (fun c x => chr_matches ic c x = true) l w
      /\ k (MState pw' s' (pos st + List.length w) (caps st)) = Some a.
Proof.
  induction l as [|c l IH]; intros st k a H.
  - exists [], (rest st), (prev_word st). cbn [app List.length].
    split; [reflexivity|]. split; [constructor|].
    rewrite Nat.add_0_r. destruct st. exact H.
  - assert (H' : match rest st with
                 | x :: s' =>
                     if chr_matches ic c x
                     then mt ic (lit_chars l) (advance st x s') k
                     else None
                 | [] => None
                 end = Some a).
    { destruct l as [|c' l]; [|exact H].
      cbn [lit_chars mt] in *. exact H. }
    clear H. destruct (rest st) as [|x s1] eqn:E; [discriminate H'|].
    destruct (chr_matches ic c x) eqn:Ec; [|discriminate H'].
    apply IH in H'. destruct H' as [w [s' [pw' [H1 [H2 H3]]]]].
    cbn [advance rest pos caps] in *.
    exists (x :: w), s', pw'. split; [cbn [app]; rewrite H1; reflexivity|].
    split; [constructor; assumption|].
    cbn [List.length]. rewrite Nat.add_succ_r. exact H3.
Qed.

Lemma mt_words {A : Type} (ic : bool) (ws : list string) :
  forall (st : mstate) (k : mstate -> option A) (a : A),
    mt ic (words ws) st k = Some a ->
    exists w s' pw',
      rest st = w ++ s'
      /\ (ws = [] /\ w = []
          \/ exists word, In word ws
               /\ Forall2 (fun c x => chr_matches ic c x = true)
                          (list_ascii_of_string word) w)
      /\ k (MState pw' s' (pos st + List.length w) (caps st)) = Some a.
Proof.
  unfold words. induction ws as [|word ws IH]; intros st k a H.
  - exists [], (rest st), (prev_word st). cbn [app List.length].
    split; [reflexivity|]. split; [left; split; reflexivity|].
    rewrite Nat.add_0_r. destruct st. exact H.
  - assert (H' : mt ic (lit word) st k = Some a
                 \/ (ws <> [] /\ mt ic (alts (map lit ws)) st k = Some a)).
    { destruct ws as [|word' ws]; [left; exact H|].
      cbn [map alts] in H. cbn [mt] in H.
      destruct (mt ic (lit word) st k) eqn:E.
      - left. exact H.
      - right. split; [discriminate|exact H]. }
    clear H. destruct H' as [H|[Hn H]].
    + apply mt_lit_chars in H. destruct H as [w [s' [pw' [H1 [H2 H3]]]]].
      exists w, s', pw'. split; [exact H1|]. split; [|exact H3].
      right. exists word. split; [left; reflexivity|exact H2].
    + apply IH in H. destruct H as [w [s' [pw' [H1 [H2 H3]]]]].
      exists w, s', pw'. split; [exact H1|]. split; [|exact H3].
      destruct H2 as [[H2 _]|[word' [Hw H2]]]; [contradiction|].
      right. exists word'. split; [right; exact Hw|exact H2].
Qed.

(** A match of [\b(w1|w2|...)\b] at the head of [s] is one of the words,
    letter by letter. *)
Lemma match_here_words (ic : bool) (ws : list string) (pw : bool) (s : pystr)
      (i : nat) (m : rmatch) :
  match_here ic (seqs [WordB; Group 1 (words ws); WordB]) pw s i = Some m ->
  exists word w s',
    In word ws /\ s = w ++ s'
    /\ Forall2 (fun c x => chr_matches ic c x = true)
               (list_ascii_of_string word) w
    /\ m_start m = i /\ m_end m = i + List.length w.
Proof.
  unfold match_here. cbn [seqs mt prev_word rest pos caps].
  destruct (xorb pw (next_word s)); [|intro H; discriminate H].
  intro H. apply mt_words in H.
  destruct H as [w [s' [pw' [H1 [H2 H3]]]]].
  cbn [prev_word rest pos caps] in *.
  destruct (xorb pw' (next_word s')); [|discriminate H3].
  destruct (i <? i + List.length w) eqn:E; [|discriminate H3].
  injection H3 as <-. cbn [m_start m_end].
  destruct H2 as [[_ ->]|[word [Hw H2]]].
  - cbn [List.length] in E. rewrite Nat.add_0_r, Nat.ltb_irrefl in E.
    discriminate E.
  - exists word, w, s'. repeat split; assumption.
Qed.

(** Every match that [scan] returns is a match at some position of the
    text it reads. *)
Lemma scan_in (ic : bool) (r : regex) (m : rmatch) (s : pystr) :
  forall (pw : bool) (i skip : nat),
    In m (scan ic r pw s i skip) ->
    exists pre s' pw',
      s = pre ++ s' /\ match_here ic r pw' s' (i + List.length pre) = Some m.
Proof.
  induction s as [|x s IH]; intros pw i skip H; [destruct H|].
  cbn [scan] in H.
  assert (T : forall pw0 sk, In m (scan ic r pw0 s (S i) sk) ->
              exists pre s' pw',
                x :: s = pre ++ s'
                /\ match_here ic r pw' s' (i + List.length pre) = Some m).
  { intros pw0 sk H0. apply IH in H0.
    destruct H0 as [pre [s' [pw' [H1 H2]]]].
    exists (x :: pre), s', pw'. split; [cbn [app]; rewrite H1; reflexivity|].
    cbn [List.length]. rewrite Nat.add_succ_r. exact H2. }
  destruct skip as [|n]; [|apply (T _ _ H)].
  destruct (match_here ic r pw (x :: s) i) as [m0|] eqn:E; [|apply (T _ _ H)].
  destruct H as [<-|H]; [|apply (T _ _ H)].
  exists [], (x :: s), pw. split; [reflexivity|].
  cbn [List.length]. rewrite Nat.add_0_r. exact E.
Qed.

Lemma slice_middle (pre w s' : pystr) :
  slice (pre ++ w ++ s') (List.length pre) (List.length pre + List.length w) = w.
Proof.
  unfold slice.
  replace (List.length pre + List.length w - List.length pre)
    with (List.length w) by lia.
  rewrite skipn_app, Nat.sub_diag, skipn_all. cbn [skipn app].
  rewrite firstn_app, Nat.sub_diag, firstn_all. cbn [firstn].
  apply app_nil_r.
Qed.

(** The text of a match of [\b(w1|w2|...)\b] in a text. *)
Lemma finditer_words (ic : bool) (ws : list string) (text : pystr) (m : rmatch) :
  In m (finditer ic (seqs [WordB; Group 1 (words ws); WordB]) text) ->
  exists word,
    In word ws
    /\ Forall2 (fun c x => chr_matches ic c x = true)
               (list_ascii_of_string word) (group0 text m).
Proof.
  unfold finditer. intro H. apply scan_in in H.
  destruct H as [pre [s' [pw' [H1 H2]]]].
  apply match_here_words in H2.
  destruct H2 as [word [w [s'' [Hw [Hs [Hf [Hstart Hend]]]]]]].
  exists word. split; [exact Hw|].
  unfold group0. rewrite Hstart, Hend, H1, Hs. cbn [Nat.add].
  rewrite slice_middle. exact Hf.
Qed.

(** Under [re.IGNORECASE] a match of a lower-case word is the word in
    some casing. *)
Lemma lower_of_match (l : list ascii) (w : pystr) :
  Forall (fun c => lower_ascii c = c) l ->
  Forall2 (fun c x => chr_matches true c x = true) l w ->
  lower w = map L1 l.
Proof.
  intros Hl H. induction H as [|c x l w Hc _ IH]; [reflexivity|].
  inversion Hl as [|? ? Hc' Hl']; subst.
  cbn [lower map]. fold (lower w). rewrite (IH Hl'). f_equal.
  destruct x as [a|sy]; [|discriminate Hc].
  cbn [chr_matches] in Hc. apply Ascii.eqb_eq in Hc.
  cbn [lower_char]. rewrite Hc, Hc'. reflexivity.
Qed.

Lemma non_inclusive_match (text : pystr) (m : rmatch) :
  In m (finditer true Patterns.non_inclusive_terms text) ->
  In (lower (group0 text m)) non_inclusive_words.
Proof.
  intro H. apply finditer_words in H. destruct H as [word [Hw Hf]].
  unfold non_inclusive_words. apply in_map_iff. exists word.
  split; [|exact Hw].
  symmetry. apply lower_of_match; [|exact Hf].
  cbn [In] in Hw.
  repeat (destruct Hw as [<-|Hw]; [repeat constructor|]). destruct Hw.
Qed.


(** The two kinds of accessibility issues. *)
Lemma accessibility_block_in (text atype : pystr) (i : issue) :
  In i (accessibility_block init text atype) ->
  (exists m, In m (finditer true Patterns.non_inclusive_terms text)
             /\ i = Spec.non_inclusive_issue text m)
  \/ (i_severity i = warning
      /\ i_message i = lat "Consider gender-neutral alternatives").
Proof.
  unfold accessibility_block.
  destruct (mem_str atype [lat "comprehensive"; lat "accessibility"]);
    [|intros []].
  intro H. apply in_app_or in H.
  destruct H as [H|H]; apply in_map_iff in H; destruct H as [m [<- Hm]].
  - left. exists m. split; [exact Hm | reflexivity].
  - right. split; reflexivity.
Qed.






Lemma starts_with_in (p s : pystr) (c : pychar) :
  starts_with p s = true -> In c p -> In c s.
Proof.
  revert s. induction p as [|x p IH]; intros s H Hc; [destruct Hc|].
  destruct s as [|y s]; [discriminate H|].
  cbn [starts_with] in H. apply andb_true_iff in H. destruct H as [H1 H2].
  apply pychar_eqb_eq in H1. subst y.
  destruct Hc as [->|Hc]; [left; reflexivity|right; apply (IH s H2 Hc)].
Qed.

(** A string holds every character of the strings it contains. *)
Lemma contains_in (p s : pystr) (c : pychar) :
  contains p s = true -> In c p -> In c s.
Proof.
  induction s as [|y s IH]; cbn [contains]; intros H Hc.
  - rewrite orb_false_r in H. apply (starts_with_in p [] c H Hc).
  - apply orb_true_iff in H. destruct H as [H|H].
    + apply (starts_with_in p (y :: s) c H Hc).
    + right. apply (IH H Hc).
Qed.

Lemma lower_in (c : pychar) (w : pystr) :
  In c w -> In (lower_char c) (lower w).
Proof. intro H. apply (in_map lower_char). exact H. Qed.

Lemma voice_message_not_passive (text atype : pystr) :
  Forall (fun i => contains (lat "passive") (i_message i) = false)
         (fst (voice_tone_block init text atype)).
Proof.
  pose proof (voice_tone_block_cases init text atype) as H. cbv zeta in H.
  destruct (mem_str atype [lat "comprehensive"; lat "voice_tone"]).
  - rewrite H. destruct (0 <? _); repeat constructor.
  - rewrite H. constructor.
Qed.

Lemma grammar_message_not_passive (text atype : pystr) :
  Forall (fun i => contains (lat "passive") (i_message i) = false)
         (grammar_block init text atype).
Proof.
  apply Forall_forall. intros i Hi.
  destruct (grammar_block_message init text atype i Hi) as [E|E];
    rewrite E; reflexivity.
Qed.

Lemma terminology_message_not_passive (text atype : pystr) :
  Forall (fun i => contains (lat "passive") (i_message i) = false)
         (terminology_block init text atype).
Proof.
  rewrite terminology_block_init.
  destruct (mem_str atype [lat "comprehensive"; lat "terminology"]);
    [|constructor].
  cbn [flat_map].
  repeat (apply Forall_app; split);
    try match goal with
        | |- Forall _ (if ?b then _ else _) =>
            destruct b; repeat constructor
        end.
  constructor.
Qed.

(** None of the nine words has the letter p. *)
Lemma non_inclusive_word_has_no_p (w : pystr) :
  In w non_inclusive_words -> ~ In (L1 "p"%char) w.
Proof.
  unfold non_inclusive_words. cbn [map In]. intros Hw E.
  repeat (destruct Hw as [<-|Hw];
          [vm_compute in E;
           repeat (destruct E as [E|E]; [discriminate E|]); destruct E|]).
  destruct Hw.
Qed.

Lemma accessibility_message_not_passive (text atype : pystr) :
  Forall (fun i => contains (lat "passive") (i_message i) = false)
         (accessibility_block init text atype).
Proof.
  apply Forall_forall. intros i Hi.
  apply accessibility_block_in in Hi.
  destruct Hi as [[m [Hm ->]]|[_ E]]; [|rewrite E; reflexivity].
  destruct (contains (lat "passive") (i_message (Spec.non_inclusive_issue text m)))
    eqn:E; [|reflexivity].
  exfalso.
  assert (Hp : In (L1 "p"%char) (i_message (Spec.non_inclusive_issue text m))).
  { apply (contains_in (lat "passive") _ (L1 "p"%char) E). left. reflexivity. }
  clear E. unfold Spec.non_inclusive_issue in Hp. cbn [i_message] in Hp.
  apply in_app_or in Hp. destruct Hp as [Hp|Hp].
  { destruct Hp as [Hp|[]]. discriminate Hp. }
  apply in_app_or in Hp. destruct Hp as [Hp|Hp].
  - apply lower_in in Hp.
    apply (non_inclusive_word_has_no_p _ (non_inclusive_match text m Hm)).
    exact Hp.
  - vm_compute in Hp.
    repeat (destruct Hp as [Hp|Hp]; [discriminate Hp|]). destruct Hp.
Qed.

(** No message of the built-in analyzer holds the word "passive". *)
Lemma no_message_says_passive (text atype : pystr) :
  Forall (fun i => contains (lat "passive") (i_message i) = false)
         (issues (analyze_content init text atype)).
Proof.
  rewrite issues_analyze.
  apply Forall_app. split; [apply voice_message_not_passive|].
  apply Forall_app. split; [apply grammar_message_not_passive|].
  apply Forall_app. split; [apply terminology_message_not_passive|].
  apply accessibility_message_not_passive.
Qed.

(** X18.  The executive summary of the built-in analyzer never reports
    "Excessive passive voice usage affects clarity": the issues are
    counted by the word "passive" in their message, and no message has it
    (a passive construction is reported as "Consider using active voice for
    clarity"). *)
Theorem passive_voice_is_never_a_critical_issue (text atype : pystr) :
  let a := analyze_content init text atype in
  List.length (filter (fun i => contains (lat "passive") (i_message i)) (issues a))
  = 0
  /\ ~ In critical_passive (identify_critical_issues a).
Proof.
  cbv zeta.
  assert (E : filter (fun i => contains (lat "passive") (i_message i))
                     (issues (analyze_content init text atype)) = []).
  { apply filter_none. apply no_message_says_passive. }
  split; [rewrite E; reflexivity|].
  unfold identify_critical_issues. cbv zeta. rewrite E.
  cbn [List.length Nat.ltb Nat.leb].
  set (errs := filter _ (issues (analyze_content init text atype))).
  destruct (nonempty errs);
    destruct (py_gt _ (PInt 30));
    cbn [append_if app firstn or_default In];
    intro H;
    repeat (destruct H as [H|H];
            [first [ discriminate H
                   | vm_compute in H; discriminate H ]|]);
    destruct H.
Qed.

Lemma py_min_le_r (x y : pynum) : (value (py_min x y) <= value y)%Q.
Proof.
  unfold py_min. destruct (py_lt y x) eqn:E; [apply Qle_refl|].
  apply Qnot_lt_le. intro H. apply py_lt_iff in H. congruence.
Qed.

(** X19.  The user-experience score lies between 0 and 8: its three
    parts are capped at 3, 3 and 2, so the final [min(10, ...)] never cuts
    and a score of 10 cannot be reached. *)
Theorem ux_score_between_0_and_8 (document_text target_audience : pystr) :
  let r := review_user_experience document_text target_audience in
  py_le (PInt 0) (ux_score r) = true /\ py_le (ux_score r) (PInt 8) = true.
Proof.
  cbv zeta. unfold review_user_experience. cbv zeta. cbn [ux_score].
  set (b1 := py_min (py_mul (of_nat (count true action_verbs_pattern document_text))
                            f_0_5) (PInt 3)).
  set (b2 := py_min (py_mul (of_nat (count true error_prevention_pattern
                                            document_text)) (PInt 1)) (PInt 3)).
  set (b3 := py_min (py_mul (of_nat (count true examples_pattern document_text))
                            (PInt 1)) (PInt 2)).
  assert (L1 : (0 <= value b1)%Q).
  { apply bonus_nonneg; vm_compute; discriminate. }
  assert (L2 : (0 <= value b2)%Q).
  { apply bonus_nonneg; vm_compute; discriminate. }
  assert (L3 : (0 <= value b3)%Q).
  { apply bonus_nonneg; vm_compute; discriminate. }
  assert (U1 : (value b1 <= 3)%Q) by apply py_min_le_r.
  assert (U2 : (value b2 <= 3)%Q) by apply py_min_le_r.
  assert (U3 : (value b3 <= 2)%Q) by apply py_min_le_r.
  clearbody b1 b2 b3.
  assert (L : (0 <= value (py_add (py_add (py_add (PInt 0) b1) b2) b3))%Q).
  { apply py_add_ge; [reflexivity| |exact L3].
    apply py_add_ge; [reflexivity| |exact L2].
    apply py_add_ge; [reflexivity| |exact L1].
    apply Qle_refl. }
  assert (U : (value (py_add (py_add (py_add (PInt 0) b1) b2) b3) <= 8)%Q).
  { change 8%Q with (6 + 2)%Q.
    apply py_add_le; [reflexivity..| |exact U3].
    change 6%Q with (3 + 3)%Q.
    apply py_add_le; [reflexivity..| |exact U2].
    change 3%Q with (0 + 3)%Q.
    apply py_add_le; [reflexivity..| |exact U1].
    apply Qle_refl. }
  set (s := py_add (py_add (py_add (PInt 0) b1) b2) b3) in *.
  assert (E : py_min (PInt 10) s = s).
  { unfold py_min. replace (py_lt s (PInt 10)) with true; [reflexivity|].
    symmetry. apply py_lt_iff. cbn [value].
    apply (Qle_lt_trans _ 8); [exact U|]. reflexivity. }
  rewrite E. split; apply py_le_iff; cbn [value]; assumption.
Qed.

(** X20.  The compliance review agrees with the quality scores of the
    same analysis: terminology complies exactly when the compliance score
    is 10, accessibility complies exactly when the accessibility score is
    10, and the overall compliance is "Needs Improvement" exactly when one
    of the two fails. *)
Theorem compliance_review_agrees_with_scores
        (self : analyzer) (a : analysis) (text : pystr) :
  let c := review_compliance a in
  let qs := calculate_quality_scores self a text in
  (co_terminology_compliance c = true <-> Qeq (value (q_compliance qs)) 10)
  /\ (co_accessibility_compliance c = true <-> Qeq (value (q_accessibility qs)) 10)
  /\ (co_overall_compliance c = lat "Needs Improvement"
      <-> co_terminology_compliance c = false
          \/ co_accessibility_compliance c = false)
  /\ List.length (co_compliance_issues c)
     = count_type terminology (issues a) + count_type accessibility (issues a).
Proof.
  cbv zeta. rewrite calculate_quality_scores_spec.
  cbn [q_compliance q_accessibility].
  unfold review_compliance. cbv zeta.
  cbn [co_terminology_compliance co_accessibility_compliance
       co_overall_compliance co_compliance_issues].
  fold (count_type terminology (issues a)).
  fold (count_type accessibility (issues a)).
  set (t := count_type terminology (issues a)).
  set (x := count_type accessibility (issues a)).
  pose proof (compliance_score_value t) as Ht.
  pose proof (accessibility_score_value x) as Hx.
  split; [|split; [|split]].
  - rewrite Ht. change 10%Q with (inject_Z 10). rewrite inject_Z_injective.
    rewrite Nat.eqb_eq. lia.
  - rewrite Hx. change 10%Q with (inject_Z 10). rewrite inject_Z_injective.
    rewrite Nat.eqb_eq. lia.
  - destruct (3 <? List.length (issues a));
      destruct t as [|t], x as [|x]; cbn [Nat.ltb Nat.leb Nat.eqb orb];
      split; intro H; auto;
      first [ vm_compute in H; discriminate H
            | destruct H as [H|H]; discriminate H ].
  - rewrite length_app. reflexivity.
Qed.

(** The issues of one category of an analysis are those of its block. *)
Lemma voice_issues_analyze (self : analyzer) (text atype : pystr) :
  filter (fun i => category_eqb (i_type i) voice_tone)
         (issues (analyze_content self text atype))
  = fst (voice_tone_block self text atype).
Proof.
  rewrite issues_analyze. rewrite !filter_app.
  rewrite (filter_all _ (fst (voice_tone_block self text atype))).
  2:{ eapply Forall_impl; [|apply voice_tone_block_type].
      intros i Hi. cbv beta in Hi. rewrite Hi. reflexivity. }
  rewrite (filter_none _ (grammar_block self text atype)).
  2:{ eapply Forall_impl; [|apply grammar_block_type].
      intros i Hi. cbv beta in Hi. rewrite Hi. reflexivity. }
  rewrite (filter_none _ (terminology_block self text atype)).
  2:{ eapply Forall_impl; [|apply terminology_block_type].
      intros i Hi. cbv beta in Hi. rewrite Hi. reflexivity. }
  rewrite (filter_none _ (accessibility_block self text atype)).
  2:{ eapply Forall_impl; [|apply accessibility_block_type].
      intros i Hi. cbv beta in Hi. rewrite Hi. reflexivity. }
  rewrite !app_nil_r. reflexivity.
Qed.

Lemma grammar_issues_analyze (self : analyzer) (text atype : pystr) :
  filter (fun i => category_eqb (i_type i) grammar)
         (issues (analyze_content self text atype))
  = grammar_block self text atype.
Proof.
  rewrite issues_analyze. rewrite !filter_app.
  rewrite (filter_none _ (fst (voice_tone_block self text atype))).
  2:{ eapply Forall_impl; [|apply voice_tone_block_type].
      intros i Hi. cbv beta in Hi. rewrite Hi. reflexivity. }
  rewrite (filter_all _ (grammar_block self text atype)).
  2:{ eapply Forall_impl; [|apply grammar_block_type].
      intros i Hi. cbv beta in Hi. rewrite Hi. reflexivity. }
  rewrite (filter_none _ (terminology_block self text atype)).
  2:{ eapply Forall_impl; [|apply terminology_block_type].
      intros i Hi. cbv beta in Hi. rewrite Hi. reflexivity. }
  rewrite (filter_none _ (accessibility_block self text atype)).
  2:{ eapply Forall_impl; [|apply accessibility_block_type].
      intros i Hi. cbv beta in Hi. rewrite Hi. reflexivity. }
  rewrite !app_nil_r. reflexivity.
Qed.

(** X21.  The voice and tone review of a document agrees with its
    comprehensive analysis: "warm and relaxed" is "Good" exactly when the
    analysis has no voice_tone issue, and the analysis has one suggestion
    for each of "warm and relaxed" and "ready to help" that is "Good". *)
Theorem voice_review_agrees_with_analysis (self : analyzer) (text : pystr) :
  let a := analyze_content self text (lat "comprehensive") in
  let v := review_voice_tone self a text in
  (vt_warm_and_relaxed v = label_good <-> vt_issues v = [])
  /\ (vt_warm_and_relaxed v = label_good <-> 0 < vt_contractions_found v)
  /\ (vt_ready_to_help v = label_good <-> 0 < vt_direct_address_count v)
  /\ List.length (suggestions a)
     = (if 0 <? vt_contractions_found v then 1 else 0)
       + (if 0 <? vt_direct_address_count v then 1 else 0).
Proof.
  cbv zeta. unfold review_voice_tone. cbv zeta.
  cbn [vt_warm_and_relaxed vt_ready_to_help vt_issues vt_contractions_found
       vt_direct_address_count].
  rewrite voice_issues_analyze, suggestions_analyze.
  unfold voice_tone_block.
  change (mem_str (lat "comprehensive") [lat "comprehensive"; lat "voice_tone"])
    with true. cbv iota zeta.
  set (c := count true (p_contractions (patterns self)) text).
  set (y := count true (p_you_addressing (patterns self)) text).
  destruct c as [|c], y as [|y]; cbn [Nat.ltb Nat.leb fst snd app List.length];
    repeat split; intro H;
    first [ reflexivity | lia | discriminate H | vm_compute in H; discriminate H ].
Qed.

(** X22.  The clarity review of a document agrees with its comprehensive
    analysis: the analysis has one grammar issue for each passive
    construction and each long sentence that the review counts, so a
    readability level "Good" means at most two grammar issues. *)
Theorem clarity_review_agrees_with_analysis (self : analyzer) (text : pystr) :
  let a := analyze_content self text (lat "comprehensive") in
  let c := review_clarity self a text in
  List.length (cl_clarity_issues c)
  = cl_passive_voice_instances c + cl_long_sentences c
  /\ (cl_readability_level c = lat "Good"
      <-> cl_passive_voice_instances c <= 2 /\ cl_long_sentences c = 0)
  /\ (cl_readability_level c = lat "Good" ->
      List.length (cl_clarity_issues c) <= 2).
Proof.
  cbv zeta. unfold review_clarity. cbv zeta.
  cbn [cl_clarity_issues cl_passive_voice_instances cl_long_sentences
       cl_readability_level].
  rewrite grammar_issues_analyze. unfold grammar_block.
  change (mem_str (lat "comprehensive") [lat "comprehensive"; lat "grammar"])
    with true. cbv iota.
  rewrite length_app, !length_map. unfold count.
  set (p := List.length (finditer true (p_passive_voice (patterns self)) text)).
  set (l := List.length (finditer false (p_long_sentences (patterns self)) text)).
  assert (E : (p <=? 2) && (l =? 0) = true <-> p <= 2 /\ l = 0).
  { rewrite andb_true_iff, Nat.leb_le, Nat.eqb_eq. reflexivity. }
  split; [reflexivity|].
  destruct ((p <=? 2) && (l =? 0)).
  - split; [split; [intros _; apply E; reflexivity | reflexivity]|].
    intros _. assert (p <= 2 /\ l = 0) by (apply E; reflexivity). lia.
  - split; [split|]; intro H.
    + vm_compute in H. discriminate H.
    + apply E in H. discriminate H.
    + vm_compute in H. discriminate H.
Qed.

Lemma bump_new (c : category) (acc : list (category * nat)) :
  Forall (fun e => category_eqb (fst e) c = false) acc ->
  bump c acc = acc ++ [(c, 1)].
Proof.
  induction 1 as [|[c' n] acc Hc _ IH]; [reflexivity|].
  cbn [bump app]. cbn [fst] in Hc. rewrite Hc, IH. reflexivity.
Qed.

Lemma bump_last (c : category) (n : nat) (acc : list (category * nat)) :
  Forall (fun e => category_eqb (fst e) c = false) acc ->
  bump c (acc ++ [(c, n)]) = acc ++ [(c, S n)].
Proof.
  induction 1 as [|[c' k] acc Hc _ IH].
  - cbn [app bump]. destruct c; reflexivity.
  - cbn [bump app]. cbn [fst] in Hc. rewrite Hc, IH. reflexivity.
Qed.

Lemma fold_bump_more (c : category) (l : list issue) (acc : list (category * nat)) :
  Forall (fun i => i_type i = c) l ->
  Forall (fun e => category_eqb (fst e) c = false) acc ->
  forall n,
    fold_left (fun acc i => bump (i_type i) acc) l (acc ++ [(c, n)])
    = acc ++ [(c, n + List.length l)].
Proof.
  intros Hl Hacc. induction Hl as [|i l Hi _ IH]; intro n.
  - cbn [fold_left List.length]. rewrite Nat.add_0_r. reflexivity.
  - cbn [fold_left List.length]. rewrite Hi, (bump_last c n acc Hacc), IH.
    rewrite Nat.add_succ_r. reflexivity.
Qed.

(** A run of issues of one category that the dictionary does not hold yet
    adds one key, after the others, with the length of the run. *)
Lemma fold_bump_run (c : category) (l : list issue) (acc : list (category * nat)) :
  Forall (fun i => i_type i = c) l ->
  Forall (fun e => category_eqb (fst e) c = false) acc ->
  fold_left (fun acc i => bump (i_type i) acc) l acc
  = if 0 <? List.length l then acc ++ [(c, List.length l)] else acc.
Proof.
  intros Hl Hacc. destruct l as [|i l]; [reflexivity|].
  inversion Hl as [|? ? Hi Hl']; subst. cbn [fold_left].
  rewrite (bump_new (i_type i) acc Hacc).
  rewrite (fold_bump_more (i_type i) l acc Hl' Hacc 1). reflexivity.
Qed.

(** The dictionary of the issue counts that the tool builds for its
    summary: the categories in the order voice_tone, grammar, terminology,
    accessibility, each with the number of its issues, a category without
    an issue left out. *)
Lemma issues_by_type_analyze (self : analyzer) (text atype : pystr) :
  let a := analyze_content self text atype in
  issues_by_type (issues a)
  = filter (fun e => 0 <? snd e)
      [(voice_tone, count_type voice_tone (issues a));
       (grammar, count_type grammar (issues a));
       (terminology, count_type terminology (issues a));
       (accessibility, count_type accessibility (issues a))].
Proof.
  cbv zeta.
  rewrite count_voice_tone, count_grammar, count_terminology, count_accessibility.
  unfold issues_by_type. rewrite issues_analyze. rewrite !fold_left_app.
  pose proof (voice_tone_block_type self text atype) as Hv.
  pose proof (grammar_block_type self text atype) as Hg.
  pose proof (terminology_block_type self text atype) as Ht.
  pose proof (accessibility_block_type self text atype) as Hx.
  revert Hv Hg Ht Hx.
  generalize (fst (voice_tone_block self text atype)) as v.
  generalize (grammar_block self text atype) as g.
  generalize (terminology_block self text atype) as t.
  generalize (accessibility_block self text atype) as x.
  intros x t g v Hv Hg Ht Hx.
  rewrite (fold_bump_run voice_tone v [] Hv); [|constructor].
  cbn [filter snd].
  destruct (0 <? List.length v);
    (rewrite (fold_bump_run grammar g _ Hg); [|repeat constructor]);
    destruct (0 <? List.length g);
    (rewrite (fold_bump_run terminology t _ Ht); [|repeat constructor]);
    destruct (0 <? List.length t);
    (rewrite (fold_bump_run accessibility x _ Hx); [|repeat constructor]);
    destruct (0 <? List.length x); reflexivity.
Qed.

Lemma category_label (c : category) :
  title (replace (lat "_") (lat " ") (category_name c))
  = lat match c with
        | voice_tone => "Voice Tone"
        | grammar => "Grammar"
        | terminology => "Terminology"
        | accessibility => "Accessibility"
        end.
Proof. destruct c; reflexivity. Qed.

(** X23.  The summary that the [analyze_content] tool returns is the
    heading, the status and the assessment, the three statistics and the
    number of issues; then one line for each category that has an issue,
    in the order "Voice Tone", "Grammar", "Terminology", "Accessibility",
    with the number of issues of the category; then the number of
    suggestions when there is one; then the address of the guidelines. *)
Theorem summary_lists_issue_counts_by_category
        (self : analyzer) (text atype : pystr) :
  let a := analyze_content self text atype in
  summary_of a
  = (Sym Clipboard :: lat " Microsoft Style Guide Analysis") ++ nl ++ nl
    ++ status a ++ lat " - " ++ assessment a ++ nl ++ nl
    ++ (Sym BarChart :: lat " **Text Statistics:**") ++ nl
    ++ lat "   " ++ (Sym Bullet :: lat " Words: ")
    ++ str_of_nat (word_count (stats a)) ++ nl
    ++ lat "   " ++ (Sym Bullet :: lat " Sentences: ")
    ++ str_of_nat (sentence_count (stats a)) ++ nl
    ++ lat "   " ++ (Sym Bullet :: lat " Avg words/sentence: ")
    ++ repr_num (avg_words_per_sentence (stats a)) ++ nl ++ nl
    ++ (Sym Magnifier :: lat " **Issues Found:** ")
    ++ str_of_nat (List.length (issues a))
    ++ flat_map (fun e : string * nat =>
                   nl ++ lat "   " ++ (Sym Bullet :: lat " ") ++ lat (fst e)
                   ++ lat ": " ++ str_of_nat (snd e))
         (filter (fun e => 0 <? snd e)
            [("Voice Tone"%string, count_type voice_tone (issues a));
             ("Grammar"%string, count_type grammar (issues a));
             ("Terminology"%string, count_type terminology (issues a));
             ("Accessibility"%string, count_type accessibility (issues a))])
    ++ (if 0 <? List.length (suggestions a)
        then nl ++ nl ++ (Sym CheckMark :: lat " **Positive Elements:** ")
             ++ str_of_nat (List.length (suggestions a))
        else [])
    ++ nl ++ nl ++ (Sym Globe :: lat " **Official Guidelines:** ")
    ++ style_guide_base_url self.
Proof.
  cbv zeta. unfold summary_of. cbv zeta.
  rewrite (issues_by_type_analyze self text atype).
  rewrite total_issues_analyze.
  assert (U : style_guide_url (analyze_content self text atype)
              = style_guide_base_url self).
  { unfold analyze_content.
    match goal with
    | |- context [if ?b then _ else if ?c then _ else _] =>
        destruct b; [|destruct c]; reflexivity
    end. }
  rewrite U.
  generalize (status (analyze_content self text atype)) as st.
  generalize (assessment (analyze_content self text atype)) as asmt.
  generalize (str_of_nat (word_count (stats (analyze_content self text atype)))) as w.
  generalize (str_of_nat (sentence_count (stats (analyze_content self text atype)))) as sc.
  generalize (repr_num (avg_words_per_sentence (stats (analyze_content self text atype)))) as av.
  generalize (str_of_nat (List.length (issues (analyze_content self text atype)))) as tot.
  generalize (count_type voice_tone (issues (analyze_content self text atype))) as nv.
  generalize (count_type grammar (issues (analyze_content self text atype))) as ng.
  generalize (count_type terminology (issues (analyze_content self text atype))) as nt.
  generalize (count_type accessibility (issues (analyze_content self text atype))) as na.
  generalize (suggestions (analyze_content self text atype)) as sg.
  generalize (style_guide_base_url self) as url.
  intros url sg na nt ng nv tot av sc w asmt st.
  cbn [filter snd].
  destruct (0 <? nv); destruct (0 <? ng); destruct (0 <? nt); destruct (0 <? na);
    cbn [flat_map fst snd]; rewrite ?category_label;
    destruct sg as [|s0 sg]; cbn [nonempty List.length Nat.ltb Nat.leb];
    repeat first [ rewrite <- app_assoc | rewrite app_nil_r
                 | progress cbn [app] ];
    reflexivity.
Qed.

Lemma count_tokens_blank (s : pystr) (b : bool) :
  forallb is_space s = true -> Spec.count_tokens b s = 0.
Proof.
  revert b. induction s as [|c s IH]; intros b H; [reflexivity|].
  cbn [forallb] in H. apply andb_true_iff in H. destruct H as [H1 H2].
  cbn [Spec.count_tokens]. rewrite H1. apply IH. exact H2.
Qed.

Lemma count_tokens_not_blank (s : pystr) :
  forallb is_space s = false -> 1 <= Spec.count_tokens false s.
Proof.
  induction s as [|c s IH]; intro H; [discriminate H|].
  cbn [forallb] in H. cbn [Spec.count_tokens].
  destruct (is_space c); [apply IH; exact H | lia].
Qed.

(** X24.  The [analyze_content] tool rejects exactly the texts without a
    word: a text that it analyses has at least one word, and a text that it
    rejects would have none; a rejected text leaves the analyzer as it
    was. *)
Theorem tool_rejects_exactly_the_texts_without_a_word
        (now : nat -> Z) (text atype : pystr) (self : analyzer) :
  match analyze_content_tool now text atype self with
  | (ToolError _, self') =>
      word_count (stats (analyze_content self text atype)) = 0 /\ self' = self
  | (ToolOk _ a, _) =>
      a = analyze_content self text atype /\ 1 <= word_count (stats a)
  end.
Proof.
  unfold analyze_content_tool.
  assert (W : word_count (stats (analyze_content self text atype))
              = Spec.count_tokens false text).
  { rewrite stats_analyze. cbv zeta. cbn [word_count]. apply split_ws_length. }
  destruct (nonempty (strip text)) eqn:E; cbn [negb].
  - split; [reflexivity|]. rewrite W. apply count_tokens_not_blank.
    destruct (forallb is_space text) eqn:B; [|reflexivity].
    apply strip_nil_iff in B. rewrite B in E. discriminate E.
  - split; [|reflexivity]. rewrite W. apply count_tokens_blank.
    apply strip_nil_iff. destruct (strip text); [reflexivity|discriminate E].
Qed.

(** *** Where the matches lie *)

Lemma mstar_result {A : Type} (p : pychar -> bool) (k : mstate -> option A)
      (s : pystr) (a : A) :
  forall (pw : bool) (i : nat) (cs : list (nat * (nat * nat))),
    mstar p k pw s i cs = Some a -> exists st', k st' = Some a.
Proof.
  induction s as [|x s IH]; intros pw i cs H; cbn [mstar] in H.
  - eexists. exact H.
  - destruct (p x); [|eexists; exact H].
    destruct (mstar p k (is_word x) s (S i) cs) eqn:E.
    + injection H as ->. apply (IH _ _ _ E).
    + eexists. exact H.
Qed.

(** A successful match ends in a call of its continuation. *)
Lemma mt_result {A : Type} (ic : bool) (r : regex) :
  forall (st : mstate) (k : mstate -> option A) (a : A),
    mt ic r st k = Some a -> exists st', k st' = Some a.
Proof.
  induction r as [c|p|p| | |r1 IH1 r2 IH2|r1 IH1 r2 IH2|n r1 IH1];
    intros st k a H; cbn [mt] in H.
  - destruct (rest st) as [|x s']; [discriminate H|].
    destruct (chr_matches ic c x); [eexists; exact H|discriminate H].
  - destruct (rest st) as [|x s']; [discriminate H|].
    destruct (p x); [eexists; exact H|discriminate H].
  - apply (mstar_result p k _ a _ _ _ H).
  - destruct (xorb _ _); [eexists; exact H|discriminate H].
  - eexists. exact H.
  - apply IH1 in H. destruct H as [st1 H]. apply IH2 in H. exact H.
  - destruct (mt ic r1 st k) eqn:E.
    + injection H as ->. apply (IH1 _ _ _ E).
    + apply (IH2 _ _ _ H).
  - apply IH1 in H. destruct H as [st1 H]. eexists. exact H.
Qed.

Lemma match_here_start (ic : bool) (r : regex) (pw : bool) (s : pystr)
      (i : nat) (m : rmatch) :
  match_here ic r pw s i = Some m -> m_start m = i /\ i < m_end m.
Proof.
  unfold match_here. intro H. apply mt_result in H. destruct H as [st' H].
  destruct (i <? pos st') eqn:E; [|discriminate H].
  injection H as <-. cbn [m_start m_end]. apply Nat.ltb_lt in E.
  split; [reflexivity|exact E].
Qed.

(** The matches of [finditer] start inside the text and are not empty. *)
Lemma scan_start (ic : bool) (r : regex) (m : rmatch) (s : pystr) :
  forall (pw : bool) (i skip : nat),
    In m (scan ic r pw s i skip) ->
    i <= m_start m < i + List.length s /\ m_start m < m_end m.
Proof.
  induction s as [|x s IH]; intros pw i skip H; [destruct H|].
  cbn [scan] in H. cbn [List.length].
  assert (T : forall pw0 sk, In m (scan ic r pw0 s (S i) sk) ->
              i <= m_start m < i + S (List.length s) /\ m_start m < m_end m).
  { intros pw0 sk H0. apply IH in H0. lia. }
  destruct skip as [|n]; [|apply (T _ _ H)].
  destruct (match_here ic r pw (x :: s) i) as [m0|] eqn:E; [|apply (T _ _ H)].
  destruct H as [<-|H]; [|apply (T _ _ H)].
  apply match_here_start in E. lia.
Qed.

Lemma finditer_start (ic : bool) (r : regex) (text : pystr) (m : rmatch) :
  In m (finditer ic r text) -> m_start m < List.length text.
Proof.
  unfold finditer. intro H. apply scan_start in H. lia.
Qed.

(** The change log after the tool's loop. *)
Lemma track_issues_history (now : nat -> Z) (l : list issue) :
  forall (k : nat) (self : analyzer),
    change_history (track_issues now k l self)
    = change_history self
      ++ map (fun e : nat * issue =>
                ChangeEntry (now (fst e)) (lat "content_analysis")
                  (match i_position (snd e) with
                   | Some p => Z.of_nat p
                   | None => 0
                   end / 50 + 1)%Z
                  (lat "Style issue identified: " ++ i_message (snd e)))
             (combine (seq k (List.length l)) l).
Proof.
  induction l as [|i l IH]; intros k self.
  - cbn. rewrite app_nil_r. reflexivity.
  - cbn [track_issues]. cbv zeta. rewrite IH.
    cbn [track_change change_history List.length seq combine map fst snd].
    rewrite <- app_assoc. reflexivity.
Qed.

Lemma issue_position_in_text (self : analyzer) (text atype : pystr) :
  Forall (fun i => match i_position i with
                   | Some p => p < List.length text
                   | None => True
                   end)
         (issues (analyze_content self text atype)).
Proof.
  rewrite issues_analyze.
  apply Forall_app. split.
  { pose proof (voice_tone_block_cases self text atype) as H. cbv zeta in H.
    destruct (mem_str atype [lat "comprehensive"; lat "voice_tone"]).
    - rewrite H. destruct (0 <? _); repeat constructor.
    - rewrite H. constructor. }
  apply Forall_app. split.
  { unfold grammar_block.
    destruct (mem_str atype [lat "comprehensive"; lat "grammar"]);
      [|constructor].
    apply Forall_app. split; apply Forall_map, Forall_forall; intros m Hm;
      cbn [i_position]; apply (finditer_start _ _ _ _ Hm). }
  apply Forall_app. split.
  { apply Forall_forall. intros i Hi. apply terminology_block_in in Hi.
    destruct Hi as [entry [t [_ [_ [_ ->]]]]]. exact I. }
  unfold accessibility_block.
  destruct (mem_str atype [lat "comprehensive"; lat "accessibility"]);
    [|constructor].
  apply Forall_app. split; apply Forall_map, Forall_forall; intros m Hm;
    cbn [i_position]; apply (finditer_start _ _ _ _ Hm).
Qed.

(** X25.  The position of an issue lies inside the text, so the line
    numbers that the [analyze_content] tool logs, one line for every 50
    characters, lie between 1 and (len(text) - 1) // 50 + 1. *)
Theorem logged_line_numbers_lie_in_the_text
        (now : nat -> Z) (text atype : pystr) (self : analyzer) :
  let a := analyze_content self text atype in
  let self' := snd (analyze_content_tool now text atype self) in
  Forall (fun i => forall p, i_position i = Some p -> p < List.length text)
         (issues a)
  /\ Forall (fun c => (1 <= line_number c
                       <= (Z.of_nat (List.length text) - 1) / 50 + 1)%Z)
            (skipn (List.length (change_history self)) (change_history self')).
Proof.
  cbv zeta. pose proof (issue_position_in_text self text atype) as P.
  split.
  { eapply Forall_impl; [|exact P]. intros i Hi p Hp. cbv beta in Hi.
    rewrite Hp in Hi. exact Hi. }
  unfold analyze_content_tool.
  destruct (nonempty (strip text)) eqn:E; cbn [negb snd].
  2:{ rewrite skipn_all. constructor. }
  rewrite track_issues_history.
  rewrite skipn_app, skipn_all, Nat.sub_diag. cbn [skipn app].
  assert (Hlen : 1 <= List.length text).
  { destruct text; [discriminate E | cbn [List.length]; lia]. }
  revert P. generalize (issues (analyze_content self text atype)) as l.
  generalize 0 as k.
  intros k l. revert k. induction l as [|i l IH]; intros k P; [constructor|].
  inversion P as [|? ? Hi Hl]; subst.
  cbn [List.length seq combine map]. constructor; [|apply IH; exact Hl].
  cbn [line_number snd].
  destruct (i_position i) as [p|].
  - assert (0 <= Z.of_nat p / 50)%Z by (apply Z.div_pos; lia).
    assert (Z.of_nat p / 50 <= (Z.of_nat (List.length text) - 1) / 50)%Z
      by (apply Z.div_le_mono; lia).
    lia.
  - assert (0 <= (Z.of_nat (List.length text) - 1) / 50)%Z
      by (apply Z.div_pos; lia).
    change (0 / 50)%Z with 0%Z. lia.
Qed.

Lemma clamp_10 (x : pynum) : (10 <= value x)%Q -> clamp x = PInt 10.
Proof.
  intro H. destruct (clamp_cases x) as [[_ H0]|[[E _]|[_ [_ H10]]]].
  - lra.
  - exact E.
  - lra.
Qed.

Lemma clamp_id (x : pynum) :
  (0 < value x)%Q -> (value x < 10)%Q -> clamp x = x.
Proof.
  intros H0 H10. destruct (clamp_cases x) as [[_ H]|[[_ H]|[E _]]].
  - lra.
  - lra.
  - exact E.
Qed.

(** X26.  In a document review the voice and tone score is 10 as soon
    as the document has one contraction, whatever else it holds; without a
    contraction it lies between 8 and 9. *)
Theorem voice_score_is_10_with_a_contraction (self : analyzer) (text : pystr) :
  let qs := rv_quality_scores (review_document self text) in
  if 0 <? count true (p_contractions (patterns self)) text
  then q_voice_tone qs = PInt 10
  else py_le (PInt 8) (q_voice_tone qs) = true
       /\ py_le (q_voice_tone qs) (PInt 9) = true.
Proof.
  cbv zeta. unfold review_document. cbv zeta. cbn [rv_quality_scores].
  rewrite calculate_quality_scores_spec. cbn [q_voice_tone].
  rewrite count_voice_tone.
  pose proof (voice_tone_block_cases self text (lat "comprehensive")) as H.
  cbv zeta in H.
  change (mem_str (lat "comprehensive") [lat "comprehensive"; lat "voice_tone"])
    with true in H. cbv iota in H. rewrite H. clear H.
  set (c := count true (p_contractions (patterns self)) text).
  set (y := count true (p_you_addressing (patterns self)) text).
  unfold Spec.voice_tone_score.
  assert (B0 : (0 <= value (py_min (py_mul (of_nat y) f_0_2) f_1_0))%Q).
  { apply bonus_nonneg; vm_compute; discriminate. }
  assert (B1 : (value (py_min (py_mul (of_nat y) f_0_2) f_1_0) <= 1)%Q).
  { apply (py_min_le_r (py_mul (of_nat y) f_0_2) f_1_0). }
  destruct (0 <? c) eqn:E; cbn [List.length].
  - apply clamp_10.
    apply py_add_ge; [reflexivity| |exact B0].
    apply py_add_ge; [reflexivity| |apply bonus_nonneg; vm_compute; discriminate].
    vm_compute. discriminate.
  - apply Nat.ltb_ge in E. assert (c = 0) as -> by lia.
    change (py_add (py_sub f_10_0 (py_mul (of_nat 1) f_2_0))
                   (py_min (py_mul (of_nat 0) f_0_5) f_2_0))
      with (PFloat 8).
    generalize dependent (py_min (py_mul (of_nat y) f_0_2) f_1_0).
    intros b B0 B1.
    assert (L : (8 <= value (py_add (PFloat 8) b))%Q).
    { apply py_add_ge; [reflexivity| |exact B0]. apply Qle_refl. }
    assert (U : (value (py_add (PFloat 8) b) <= 9)%Q).
    { change 9%Q with (8 + 1)%Q.
      apply py_add_le; [reflexivity..| |exact B1]. apply Qle_refl. }
    rewrite clamp_id; [|lra|lra].
    split; apply py_le_iff; cbn [value]; assumption.
Qed.

Lemma tool_history (now : nat -> Z) (text atype : pystr) (self : analyzer) :
  exists added,
    change_history (snd (analyze_content_tool now text atype self))
    = change_history self ++ added
    /\ List.length added
       = if nonempty (strip text)
         then total_issues (analyze_content self text atype) else 0.
Proof.
  unfold analyze_content_tool.
  destruct (nonempty (strip text)); cbn [negb snd].
  - eexists. split; [apply track_issues_history|].
    rewrite length_map, length_combine, length_seq, Nat.min_id.
    rewrite total_issues_analyze. reflexivity.
  - exists []. rewrite app_nil_r. split; reflexivity.
Qed.

Lemma logged_by_same_engine (s1 s2 : analyzer) (calls : list tool_call) :
  same_engine s1 s2 -> logged_by s1 calls = logged_by s2 calls.
Proof.
  intro H. induction calls as [|c calls IH]; [reflexivity|].
  cbn [logged_by]. rewrite IH.
  rewrite (analyze_content_same_engine s1 s2 _ _ H). reflexivity.
Qed.

(** X27.  A sequence of calls of the [analyze_content] tool only extends
    the change log: the log before the calls is a prefix of the log after
    them, and the entries added are as many as the issues of the texts
    that are not blank, each analysed as the analyzer before the calls
    would (the log does not change what later calls report). *)
Theorem calls_only_extend_the_change_log
        (calls : list tool_call) (self : analyzer) :
  exists added,
    change_history (run_calls calls self) = change_history self ++ added
    /\ List.length added = logged_by self calls.
Proof.
  revert self. induction calls as [|c calls IH]; intro self.
  - exists []. rewrite app_nil_r. split; reflexivity.
  - cbn [run_calls logged_by].
    destruct (tool_history (call_clock c) (call_text c) (call_type c) self)
      as [a1 [H1 L1]].
    destruct (IH (snd (analyze_content_tool (call_clock c) (call_text c)
                         (call_type c) self))) as [a2 [H2 L2]].
    exists (a1 ++ a2). split.
    + rewrite H2, H1, app_assoc. reflexivity.
    + rewrite length_app, L1, L2. f_equal.
      symmetry. apply logged_by_same_engine. apply tool_same_engine.
Qed.

(** X28.  The quality level and the next steps of an executive summary
    fit together: a content "ready for publication" (score of 8 or more)
    is "Excellent" or "Good", a level "Excellent" always comes with "ready
    for publication", and a level "Requires Major Revision" always comes
    with "Major revision needed". *)
Theorem quality_level_fits_next_steps (score : pynum) (a : analysis) :
  let level := get_quality_level score in
  let steps := generate_next_steps score a in
  (In (lat "Content is ready for publication") steps
   <-> py_ge score (PInt 8) = true)
  /\ (In (lat "Content is ready for publication") steps ->
      level = lat "Excellent" \/ level = lat "Good")
  /\ (level = lat "Excellent" ->
      steps = [lat "Content is ready for publication";
               lat "Consider final proofreading pass"])
  /\ (level = lat "Requires Major Revision" ->
      steps = [lat "Major revision needed";
               lat "Focus on high-priority issues first";
               lat "Consider restructuring content"]).
Proof.
  cbv zeta. unfold get_quality_level, generate_next_steps, py_ge.
  assert (T : forall (m n : Z), (m <= n)%Z ->
              py_le (PInt n) score = true -> py_le (PInt m) score = true).
  { intros m n Hmn H. apply py_le_iff. apply py_le_iff in H.
    cbn [value] in *. apply (Qle_trans _ (inject_Z n)); [|exact H].
    rewrite <- Zle_Qle. exact Hmn. }
  destruct (py_le (PInt 9) score) eqn:E9.
  { rewrite (T 8 9 ltac:(lia) E9)%Z.
    repeat split; auto; try (intro H; vm_compute in H; discriminate H).
    intros _. left. reflexivity. }
  destruct (py_le (PInt 8) score) eqn:E8.
  { rewrite (T 7 8 ltac:(lia) E8)%Z.
    repeat split; auto; try (intro H; vm_compute in H; discriminate H).
    intros _. left. reflexivity. }
  assert (N : ~ In (lat "Content is ready for publication")
                   (if py_le (PInt 6) score
                    then [lat "Address medium-priority recommendations";
                          lat "Review with stakeholders";
                          lat "One more revision recommended"]
                    else [lat "Major revision needed";
                          lat "Focus on high-priority issues first";
                          lat "Consider restructuring content"])).
  { destruct (py_le (PInt 6) score); intro H; cbn [In] in H;
      repeat (destruct H as [H|H]; [vm_compute in H; discriminate H|]);
      destruct H. }
  split; [split; [intro H; destruct (N H) | intro H; discriminate H]|].
  split; [intro H; destruct (N H)|].
  destruct (py_le (PInt 7) score) eqn:E7.
  { split; intro H; vm_compute in H; discriminate H. }
  destruct (py_le (PInt 5) score) eqn:E5.
  { split; intro H; vm_compute in H; discriminate H. }
  split; [intro H; vm_compute in H; discriminate H|].
  intros _.
  destruct (py_le (PInt 6) score) eqn:E6; [|reflexivity].
  rewrite (T 5 6 ltac:(lia) E6)%Z in E5. discriminate E5.
Qed.

(** X29.  The web-enabled analyzer runs the contractions detector and
    the direct-address detector under every analysis type: a text with a
    contraction gets the positive warm_and_relaxed suggestion and no
    voice_tone issue, a text without one gets the info voice_tone issue
    first among its issues, and a text with a "you" gets the positive
    ready_to_help suggestion. *)
Theorem web_voice_detectors_run_under_every_filter
        (self : analyzer) (text atype : pystr) :
  let c := count true (p_contractions (patterns self)) text in
  let y := count true (p_you_addressing (patterns self)) text in
  (if 0 <? c
   then (exists s, In s (Web.suggestions self text)
                   /\ s_type s = lat "positive"
                   /\ s_principle s = lat "warm_and_relaxed")
        /\ count_type voice_tone (Web.issues self text atype) = 0
   else exists rest,
          Web.issues self text atype
          = Issue voice_tone info None None
              (lat "Consider using contractions (it's, you're, we'll) for a more natural tone")
              (Some (lat "warm_and_relaxed")) None :: rest)
  /\ (if 0 <? y
      then exists s, In s (Web.suggestions self text)
                     /\ s_type s = lat "positive"
                     /\ s_principle s = lat "ready_to_help"
      else Forall (fun s => s_principle s <> lat "ready_to_help")
                  (Web.suggestions self text)).
Proof.
  cbv zeta. unfold Web.suggestions, Web.issues, Web.voice_tone_block. cbv zeta.
  assert (G : count_type voice_tone (Web.grammar_block self text atype) = 0).
  { apply (count_type_none voice_tone grammar); [reflexivity|].
    unfold Web.grammar_block. destruct (mem_str _ _); [|constructor].
    apply Forall_map, Forall_forall. intros; reflexivity. }
  assert (T : count_type voice_tone (Web.terminology_block self text atype) = 0).
  { apply (count_type_none voice_tone terminology); [reflexivity|].
    unfold Web.terminology_block. destruct (mem_str _ _); [|constructor].
    apply Forall_flat_map, Forall_forall. intros entry _.
    apply Forall_flat_map, Forall_forall. intros avoid_term _.
    destruct (contains _ _); repeat constructor. }
  assert (X : count_type voice_tone (Web.accessibility_block self text atype) = 0).
  { apply (count_type_none voice_tone accessibility); [reflexivity|].
    unfold Web.accessibility_block. destruct (mem_str _ _); [|constructor].
    apply Forall_map, Forall_forall. intros; reflexivity. }
  destruct (0 <? count true (p_contractions (patterns self)) text);
    destruct (0 <? count true (p_you_addressing (patterns self)) text);
    cbn [fst snd app]; split.
  - split; [eexists; split; [left; reflexivity|split; reflexivity]|].
    rewrite !count_type_app, G, T, X. reflexivity.
  - eexists; split; [right; left; reflexivity|split; reflexivity].
  - split; [eexists; split; [left; reflexivity|split; reflexivity]|].
    rewrite !count_type_app, G, T, X. reflexivity.
  - repeat constructor. intro H. vm_compute in H. discriminate H.
  - eexists. reflexivity.
  - eexists; split; [left; reflexivity|split; reflexivity].
  - eexists. reflexivity.
  - constructor.
Qed.
